(** * Sanyou speech pipeline: segmenter, gain stage and language decision

    A shallow embedding of [core/vad.py], of [apply_gain] and
    [denoise_wiener] of [core/audio.py] and of the workers and public
    operations of [core/recognizer.py], followed by the properties the
    specification states about them.

    Conventions of the embedding.
    - A sample or an energy is a floating-point value ([float]): not a
      number, an infinity, or a finite number, which is written as the
      rational it is.  A threshold, a gain and a probability are finite, and
      a [Q].  A one-dimensional NumPy array is a list of samples.  The
      comparisons the code makes ([>=], [<]) and the clipping are exact on
      these values.  What NumPy, SciPy and the float power compute with
      rounding is not recomputed here: the mean of the absolute values of a
      frame, the product of a sample by the gain factor, the power
      [10.0 ** y] and the Wiener filter are parameters, and a theorem holds
      whatever they return.  [Float32] gives the IEEE arithmetic of float32
      for the concrete frames on which rounding decides.
    - Python integers are [Z]; [len] is the length as a [Z].
    - A Python [str] is a [string] in which one [ascii] is one character.
    - A dictionary is the list of its items in iteration order.
    - An attribute that holds [None] or a string is an [option string];
      Python truthiness is written out ([nonempty], [or_default]).
    - Whisper is a parameter too ([Externals]).
    - The threads are interleaved one step at a time ([action], [step]):
      a public operation, a block delivered to the capture callback, or one
      whole turn of the processing loop. *)

From Stdlib Require Import List ZArith QArith Qabs Qminmax Qround Bool String Ascii
  DecimalString Sorted Lia.
From Stdlib Require SpecFloat.
Import ListNotations.

Local Open Scope list_scope.
Local Open Scope Z_scope.

(** ** Common helpers *)

Definition len {A : Type} (l : list A) : Z := Z.of_nat (List.length l).

(** The exceptions the modelled code raises. *)
Inductive exn := ValueError | OverflowError.

(** What a call gives: the value returned or the exception raised. *)
Inductive result (A : Type) :=
| Ok (a : A)
| Raise (e : exn).

Arguments Ok {A} a.
Arguments Raise {A} e.

(** ** Floating-point values *)

Module Float.

(** A value of a NumPy array or of a Python [float].  A finite value is the
    rational number it stands for; the sign of a zero is not kept. *)
Inductive float :=
| NaN
| Inf (negative : bool)
| Fin (q : Q).

(** [x >= t] for a finite [t]: false when [x] is NaN. *)
Definition ge (x : float) (t : Q) : bool :=
  match x with
  | NaN => false
  | Inf negative => negb negative
  | Fin q => Qle_bool t q
  end.

(** [abs(x)]. *)
Definition abs (x : float) : float :=
  match x with
  | NaN => NaN
  | Inf _ => Inf false
  | Fin q => Fin (Qabs q)
  end.

End Float.

(** ** float32 arithmetic

    The IEEE 754 binary32 format, round to nearest even, from the
    specification of floating-point numbers of the standard library. *)

Module Float32.

Import Float.

Definition prec : Z := 24.
Definition emax : Z := 128.

(** The float32 nearest to [n / d], with the sign [negative]. *)
Definition round (negative : bool) (n d : positive) : SpecFloat.spec_float :=
  let '(mz, ez, lz) :=
    SpecFloat.SFdiv_core_binary prec emax (Zpos n) 0 (Zpos d) 0 in
  SpecFloat.binary_round_aux prec emax negative mz ez lz.

(** A value as a float32: itself when it is one, else the nearest one. *)
Definition of_float (x : float) : SpecFloat.spec_float :=
  match x with
  | NaN => SpecFloat.S754_nan
  | Inf negative => SpecFloat.S754_infinity negative
  | Fin q =>
      match Qnum q with
      | Z0 => SpecFloat.S754_zero false
      | Zpos n => round false n (Qden q)
      | Zneg n => round true n (Qden q)
      end
  end.

(** The value of a float32, a finite one as a fraction in lowest terms. *)
Definition to_float (x : SpecFloat.spec_float) : float :=
  match x with
  | SpecFloat.S754_zero _ => Fin 0
  | SpecFloat.S754_infinity negative => Inf negative
  | SpecFloat.S754_nan => NaN
  | SpecFloat.S754_finite negative m e =>
      let n := if negative then Zneg m else Zpos m in
      Fin (Qred (match e with
                 | Z0 => n # 1
                 | Zpos p => (n * 2 ^ Zpos p) # 1
                 | Zneg p => n # (2 ^ p)
                 end))
  end.

(** The sum of the absolute values of the samples, added in float32 from
    the first sample to the last. *)
Definition sum_abs (f : list float) : SpecFloat.spec_float :=
  fold_left
    (fun acc s => SpecFloat.SFadd prec emax acc (SpecFloat.SFabs (of_float s)))
    f (SpecFloat.S754_zero false).

(** [float(np.mean(np.abs(f)))] for a float32 array [f]: the sum above
    divided by the number of samples.  NumPy adds the samples of a short
    array in this order; on a longer array it adds them pairwise, which
    gives the same sum whenever no addition rounds. *)
Definition mean_abs (f : list float) : float :=
  to_float
    (SpecFloat.SFdiv prec emax (sum_abs f)
       (SpecFloat.binary_normalize prec emax (len f) 0 false)).

End Float32.

(** ** Arithmetic without rounding

    The mean and the product as the specification reads them, on the exact
    values.  They stand in for NumPy's where a concrete frame is needed and
    float32 arithmetic does not round on it. *)

Module Exact.

Import Float.

(** [x + y]. *)
Definition add (x y : float) : float :=
  match x, y with
  | NaN, _ | _, NaN => NaN
  | Inf a, Inf b => if Bool.eqb a b then Inf a else NaN
  | Inf a, Fin _ => Inf a
  | Fin _, Inf b => Inf b
  | Fin p, Fin q => Fin (p + q)
  end.

(** The sum of the absolute values of the samples. *)
Fixpoint sum_abs (f : list float) : float :=
  match f with
  | [] => Fin 0
  | s :: f' => add (abs s) (sum_abs f')
  end.

(** The mean of the absolute values of the samples of a frame that is not
    empty, a finite one as a fraction in lowest terms. *)
Definition mean_abs (f : list float) : float :=
  match sum_abs f with
  | Fin s => Fin (Qred (s / inject_Z (len f)))
  | x => x
  end.

(** [s * g]. *)
Definition times (s : float) (g : Q) : float :=
  match s with
  | NaN => NaN
  | Inf negative =>
      if Qeq_bool g 0 then NaN
      else Inf (xorb negative (negb (Qle_bool 0 g)))
  | Fin q => Fin (q * g)
  end.

End Exact.

(** ** core/vad.py *)

Module VAD.

Import Float.

Definition frame := list float.

(** The attributes of an [EnergyVAD] object. *)
Record EnergyVAD := mkVAD {
  sr : Z;
  th : Q;
  min_utt : Z;
  max_utt : Z;
  silence_need : Z;
  buf : frame;
  silence_run : Z;
  in_speech : bool
}.

(** [EnergyVAD.reset]: the configuration is kept, the buffer, the silence
    counter and the speech flag are cleared. *)
Definition reset (v : EnergyVAD) : EnergyVAD :=
  {| sr := sr v; th := th v; min_utt := min_utt v; max_utt := max_utt v;
     silence_need := silence_need v;
     buf := []; silence_run := 0; in_speech := false |}.

(** [int(sr * ms / 1000.0)] for [|sr * ms| < 2^53].  The product is then a
    float64 as it is, and the float quotient truncated is the exact quotient
    truncated: a quotient that is not an integer is at least 0.001 away from
    the next one, more than half the gap between two float64 below 2^44.
    From 2^53 on the code rounds, and from about 1.8e308 the conversion to
    float raises OverflowError; such rates are outside this definition. *)
Definition ms_to_samples (sr ms : Z) : Z := Z.quot (sr * ms) 1000.

(** [EnergyVAD.__init__]. *)
Definition init (sr : Z) (energy_thresh : Q)
    (min_utt_ms max_utt_ms silence_ms : Z) : EnergyVAD :=
  reset {| sr := sr; th := energy_thresh;
           min_utt := ms_to_samples sr min_utt_ms;
           max_utt := ms_to_samples sr max_utt_ms;
           silence_need := ms_to_samples sr silence_ms;
           buf := []; silence_run := 0; in_speech := false |}.

(** The defaults of the constructor's keyword arguments. *)
Definition default_energy_thresh : Q := 0.015%Q.
Definition default_min_utt_ms : Z := 900.
Definition default_max_utt_ms : Z := 6000.
Definition default_silence_ms : Z := 450.

Definition init_default (sr : Z) : EnergyVAD :=
  init sr default_energy_thresh default_min_utt_ms default_max_utt_ms
       default_silence_ms.

Section Energy.

(** [mean_abs f] is [float(np.mean(np.abs(f)))] on a frame that is not
    empty: the sum and the division are NumPy's, in float32, and the result
    is taken as NumPy gives it. *)
Variable mean_abs : frame -> float.

(** [float(np.mean(np.abs(f)))].  The mean of an empty array is NaN. *)
Definition energy (f : frame) : float :=
  match f with
  | [] => NaN
  | _ => mean_abs f
  end.

(** [energy >= self.th]; a comparison with NaN is false. *)
Definition voice (v : EnergyVAD) (f : frame) : bool :=
  ge (energy f) (th v).

(** The object after the first half of [feed]: the frame is appended and the
    speech flag and silence counter are updated. *)
Definition absorb (v : EnergyVAD) (f : frame) : EnergyVAD :=
  let vc := voice v f in
  {| sr := sr v; th := th v; min_utt := min_utt v; max_utt := max_utt v;
     silence_need := silence_need v;
     buf := buf v ++ f;
     silence_run := if vc then 0 else silence_run v + len f;
     in_speech := if vc then true else in_speech v |}.

(** [EnergyVAD.feed]: the new object and the returned utterance, if any. *)
Definition feed (v : EnergyVAD) (f : frame) : EnergyVAD * option frame :=
  let v1 := absorb v f in
  if in_speech v1 && (max_utt v1 <=? len (buf v1)) then
    (reset v1, Some (buf v1))
  else if in_speech v1 && (silence_need v1 <=? silence_run v1) then
    if min_utt v1 <=? len (buf v1) then (reset v1, Some (buf v1))
    else (reset v1, None)
  else (v1, None).

(** Consecutive calls of [feed], with what each call returned. *)
Fixpoint feed_all (v : EnergyVAD) (fs : list frame)
    : EnergyVAD * list (option frame) :=
  match fs with
  | [] => (v, [])
  | f :: fs' =>
      let '(v1, out) := feed v f in
      let '(v2, outs) := feed_all v1 fs' in
      (v2, out :: outs)
  end.

(** The energy the code computes for the frame is the finite number [q]. *)
Definition energy_is (f : frame) (q : Q) : Prop :=
  exists e, energy f = Fin e /\ (e == q)%Q.

(** The energy the code computes for the frame is at or above the
    threshold. *)
Definition voiced (v : EnergyVAD) (f : frame) : Prop :=
  exists e, energy f = Fin e /\ (th v <= e)%Q.

(** The energy the code computes for the frame is strictly below the
    threshold. *)
Definition below_threshold (v : EnergyVAD) (f : frame) : Prop :=
  exists e, energy f = Fin e /\ (e < th v)%Q.

End Energy.

(** The utterances among the returned values. *)
Fixpoint emitted (outs : list (option frame)) : list frame :=
  match outs with
  | [] => []
  | Some u :: outs' => u :: emitted outs'
  | None :: outs' => emitted outs'
  end.

(** The object is as [reset] leaves it. *)
Definition is_reset (v : EnergyVAD) : Prop :=
  buf v = [] /\ silence_run v = 0 /\ in_speech v = false.

(** The configuration never changes. *)
Definition same_config (v w : EnergyVAD) : Prop :=
  sr w = sr v /\ th w = th v /\ min_utt w = min_utt v /\
  max_utt w = max_utt v /\ silence_need w = silence_need v.

End VAD.

(** ** core/audio.py *)

Module Audio.

Import Float.

(** [np.clip(s, -1.0, 1.0)] on one sample: [minimum(maximum(s, -1), 1)],
    through which NaN passes. *)
Definition clip_unit (s : float) : float :=
  match s with
  | NaN => NaN
  | Inf negative => Fin (if negative then -1 else 1)
  | Fin q => Fin (Qmin (Qmax q (-1)) 1)
  end.

(** [apply_gain(x, gain_db)] for a float32 block [x] and a finite gain.
    - [pow10 y] is [10.0 ** y'] for the float [y'] nearest to [y], which is
      what [float(gain_db) / 20.0] gives; [None] is its OverflowError.
    - [times s g] is the sample of [(x * g).astype(np.float32)] at a sample
      [s] of [x]: NumPy's product, rounded, and an infinity or NaN when
      NumPy gives one.
    Clipping and the conversion to float32 commute: -1 and 1 are float32
    values. *)
Definition apply_gain (pow10 : Q -> option Q) (times : float -> Q -> float)
    (x : list float) (gain_db : Q) : result (list float) :=
  if Qeq_bool gain_db 0 then Ok x
  else
    match pow10 (gain_db / 20)%Q with
    | None => Raise OverflowError
    | Some g => Ok (map (fun s => clip_unit (times s g)) x)
    end.

(** [denoise_wiener]: [wiener x] is
    [scipy.signal.wiener(x, mysize=29).astype(np.float32)], [None] when the
    filter raises; its samples can be NaN.  Clipping and the conversion to
    float32 commute. *)
Definition denoise_wiener (wiener : list float -> option (list float))
    (x : list float) : list float :=
  match wiener x with
  | Some y => map clip_unit y
  | None => x
  end.

(** The sample is a number of [[-1, 1]]. *)
Definition in_unit (s : float) : Prop :=
  match s with
  | Fin q => (-1 <= q /\ q <= 1)%Q
  | _ => False
  end.

(** The sample is a number of [[-1, 1]] or NaN. *)
Definition in_unit_or_nan (s : float) : Prop :=
  s = NaN \/ in_unit s.

End Audio.

(** ** Python strings

    A Python [str] is a [string]; one [ascii] stands for one character, so
    the alphabet of the embedding is the code points below 256. *)

Module PyStr.

(** [c.isspace()] for a code point below 256: tab to carriage return, the
    four separators 28 to 31, the space, NEL (133) and the no-break space
    (160). *)
Definition is_space (c : ascii) : bool :=
  let n := nat_of_ascii c in
  ((9 <=? n) && (n <=? 13) || (28 <=? n) && (n <=? 32)
   || (n =? 133) || (n =? 160))%nat.

(** [s.lstrip()]. *)
Fixpoint lstrip (s : string) : string :=
  match s with
  | EmptyString => EmptyString
  | String c s' => if is_space c then lstrip s' else s
  end.

(** [s.rstrip()]. *)
Fixpoint rstrip (s : string) : string :=
  match s with
  | EmptyString => EmptyString
  | String c s' =>
      match rstrip s' with
      | EmptyString => if is_space c then EmptyString else String c EmptyString
      | r => String c r
      end
  end.

(** [s.strip()]. *)
Definition strip (s : string) : string := rstrip (lstrip s).

(** [len(s)]. *)
Definition slen (s : string) : Z := Z.of_nat (String.length s).

(** [c.upper()] for the letters [a] to [z]; the language codes the pipeline
    prints are made of these. *)
Definition upper_char (c : ascii) : ascii :=
  let n := nat_of_ascii c in
  if ((97 <=? n) && (n <=? 122))%nat then ascii_of_nat (n - 32) else c.

(** [s.upper()]. *)
Fixpoint upper (s : string) : string :=
  match s with
  | EmptyString => EmptyString
  | String c s' => String (upper_char c) (upper s')
  end.

(** Truthiness of a string: it is not empty. *)
Definition nonempty (s : string) : bool :=
  match s with
  | EmptyString => false
  | String _ _ => true
  end.

(** [o or d]. *)
Definition or_default (o : option string) (d : string) : string :=
  match o with
  | Some s => if nonempty s then s else d
  | None => d
  end.

(** [k in xs] for a set or list of strings. *)
Definition mem (k : string) (xs : list string) : bool :=
  existsb (String.eqb k) xs.

(** The string is empty or starts with a character that is not a space. *)
Definition starts_clean (s : string) : Prop :=
  match s with
  | EmptyString => True
  | String c _ => is_space c = false
  end.

End PyStr.

(** ** core/recognizer.py *)

Module Recognizer.

Import PyStr.

Definition audio := list Float.float.

(** The dictionary [detect_language] returns, in iteration order; a
    dictionary holds a key once. *)
Definition probs := list (string * Q).

(** What the code calls outside the repository.  The model may answer two
    calls on the same audio differently: [detect_language] and [transcribe]
    take the number of calls the model has answered before.
    - [mean_abs f] is [float(np.mean(np.abs(f)))] on a frame that is not
      empty;
    - [pow10 y] is [10.0 ** y], [None] when it raises OverflowError;
    - [times s g] is a sample [s] of a block multiplied by [g] by NumPy;
    - [wiener] is [scipy.signal.wiener], [None] when it raises;
    - [pad_or_trim] is [whisper.pad_or_trim];
    - [detect_language n y] is the second component of
      [model.detect_language(whisper.log_mel_spectrogram(y))];
    - [transcribe n y lang] is [model.transcribe(y, language=lang,
      ...).get("text")]. *)
Record Externals := mkExternals {
  mean_abs : audio -> Float.float;
  pow10 : Q -> option Q;
  times : Float.float -> Q -> Float.float;
  wiener : audio -> option audio;
  pad_or_trim : audio -> audio;
  detect_language : nat -> audio -> probs;
  transcribe : nat -> audio -> string -> option string
}.

(** The settings of [ConfigManager] the pipeline reads. *)
Record Config := mkConfig {
  sample_rate : Z;
  gain_db : Q;
  noise_reduction : bool;
  lang_mode : string;
  chosen_lang : string
}.

(** The argument of [on_status]. *)
Inductive status := StLoading | StRunning | StPaused | StStopped.

(** The notices of [on_info] whose text is fixed, the notice of a status
    flag of the stream, and the line of a recognised utterance. *)
Inductive info :=
| InfoAudio (status : string)
| InfoPaused
| InfoResumed
| InfoStopped
| InfoLoadingModel
| InfoModelReady
| InfoModelLoadFailed
| InfoModelLoading
| InfoLine (line : string).

(** What the pipeline does that is visible outside it. *)
Inductive event :=
| Detect (y : audio)
| Transcribe (y : audio) (lang : string)
| OnText (line : string)
| OnInfo (i : info)
| OnStatus (s : status)
| LogWrite (line : string).

(** The attributes of a [WhisperRecognizer] the processing uses.  [calls]
    counts the calls the model has answered and [trace] lists, oldest first,
    the calls of the model, the callbacks and the log writes. *)
Record Recognizer := mkRecognizer {
  cfg : Config;
  sr : Z;
  frame : Z;
  model_loaded : bool;
  loading : bool;
  audio_q : list audio;
  stop_evt : bool;
  vad : VAD.EnergyVAD;
  is_running : bool;
  is_paused : bool;
  last_lang : option string;
  calls : nat;
  trace : list event
}.

(** [self.model = ...]: [true] when a model is resident. *)
Definition set_model_loaded (x : bool) (r : Recognizer) : Recognizer :=
  {| cfg := cfg r; sr := sr r; frame := frame r; model_loaded := x;
     loading := loading r; audio_q := audio_q r; stop_evt := stop_evt r;
     vad := vad r; is_running := is_running r; is_paused := is_paused r;
     last_lang := last_lang r; calls := calls r; trace := trace r |}.

(** [self._loading = x]. *)
Definition set_loading (x : bool) (r : Recognizer) : Recognizer :=
  {| cfg := cfg r; sr := sr r; frame := frame r;
     model_loaded := model_loaded r; loading := x; audio_q := audio_q r;
     stop_evt := stop_evt r; vad := vad r; is_running := is_running r;
     is_paused := is_paused r; last_lang := last_lang r; calls := calls r;
     trace := trace r |}.

(** The queue after a [get] or a [put_nowait]. *)
Definition set_audio_q (x : list audio) (r : Recognizer) : Recognizer :=
  {| cfg := cfg r; sr := sr r; frame := frame r;
     model_loaded := model_loaded r; loading := loading r; audio_q := x;
     stop_evt := stop_evt r; vad := vad r; is_running := is_running r;
     is_paused := is_paused r; last_lang := last_lang r; calls := calls r;
     trace := trace r |}.

(** [self._stop_evt.set()] and [.clear()]. *)
Definition set_stop_evt (x : bool) (r : Recognizer) : Recognizer :=
  {| cfg := cfg r; sr := sr r; frame := frame r;
     model_loaded := model_loaded r; loading := loading r;
     audio_q := audio_q r; stop_evt := x; vad := vad r;
     is_running := is_running r; is_paused := is_paused r;
     last_lang := last_lang r; calls := calls r; trace := trace r |}.

(** The segmenter object after a call of one of its methods. *)
Definition set_vad (x : VAD.EnergyVAD) (r : Recognizer) : Recognizer :=
  {| cfg := cfg r; sr := sr r; frame := frame r;
     model_loaded := model_loaded r; loading := loading r;
     audio_q := audio_q r; stop_evt := stop_evt r; vad := x;
     is_running := is_running r; is_paused := is_paused r;
     last_lang := last_lang r; calls := calls r; trace := trace r |}.

(** [self.is_running = x]. *)
Definition set_is_running (x : bool) (r : Recognizer) : Recognizer :=
  {| cfg := cfg r; sr := sr r; frame := frame r;
     model_loaded := model_loaded r; loading := loading r;
     audio_q := audio_q r; stop_evt := stop_evt r; vad := vad r;
     is_running := x; is_paused := is_paused r; last_lang := last_lang r;
     calls := calls r; trace := trace r |}.

(** [self.is_paused = x]. *)
Definition set_is_paused (x : bool) (r : Recognizer) : Recognizer :=
  {| cfg := cfg r; sr := sr r; frame := frame r;
     model_loaded := model_loaded r; loading := loading r;
     audio_q := audio_q r; stop_evt := stop_evt r; vad := vad r;
     is_running := is_running r; is_paused := x; last_lang := last_lang r;
     calls := calls r; trace := trace r |}.

(** [self._last_lang = x]. *)
Definition set_last_lang (x : option string) (r : Recognizer) : Recognizer :=
  {| cfg := cfg r; sr := sr r; frame := frame r;
     model_loaded := model_loaded r; loading := loading r;
     audio_q := audio_q r; stop_evt := stop_evt r; vad := vad r;
     is_running := is_running r; is_paused := is_paused r; last_lang := x;
     calls := calls r; trace := trace r |}.

(** A callback or a file write is recorded at the end of the trace. *)
Definition log_event (e : event) (r : Recognizer) : Recognizer :=
  {| cfg := cfg r; sr := sr r; frame := frame r;
     model_loaded := model_loaded r; loading := loading r;
     audio_q := audio_q r; stop_evt := stop_evt r; vad := vad r;
     is_running := is_running r; is_paused := is_paused r;
     last_lang := last_lang r; calls := calls r; trace := trace r ++ [e] |}.

(** A call of the model is recorded and counted. *)
Definition log_call (e : event) (r : Recognizer) : Recognizer :=
  {| cfg := cfg r; sr := sr r; frame := frame r;
     model_loaded := model_loaded r; loading := loading r;
     audio_q := audio_q r; stop_evt := stop_evt r; vad := vad r;
     is_running := is_running r; is_paused := is_paused r;
     last_lang := last_lang r; calls := S (calls r);
     trace := trace r ++ [e] |}.
(** *** Control flow: state and exceptions *)

(** A method of the recognizer: it reads and updates the object, and
    returns or raises. *)
Definition M (A : Type) : Type := Recognizer -> result A * Recognizer.

Definition ret {A : Type} (a : A) : M A := fun r => (Ok a, r).

Definition bind {A B : Type} (m : M A) (k : A -> M B) : M B :=
  fun r =>
    match m r with
    | (Ok a, r1) => k a r1
    | (Raise e, r1) => (Raise e, r1)
    end.

Definition raise {A : Type} (e : exn) : M A := fun r => (Raise e, r).

Definition get : M Recognizer := fun r => (Ok r, r).

Definition modify (f : Recognizer -> Recognizer) : M unit :=
  fun r => (Ok tt, f r).

Notation "x <- m ;; k" := (bind m (fun x => k))
  (at level 61, m at next level, right associativity).
Notation "m ;; k" := (bind m (fun _ => k))
  (at level 61, right associativity).

(** [_emit_text], [_emit_info], [_emit_status] and [self.log.write]. *)
Definition emit (e : event) : M unit := modify (log_event e).

(** *** Language decision *)

(** [self._allowed]. *)
Definition allowed : list string := ["ru"; "en"; "zh"]%string.

Definition Qlt_bool (a b : Q) : bool := negb (Qle_bool b a).

(** [d.get(k, default)]. *)
Fixpoint dict_get (d : probs) (k : string) (default : Q) : Q :=
  match d with
  | [] => default
  | (k', v) :: d' => if String.eqb k' k then v else dict_get d' k default
  end.

(** The scan of [max]: the item kept is replaced only by a strictly greater
    one, so the first of several greatest items wins. *)
Fixpoint max_from (best : string * Q) (rest : probs) : string :=
  match rest with
  | [] => fst best
  | kv :: rest' =>
      if Qlt_bool (snd best) (snd kv) then max_from kv rest'
      else max_from best rest'
  end.

(** [max(filt, key=filt.get)]; [ValueError] on an empty dictionary. *)
Definition max_key (filt : probs) : M string :=
  match filt with
  | [] => raise ValueError
  | kv :: rest => ret (max_from kv rest)
  end.

(** [{k: float(v) for k, v in probs.items() if k in self._allowed}], then
    the keys of [exclude] popped when [exclude] is not empty. *)
Definition filter_probs (p : probs) (exclude : list string) : probs :=
  let filt := filter (fun kv => mem (fst kv) allowed) p in
  match exclude with
  | [] => filt
  | _ => filter (fun kv => negb (mem (fst kv) exclude)) filt
  end.

(** [self._last_lang and lang != self._last_lang]. *)
Definition differs_from_last (last : option string) (lang : string) : bool :=
  match last with
  | Some l => nonempty l && negb (String.eqb lang l)
  | None => false
  end.

(** The call of [self.model.detect_language] on the mel spectrogram. *)
Definition call_detect (env : Externals) (y : audio) : M probs :=
  r <- get ;;
  modify (log_call (Detect y)) ;;
  ret (detect_language env (calls r) y).

(** [_best_lang(audio, exclude, force)]; [exclude=None] is [[]]. *)
Definition best_lang (env : Externals) (y : audio) (exclude : list string)
    (force : bool) : M string :=
  p <- call_detect env y ;;
  let filt := filter_probs p exclude in
  r <- get ;;
  match filt with
  | [] => ret (or_default (last_lang r) "en")
  | _ =>
      lang <- max_key filt ;;
      match last_lang r with
      | Some l =>
          if negb force && differs_from_last (last_lang r) lang then
            if Qlt_bool (dict_get filt lang 0) (1 # 2) then ret l
            else ret lang
          else ret lang
      | None => ret lang
      end
  end.

(** [(res.get("text") or "").strip()] for the call of [model.transcribe]
    made when the object is [r]. *)
Definition asr_text (env : Externals) (y : audio) (lang : string)
    (r : Recognizer) : string :=
  strip (match transcribe env (calls r) y lang with
         | Some t => t
         | None => EmptyString
         end).

(** [_asr(audio, lang)]. *)
Definition asr (env : Externals) (y : audio) (lang : string) : M string :=
  r <- get ;;
  modify (log_call (Transcribe y lang)) ;;
  ret (asr_text env y lang r).

(** [self.cfg.chosen_lang if self.cfg.chosen_lang in self._allowed else "ru"]. *)
Definition chosen_or_ru (c : Config) : string :=
  if mem (chosen_lang c) allowed then chosen_lang c else "ru"%string.

(** The branch [mode == "exclusive"] of [_process_loop]. *)
Definition exclusive_mode (env : Externals) (y : audio)
    : M (string * string) :=
  r <- get ;;
  let lang := chosen_or_ru (cfg r) in
  text <- asr env y lang ;;
  ret (lang, text).

(** The branch [mode == "priority"]. *)
Definition priority_mode (env : Externals) (y : audio)
    : M (string * string) :=
  r <- get ;;
  let primary := chosen_or_ru (cfg r) in
  text <- asr env y primary ;;
  if slen (strip text) <? 2 then
    lang <- best_lang env y [primary] false ;;
    text2 <- asr env y lang ;;
    ret (lang, text2)
  else ret (primary, text).

(** The last branch of [_process_loop], taken in [standard] mode. *)
Definition standard_mode (env : Externals) (y : audio)
    : M (string * string) :=
  lang <- best_lang env y [] false ;;
  r <- get ;;
  lang' <- (if differs_from_last (last_lang r) lang
            then best_lang env y [] true
            else ret lang) ;;
  modify (set_last_lang (Some lang')) ;;
  text <- asr env y lang' ;;
  ret (lang', text).

(** The choice of the language and the transcription of one utterance: the
    chosen language and the text. *)
Definition decide (env : Externals) (y : audio) : M (string * string) :=
  r <- get ;;
  let mode := lang_mode (cfg r) in
  if String.eqb mode "exclusive" then exclusive_mode env y
  else if String.eqb mode "priority" then priority_mode env y
  else standard_mode env y.

(** The line [f"[{lang.upper()}] {text.strip()}"], sent to [on_text], the
    log file and [on_info] when [text] is not empty. *)
Definition format_line (lang text : string) : string :=
  ("[" ++ upper lang ++ "] " ++ strip text)%string.

Definition publish (lang text : string) : M unit :=
  if nonempty text then
    let line := format_line lang text in
    emit (OnText line) ;;
    emit (LogWrite line) ;;
    emit (OnInfo (InfoLine line))
  else ret tt.

(** What [_process_loop] does with the prepared audio of one utterance:
    choose the language, transcribe, publish the line. *)
Definition handle_utterance (env : Externals) (y : audio) : M unit :=
  lt <- decide env y ;;
  publish (fst lt) (snd lt).

(** *** The workers and the public operations *)

(** [WhisperRecognizer.__init__]: nothing resident, nothing running, an
    empty queue and a segmenter with the default durations.  The two
    start-up notices (library versions, model name) are not recorded. *)
Definition init (c : Config) : Recognizer :=
  {| cfg := c;
     sr := sample_rate c;
     frame := VAD.ms_to_samples (sample_rate c) 200;
     model_loaded := false; loading := false;
     audio_q := []; stop_evt := false;
     vad := VAD.init_default (sample_rate c);
     is_running := false; is_paused := false;
     last_lang := None; calls := 0%nat; trace := [] |}.

(** [queue.Queue(maxsize=12)]. *)
Definition queue_maxsize : Z := 12.

(** [self._audio_q.put_nowait(x)] with [queue.Full] swallowed. *)
Definition put_nowait (x : audio) (q : list audio) : list audio :=
  if queue_maxsize <=? len q then q else q ++ [x].

(** [start()].  The processing thread it spawns begins with
    [self.vad.reset()]; that reset is part of this step. *)
Definition start : M unit :=
  r <- get ;;
  if is_running r then ret tt
  else
    modify (set_is_running true) ;;
    modify (set_is_paused false) ;;
    modify (set_stop_evt false) ;;
    (if negb (model_loaded r) && negb (loading r) then
       modify (set_loading true) ;;
       emit (OnStatus StLoading)
     else ret tt) ;;
    modify (fun r1 => set_vad (VAD.reset (vad r1)) r1).

(** [_load_model_bg], run by the thread [start] spawned; [ok] tells whether
    [whisper.load_model] returned. *)
Definition load_model_bg (ok : bool) : M unit :=
  emit (OnInfo InfoLoadingModel) ;;
  (if ok then
     modify (set_model_loaded true) ;;
     r <- get ;;
     (if negb (is_paused r) && is_running r then emit (OnStatus StRunning)
      else ret tt) ;;
     emit (OnInfo InfoModelReady)
   else emit (OnInfo InfoModelLoadFailed)) ;;
  modify (set_loading false).

(** [pause()]. *)
Definition pause : M unit :=
  r <- get ;;
  if negb (is_running r) then ret tt
  else
    modify (set_is_paused true) ;;
    emit (OnStatus StPaused) ;;
    emit (OnInfo InfoPaused).

(** [resume()]. *)
Definition resume : M unit :=
  r <- get ;;
  if negb (is_running r) then ret tt
  else
    modify (set_is_paused false) ;;
    (if model_loaded r then emit (OnStatus StRunning)
     else emit (OnStatus StLoading)) ;;
    emit (OnInfo InfoResumed).

(** [stop()]; the joins have no effect on the object. *)
Definition stop : M unit :=
  r <- get ;;
  if negb (is_running r) then ret tt
  else
    modify (set_is_running false) ;;
    modify (set_is_paused false) ;;
    modify (set_stop_evt true) ;;
    modify (set_audio_q []) ;;
    emit (OnStatus StStopped) ;;
    emit (OnInfo InfoStopped).

(** The callback [_cb] of [_mic_loop] on a block [indata] of the stream.
    [status] is [None] when no flag of the stream is set, and else the text
    of the flags.  The exception [apply_gain] raises leaves the callback. *)
Definition mic_callback (env : Externals) (indata : audio)
    (status : option string) : M unit :=
  r <- get ;;
  if stop_evt r then ret tt
  else
    (match status with
     | Some flags => emit (OnInfo (InfoAudio flags))
     | None => ret tt
     end) ;;
    if negb (is_running r) || is_paused r then ret tt
    else
      match Audio.apply_gain (pow10 env) (times env) indata
                             (gain_db (cfg r)) with
      | Raise e => raise e
      | Ok x => modify (set_audio_q (put_nowait x (audio_q r)))
      end.

(** A call of [_cb] by the stream.  An exception that leaves the callback
    goes to the audio library, where the stream ends; the threads of the
    recognizer do not see it. *)
Definition deliver (env : Externals) (indata : audio)
    (status : option string) : M unit :=
  fun r => (Ok tt, snd (mic_callback env indata status r)).

(** One turn of the [while] of [_process_loop], from the test of the loop
    condition to the [continue] or the end of the body, run as a whole: in a
    run of actions the other threads act between two turns.  Each flag is
    read once in a turn, as the code reads it; the part that follows the
    cut of an utterance is [handle_utterance], about which an action of
    another thread before it is stated apart.  When the loop
    condition is false the thread has ended and nothing happens; an empty
    queue is the [queue.Empty] of the timed [get]. *)
Definition process_iteration (env : Externals) : M unit :=
  r <- get ;;
  if negb (is_running r && negb (stop_evt r)) then ret tt
  else
    match audio_q r with
    | [] => ret tt
    | x :: q =>
        modify (set_audio_q q) ;;
        if is_paused r then
          modify (set_vad (VAD.reset (vad r)))
        else
          let '(v, out) := VAD.feed (mean_abs env) (vad r) x in
          modify (set_vad v) ;;
          match out with
          | None => ret tt
          | Some utt =>
              if negb (model_loaded r) then emit (OnInfo InfoModelLoading)
              else
                let y := pad_or_trim env utt in
                let y := if noise_reduction (cfg r)
                         then Audio.denoise_wiener (wiener env) y
                         else y in
                handle_utterance env y
          end
    end.

(** What happens to the recognizer, one thing at a time: a public operation
    is called, the model-loading thread runs, the stream delivers a block,
    or the processing thread makes one turn of its loop. *)
Inductive action :=
| Start
| Pause
| Resume
| Stop
| LoadModel (ok : bool)
| MicBlock (indata : audio) (flags : option string)
| ProcessTurn.

Definition step (env : Externals) (a : action) : M unit :=
  match a with
  | Start => start
  | Pause => pause
  | Resume => resume
  | Stop => stop
  | LoadModel ok =>
      r <- get ;;
      if loading r then load_model_bg ok else ret tt
  | MicBlock indata flags => deliver env indata flags
  | ProcessTurn => process_iteration env
  end.

Fixpoint run (env : Externals) (acts : list action) : M unit :=
  match acts with
  | [] => ret tt
  | a :: acts' => step env a ;; run env acts'
  end.

(** The audio the model was asked to transcribe, oldest first. *)
Fixpoint transcribed (t : list event) : list audio :=
  match t with
  | [] => []
  | Transcribe y _ :: t' => y :: transcribed t'
  | _ :: t' => transcribed t'
  end.

(** The calls of the model in a trace. *)
Fixpoint model_calls (t : list event) : list event :=
  match t with
  | [] => []
  | Detect y :: t' => Detect y :: model_calls t'
  | Transcribe y l :: t' => Transcribe y l :: model_calls t'
  | _ :: t' => model_calls t'
  end.

(** *** Notions of the specification *)

(** A Sticky Language is set, and it is [l]. *)
Definition sticky_is (r : Recognizer) (l : string) : Prop :=
  last_lang r = Some l /\ l <> EmptyString.

(** No Sticky Language is set. *)
Definition no_sticky (r : Recognizer) : Prop :=
  last_lang r = None \/ last_lang r = Some EmptyString.

(** The language-detection call is a function of the audio alone. *)
Definition deterministic_detection (env : Externals) : Prop :=
  forall (n m : nat) (y : audio),
    detect_language env n y = detect_language env m y.

(** The transcription call is a function of the audio and the language. *)
Definition deterministic_transcription (env : Externals) : Prop :=
  forall (n m : nat) (y : audio) (lang : string),
    transcribe env n y lang = transcribe env m y lang.

(** The standard-mode decision with the confirmation pass left out: one
    hysteresis-aware detection pass, whose pick becomes the Sticky Language
    and the language of the transcription. *)
Definition standard_one_pass (env : Externals) (y : audio)
    : M (string * string) :=
  lang <- best_lang env y [] false ;;
  modify (set_last_lang (Some lang)) ;;
  text <- asr env y lang ;;
  ret (lang, text).

End Recognizer.

(** ** Concrete inputs *)

Module Samples.

(** [EnergyVAD(sr=1000, energy_thresh=0.015, min_utt_ms=400, max_utt_ms=6000,
    silence_ms=800)] with frames of 200 ms: 200 samples a frame, a minimum of
    2 frames, a silence of 4 frames and a maximum of 30 frames. *)
Definition seg_frames : VAD.EnergyVAD := VAD.init 1000 0.015 400 6000 800.

(** A frame of 200 samples, all zero: energy 0. *)
Definition quiet200 : VAD.frame := repeat (Float.Fin 0) 200.

(** A frame of 200 samples of amplitude 0.02: energy 0.02 when nothing is
    rounded. *)
Definition speech200 : VAD.frame := repeat (Float.Fin 0.02) 200.

(** The energy sequence [0,0,0.02,0.02,0.02,0,0,0,0,0]. *)
Definition example_frames : list VAD.frame :=
  [quiet200; quiet200; speech200; speech200; speech200;
   quiet200; quiet200; quiet200; quiet200; quiet200].

(** [EnergyVAD(sr=16000, max_utt_ms=900)]: a maximum of 14400 samples, four
    and a half blocks of 3200 samples. *)
Definition seg_short_max : VAD.EnergyVAD := VAD.init 16000 0.015 300 900 450.

(** Blocks of 200 ms at 16 kHz: full-scale speech and digital silence. *)
Definition loud3200 : VAD.frame := repeat (Float.Fin 1) 3200.
Definition quiet3200 : VAD.frame := repeat (Float.Fin 0) 3200.

(** [EnergyVAD(sr=16000)], the segmenter of the recognizer. *)
Definition seg_default : VAD.EnergyVAD := VAD.init_default 16000.

(** Three samples of amplitude 1/128, well below the threshold. *)
Definition faint3 : VAD.frame :=
  [Float.Fin (1 # 128); Float.Fin (-1 # 128); Float.Fin (1 # 128)].

(** Three float32 samples next to the threshold 0.015, which lies between
    the float32 values [16106127 / 2^30] and [16106128 / 2^30]: the first
    sample is two steps below the former, the second two steps above it and
    the third one step above it.  Their mean is a third of a step above the
    former, below 0.015; their float32 sum is rounded up, and its third is
    the latter. *)
Definition near_threshold : VAD.frame :=
  [Float.Fin (16106125 # 1073741824);
   Float.Fin (16106129 # 1073741824);
   Float.Fin (16106128 # 1073741824)].

(** Three quiet blocks, the three samples, three quiet blocks. *)
Definition near_threshold_frames : list VAD.frame :=
  [quiet3200; quiet3200; quiet3200; near_threshold;
   quiet3200; quiet3200; quiet3200].

(** A stand-in for [10.0 ** y]: exact where [y] is an integer, and raising
    from 309 on, where the power is beyond the greatest float64. *)
Definition pow10_floor (y : Q) : option Q :=
  if 309 <=? Qfloor y then None else Some (Qpower 10 (Qfloor y)).

(** A mock of the collaborators: a mean and a product without rounding, no
    padding, a filter that changes nothing, a detector that always answers
    [p], and a model that hears the single letter [a] in Russian audio and
    [hello] in any other language. *)
Definition mock_with (p : Recognizer.probs) : Recognizer.Externals :=
  {| Recognizer.mean_abs := Exact.mean_abs;
     Recognizer.pow10 := pow10_floor;
     Recognizer.times := Exact.times;
     Recognizer.wiener := fun y => Some y;
     Recognizer.pad_or_trim := fun y => y;
     Recognizer.detect_language := fun _ _ => p;
     Recognizer.transcribe := fun _ _ lang =>
       if String.eqb lang "ru" then Some "a"%string
       else Some " hello "%string |}.

(** The detector is sure of English. *)
Definition mock : Recognizer.Externals :=
  mock_with [("ru", 0.05); ("en", 0.9); ("zh", 0.05)]%string%Q.

(** The detector hesitates: English first, but below 0.50. *)
Definition mock_unsure : Recognizer.Externals :=
  mock_with [("ru", 0.3); ("en", 0.45); ("zh", 0.25)]%string%Q.

(** The detector hears no supported language. *)
Definition mock_foreign : Recognizer.Externals :=
  mock_with [("de", 0.7); ("fr", 0.3)]%string%Q.

(** The settings: 16 kHz, no gain, no noise reduction. *)
Definition config (mode chosen : string) : Recognizer.Config :=
  {| Recognizer.sample_rate := 16000;
     Recognizer.gain_db := 0;
     Recognizer.noise_reduction := false;
     Recognizer.lang_mode := mode;
     Recognizer.chosen_lang := chosen |}.

(** A recognizer that was started and whose model is loaded. *)
Definition running (mode chosen : string) : Recognizer.Recognizer :=
  snd (Recognizer.run mock [Recognizer.Start; Recognizer.LoadModel true]
         (Recognizer.init (config mode chosen))).

(** A block of 200 ms of full-scale speech of negative sign. *)
Definition loud3200_neg : VAD.frame := repeat (Float.Fin (-1)) 3200.

(** Two loud blocks are captured and processed. *)
Definition before_pause : list Recognizer.action :=
  [Recognizer.MicBlock loud3200 None; Recognizer.ProcessTurn;
   Recognizer.MicBlock loud3200 None; Recognizer.ProcessTurn].

(** [pause()] is called; the processing thread turns on the empty queue; a
    block the stream delivers meanwhile is dropped by the callback, and the
    processing thread turns again. *)
Definition paused : list Recognizer.action :=
  [Recognizer.Pause;
   Recognizer.ProcessTurn;
   Recognizer.MicBlock loud3200 None; Recognizer.ProcessTurn].

(** [resume()] is called; a loud block of the other sign and three quiet
    blocks are captured and processed. *)
Definition after_resume : list Recognizer.action :=
  [Recognizer.Resume;
   Recognizer.MicBlock loud3200_neg None; Recognizer.ProcessTurn;
   Recognizer.MicBlock quiet3200 None; Recognizer.ProcessTurn;
   Recognizer.MicBlock quiet3200 None; Recognizer.ProcessTurn;
   Recognizer.MicBlock quiet3200 None; Recognizer.ProcessTurn].

End Samples.

(** ** What a run of the recognizer shows *)

Module Observations.

Import Recognizer.

(** The lines sent to [on_text], oldest first. *)
Fixpoint texts (t : list event) : list string :=
  match t with
  | [] => []
  | OnText line :: t' => line :: texts t'
  | _ :: t' => texts t'
  end.

(** The lines written to the log file, oldest first. *)
Fixpoint logged (t : list event) : list string :=
  match t with
  | [] => []
  | LogWrite line :: t' => line :: logged t'
  | _ :: t' => logged t'
  end.

(** The arguments of [on_status], oldest first. *)
Fixpoint statuses (t : list event) : list status :=
  match t with
  | [] => []
  | OnStatus s :: t' => s :: statuses t'
  | _ :: t' => statuses t'
  end.

(** The languages the model was asked to transcribe in, oldest first. *)
Fixpoint transcribed_langs (t : list event) : list string :=
  match t with
  | [] => []
  | Transcribe _ lang :: t' => lang :: transcribed_langs t'
  | _ :: t' => transcribed_langs t'
  end.

(** [r'] differs from [r] at most in the Sticky Language, the count of calls
    and the trace. *)
Definition same_controls (r r' : Recognizer) : Prop :=
  cfg r' = cfg r /\ sr r' = sr r /\ frame r' = frame r /\
  model_loaded r' = model_loaded r /\ loading r' = loading r /\
  audio_q r' = audio_q r /\ stop_evt r' = stop_evt r /\ vad r' = vad r /\
  is_running r' = is_running r /\ is_paused r' = is_paused r.

(** The Sticky Language, if there is one, is a supported language. *)
Definition sticky_ok (r : Recognizer) : Prop :=
  match last_lang r with
  | Some l => In l allowed
  | None => True
  end.

(** The action is a block from the stream or a turn of the processing
    loop. *)
Definition capture_or_turn (a : action) : Prop :=
  match a with
  | MicBlock _ _ | ProcessTurn => True
  | _ => False
  end.

(** The notices the capture callback sends for the status flags of the
    blocks among the actions, oldest first. *)
Fixpoint audio_notices (acts : list action) : list event :=
  match acts with
  | [] => []
  | MicBlock _ (Some flags) :: acts' =>
      OnInfo (InfoAudio flags) :: audio_notices acts'
  | _ :: acts' => audio_notices acts'
  end.

(** The event is a status or a notice: neither a call of the model, nor a
    published line, nor a log write. *)
Definition is_notice (e : event) : Prop :=
  match e with
  | OnStatus _ => True
  | OnInfo (InfoLine _) => False
  | OnInfo _ => True
  | _ => False
  end.

(** The line is a language tag, [[RU]], [[EN]] or [[ZH]], a space, and a
    text that is not empty and carries no surrounding white space. *)
Definition tagged_line (line : string) : Prop :=
  exists tag text,
    In tag ["[RU] "; "[EN] "; "[ZH] "]%string /\
    line = (tag ++ text)%string /\
    text <> EmptyString /\
    PyStr.strip text = text.

(** [MainWindow.on_toggle] of [ui/gui.py]: a message box when nothing runs,
    else [resume()] when paused and [pause()] when not. *)
Definition on_toggle : M unit :=
  bind get (fun r =>
    if negb (is_running r) then ret tt
    else if is_paused r then resume else pause).

(** What the decision on one utterance leaves behind.  From [r] to [r'] the
    controls are untouched and the trace grew by [evs], which are calls of
    the model, one of them at least a transcription; the text returned is
    stripped; and if the Sticky Language of [r] was a supported language,
    the language chosen, the new Sticky Language and every language the
    model was asked to transcribe in are supported languages. *)
Definition decided (r : Recognizer) (lang text : string)
    (evs : list event) (r' : Recognizer) : Prop :=
  same_controls r r' /\
  trace r' = trace r ++ evs /\
  calls r' = (calls r + List.length evs)%nat /\
  model_calls evs = evs /\
  transcribed evs <> [] /\
  PyStr.strip text = text /\
  (sticky_ok r ->
   In lang allowed /\ sticky_ok r' /\
   Forall (fun l => In l allowed) (transcribed_langs evs)).

End Observations.

(** ** core/recognizer.py: the language test of the settings dialog *)

Module Diagnostics.

Import Recognizer.

(** [detect_language_from_audio(audio, sr)].  [resample a rate] stands for
    [_resample_if_needed], whose index arithmetic in float32 is not
    modelled, and [tiny_detect] for [detect_language] of the throw-away
    [tiny] model loaded when no model is resident.  The key [max] returns
    is in [filt], so the subscript [filt[lang]] cannot fail. *)
Definition detect_language_from_audio (env : Externals)
    (resample : audio -> Z -> audio) (tiny_detect : audio -> probs)
    (a : audio) (rate : Z) : M (string * Q) :=
  bind get (fun r =>
  let x := resample a rate in
  let x := pad_or_trim env x in
  let x := if noise_reduction (cfg r)
           then Audio.denoise_wiener (wiener env) x else x in
  bind (if model_loaded r then call_detect env x else ret (tiny_detect x))
    (fun p =>
  let filt := filter (fun kv => PyStr.mem (fst kv) allowed) p in
  match filt with
  | [] => ret ("en"%string, 0%Q)
  | _ => bind (max_key filt) (fun lang => ret (lang, dict_get filt lang 0))
  end)).

End Diagnostics.

(** ** core/audio.py: the list of input devices *)

Module Devices.

(** An entry of [sd.query_devices()], a dictionary read with [get]: a
    missing key is [None]. *)
Record device := mkDevice {
  d_name : option string;
  d_hostapi : option Z;
  d_default_samplerate : option Q;
  d_max_input_channels : option Z
}.

(** An entry of the list [list_input_devices] returns. *)
Record entry := mkEntry {
  index : nat;
  name : string;
  hostapi : option Z;
  sr : option Q;
  channels : option Z
}.

(** [str(idx)]. *)
Definition decimal (n : nat) : string :=
  NilZero.string_of_uint (Nat.to_uint n).

(** [dev.get("max_input_channels", 0) > 0]. *)
Definition has_input (d : device) : bool :=
  match d_max_input_channels d with
  | Some c => 0 <? c
  | None => false
  end.

(** The dictionary appended for the device [d] at position [idx]. *)
Definition make_entry (idx : nat) (d : device) : entry :=
  {| index := idx;
     name := match d_name d with
             | Some n => n
             | None => ("Device " ++ decimal idx)%string
             end;
     hostapi := d_hostapi d;
     sr := d_default_samplerate d;
     channels := d_max_input_channels d |}.

(** The loop over [enumerate(sd.query_devices())], from position [idx]. *)
Fixpoint scan (idx : nat) (devs : list device) : list entry :=
  match devs with
  | [] => []
  | d :: devs' =>
      if has_input d then make_entry idx d :: scan (S idx) devs'
      else scan (S idx) devs'
  end.

(** [list_input_devices()]; [query] is what [sd.query_devices()] returns,
    [None] when it raises. *)
Definition list_input_devices (query : option (list device)) : list entry :=
  match query with
  | Some devs => scan 0 devs
  | None => []
  end.

(** [SettingsDialog.__init__] of [ui/gui.py]:
    [next((k for k, dv in enumerate(self.devices) if dv["index"] == cur_idx), -1)]. *)
Fixpoint position_from (k : Z) (devices : list entry) (cur_idx : nat) : Z :=
  match devices with
  | [] => -1
  | dv :: devices' =>
      if Nat.eqb (index dv) cur_idx then k
      else position_from (k + 1) devices' cur_idx
  end.

Definition position_of (devices : list entry) (cur_idx : nat) : Z :=
  position_from 0 devices cur_idx.

(** [SettingsDialog._apply]: the device index for the row [idx] of the
    combo box, [None] when [idx] is not a row. *)
Definition device_of_row (devices : list entry) (idx : Z) : option nat :=
  if (0 <=? idx) && (idx <? len devices)
  then option_map index (nth_error devices (Z.to_nat idx))
  else None.

End Devices.

(** ** core/config.py *)

Module ConfigManager.

(** A value [json.loads] returns or a setter stores. *)
#[local] Unset Elimination Schemes.
Inductive value :=
| VNone
| VBool (b : bool)
| VInt (z : Z)
| VFloat (q : Q)
| VStr (s : string)
| VList (l : list value)
| VDict (d : list (string * value)).
#[local] Set Elimination Schemes.

(** A dictionary with string keys, in insertion order. *)
Definition dict := list (string * value).

Inductive error := AttributeError | TypeError | ValueError.

Inductive outcome (A : Type) :=
| Done (a : A)
| Failed (e : error).

Arguments Done {A} a.
Arguments Failed {A} e.

(** [d.get(k)]: [None] is a missing key. *)
Fixpoint lookup (k : string) (d : dict) : option value :=
  match d with
  | [] => None
  | (k', v) :: d' => if String.eqb k' k then Some v else lookup k d'
  end.

(** [d[k] = v]: the value is replaced where the key stands, a new key goes
    to the end. *)
Fixpoint setitem (k : string) (v : value) (d : dict) : dict :=
  match d with
  | [] => [(k, v)]
  | (k', v') :: d' =>
      if String.eqb k' k then (k', v) :: d' else (k', v') :: setitem k v d'
  end.

(** [d.setdefault(k, v)]. *)
Definition setdefault (k : string) (v : value) (d : dict) : dict :=
  match lookup k d with
  | Some _ => d
  | None => setitem k v d
  end.

(** [ConfigManager.DEFAULTS]. *)
Definition DEFAULTS : dict :=
  [("device_index", VNone);
   ("gain_db", VFloat 0);
   ("noise_reduction", VBool true);
   ("model_name", VStr "small");
   ("sample_rate", VInt 16000);
   ("lang_mode", VStr "standard");
   ("chosen_lang", VStr "ru");
   ("ui_language", VStr "ru")]%string.

(** [for k, v in self.DEFAULTS.items(): self.data.setdefault(k, v)], over
    the items [defaults]. *)
Fixpoint fill (defaults : dict) (data : dict) : dict :=
  match defaults with
  | [] => data
  | (k, v) :: defaults' => fill defaults' (setdefault k v data)
  end.

(** The configuration file: absent, unreadable (reading or [json.loads]
    raises), or holding the text of a JSON value. *)
Inductive file :=
| Missing
| Unreadable
| Holds (v : value).

(** [load()] up to its call of [save()]: the data read, completed with the
    defaults.  A JSON value that is not an object has no [setdefault]. *)
Definition load (f : file) : outcome dict :=
  match f with
  | Missing | Unreadable => Done (fill DEFAULTS [])
  | Holds (VDict d) => Done (fill DEFAULTS d)
  | Holds _ => Failed AttributeError
  end.

(** [save()]: the file holds the data when the write succeeds and is left
    as it is when it raises.  [json.loads(json.dumps(data))] is taken to be
    [data]. *)
Definition save (writable : bool) (data : dict) (f : file) : file :=
  if writable then Holds (VDict data) else f.

(** [ConfigManager(path)]: the data and the file afterwards. *)
Definition init (writable : bool) (f : file) : outcome (dict * file) :=
  match load f with
  | Done data => Done (data, save writable data f)
  | Failed e => Failed e
  end.

(** [float(v)]; [parse] is [float] on a string, [None] when it raises.  A
    float is a rational here, so no integer is too large. *)
Definition to_float (parse : string -> option Q) (v : value) : outcome Q :=
  match v with
  | VFloat q => Done q
  | VInt z => Done (inject_Z z)
  | VBool b => Done (if b then 1 else 0)%Q
  | VStr s => match parse s with
              | Some q => Done q
              | None => Failed ValueError
              end
  | VNone | VList _ | VDict _ => Failed TypeError
  end.

(** [bool(v)]. *)
Definition to_bool (v : value) : bool :=
  match v with
  | VNone => false
  | VBool b => b
  | VInt z => negb (z =? 0)
  | VFloat q => negb (Qeq_bool q 0)
  | VStr s => PyStr.nonempty s
  | VList l => match l with [] => false | _ => true end
  | VDict d => match d with [] => false | _ => true end
  end.

(** [str(v)]; [repr] is [str] on a value that is not a string. *)
Definition to_str (repr : value -> string) (v : value) : string :=
  match v with
  | VStr s => s
  | _ => repr v
  end.

(** The properties read by the pipeline. *)
Definition device_index (data : dict) : value :=
  match lookup "device_index" data with
  | Some v => v
  | None => VNone
  end.

Definition gain_db (parse : string -> option Q) (data : dict) : outcome Q :=
  to_float parse (match lookup "gain_db" data with
                  | Some v => v
                  | None => VFloat 0
                  end).

Definition noise_reduction (data : dict) : bool :=
  to_bool (match lookup "noise_reduction" data with
           | Some v => v
           | None => VBool true
           end).

Definition lang_mode (repr : value -> string) (data : dict) : string :=
  to_str repr (match lookup "lang_mode" data with
               | Some v => v
               | None => VStr "standard"
               end).

Definition chosen_lang (repr : value -> string) (data : dict) : string :=
  to_str repr (match lookup "chosen_lang" data with
               | Some v => v
               | None => VStr "ru"
               end).

(** The setters, up to their call of [save()]: [gain_db] stores
    [float(v)] of a float, [noise_reduction] stores [bool(v)] of a boolean,
    the others store their argument. *)
Definition set_gain_db (q : Q) (data : dict) : dict :=
  setitem "gain_db" (VFloat q) data.

Definition set_noise_reduction (b : bool) (data : dict) : dict :=
  setitem "noise_reduction" (VBool b) data.

Definition set_lang_mode (s : string) (data : dict) : dict :=
  setitem "lang_mode" (VStr s) data.

Definition set_chosen_lang (s : string) (data : dict) : dict :=
  setitem "chosen_lang" (VStr s) data.

Definition set_device_index (v : value) (data : dict) : dict :=
  setitem "device_index" v data.

(** The keys of a dictionary, in order. *)
Definition keys (d : dict) : list string := map fst d.

End ConfigManager.

(** ** ui/i18n.py

    The texts of the table are kept as the bytes of their UTF-8 encoding;
    only keys and language codes are compared. *)

Module I18N.

Definition table := list (string * list (string * string)).

(** [I18N._STRINGS]. *)
Definition STRINGS : table :=
 [
  ("app.title",
     [("ru", "🧠 СаньЮ（三友）AI");
      ("en", "🧠 Sanyou AI");
      ("zh", "🧠 三友 AI")]);
  ("status.ready",
     [("ru", "готово");
      ("en", "ready");
      ("zh", "就绪")]);
  ("status.loading",
     [("ru", "загрузка модели…");
      ("en", "loading model…");
      ("zh", "正在加载模型…")]);
  ("status.listening",
     [("ru", "слушаю…");
      ("en", "listening…");
      ("zh", "正在监听…")]);
  ("status.paused",
     [("ru", "пауза");
      ("en", "paused");
      ("zh", "已暂停")]);
  ("status.stopped",
     [("ru", "остановлено");
      ("en", "stopped");
      ("zh", "已停止")]);
  ("main.header",
     [("ru", "🧠 СаньЮ（三友）AI");
      ("en", "🧠 Sanyou AI");
      ("zh", "🧠 三友 AI")]);
  ("main.mode",
     [("ru", "Режим:");
      ("en", "Mode:");
      ("zh", "模式：")]);
  ("main.lang",
     [("ru", " | Язык:");
      ("en", " | Language:");
      ("zh", " | 语言：")]);
  ("main.btn.start",
     [("ru", "▶ Запустить");
      ("en", "▶ Start");
      ("zh", "▶ 启动")]);
  ("main.btn.stop_stream",
     [("ru", "⏸ Остановить поток");
      ("en", "⏸ Stop stream");
      ("zh", "⏸ 停止流")]);
  ("main.btn.resume_stream",
     [("ru", "▶ Возобновить поток");
      ("en", "▶ Resume stream");
      ("zh", "▶ 恢复流")]);
  ("main.btn.open_log",
     [("ru", "📂 Открыть лог");
      ("en", "📂 Open log");
      ("zh", "📂 打开日志")]);
  ("main.btn.settings",
     [("ru", "⚙ Настройки");
      ("en", "⚙ Settings");
      ("zh", "⚙ 设置")]);
  ("main.btn.exit",
     [("ru", "🚪 Выйти");
      ("en", "🚪 Exit");
      ("zh", "🚪 退出")]);
  ("main.msg.not_started",
     [("ru", "Поток ещё не запущен.");
      ("en", "Stream is not started yet.");
      ("zh", "音频流尚未启动。")]);
  ("main.msg.openlog.error",
     [("ru", "Не удалось открыть лог-файл:
{}");
      ("en", "Failed to open log file:
{}");
      ("zh", "无法打开日志文件：
{}")]);
  ("main.cfg.applied",
     [("ru", "[cfg] Применены новые настройки: {}");
      ("en", "[cfg] Settings applied: {}");
      ("zh", "[cfg] 已应用新设置：{}")]);
  ("main.cfg.restart",
     [("ru", "↻ Перезапуск потока для применения настроек…");
      ("en", "↻ Restarting stream to apply settings…");
      ("zh", "↻ 正在重启音频流以应用设置…")]);
  ("mode.standard",
     [("ru", "Стандартный (все)");
      ("en", "Standard (all)");
      ("zh", "标准（全部）")]);
  ("mode.priority",
     [("ru", "Приоритетный");
      ("en", "Priority");
      ("zh", "优先")]);
  ("mode.exclusive",
     [("ru", "Исключительный");
      ("en", "Exclusive");
      ("zh", "单一")]);
  ("tip.mode",
     [("ru", "Режим определения языка. В стандартном — все три языка. В приоритетном — сначала выбранный, затем остальные. В исключительном — только выбранный.");
      ("en", "Language detection mode. Standard: all three languages. Priority: try chosen first, then others. Exclusive: only the chosen one.");
      ("zh", "语言识别模式。标准：三种语言均启用。优先：先尝试所选语言，再尝试其他。单一：仅使用所选语言。")]);
  ("tip.lang",
     [("ru", "Выбранный язык (для приоритетного/исключительного режимов)");
      ("en", "Selected language (for priority/exclusive modes)");
      ("zh", "所选语言（用于优先/单一模式）")]);
  ("settings.title",
     [("ru", "⚙ Настройки");
      ("en", "⚙ Settings");
      ("zh", "⚙ 设置")]);
  ("settings.group.mic",
     [("ru", "Микрофон и вход");
      ("en", "Microphone & Input");
      ("zh", "麦克风与输入")]);
  ("settings.device",
     [("ru", "Устройство ввода:");
      ("en", "Input device:");
      ("zh", "输入设备：")]);
  ("settings.gain",
     [("ru", "Усиление (дБ):");
      ("en", "Gain (dB):");
      ("zh", "增益（dB）：")]);
  ("settings.nr",
     [("ru", "Включить шумоподавление (Wiener)");
      ("en", "Enable noise reduction (Wiener)");
      ("zh", "启用降噪（Wiener）")]);
  ("settings.group.model",
     [("ru", "Модель распознавания");
      ("en", "Recognition model");
      ("zh", "识别模型")]);
  ("settings.model.size",
     [("ru", "Размер модели:");
      ("en", "Model size:");
      ("zh", "模型大小：")]);
  ("settings.model.tip",
     [("ru", "Выбор размера модели Whisper:
• small — быстрее, ~1–2 ГБ ОЗУ
• medium — выше качество, ~3–4 ГБ ОЗУ
• large — максимум качества, может требовать 8–12+ ГБ ОЗУ");
      ("en", "Choose Whisper model size:
• small — faster, ~1–2 GB RAM
• medium — better quality, ~3–4 GB RAM
• large — best quality, may need 8–12+ GB RAM");
      ("zh", "选择Whisper模型大小：
• small — 更快，约1–2 GB内存
• medium — 更高质量，约3–4 GB内存
• large — 最高质量，可能需要8–12+ GB内存")]);
  ("settings.group.lang",
     [("ru", "Режим языков");
      ("en", "Language mode");
      ("zh", "语言模式")]);
  ("settings.mode",
     [("ru", "Режим:");
      ("en", "Mode:");
      ("zh", "模式：")]);
  ("settings.mode.standard",
     [("ru", "standard (все 3 языка)");
      ("en", "standard (all 3 languages)");
      ("zh", "standard（3种语言）")]);
  ("settings.mode.priority",
     [("ru", "priority (с приоритетом)");
      ("en", "priority (prefer chosen)");
      ("zh", "priority（优先所选）")]);
  ("settings.mode.exclusive",
     [("ru", "exclusive (один язык)");
      ("en", "exclusive (single language)");
      ("zh", "exclusive（仅一个）")]);
  ("settings.chosen_lang",
     [("ru", "Выбранный язык:");
      ("en", "Chosen language:");
      ("zh", "选择语言：")]);
  ("settings.group.ui",
     [("ru", "Интерфейс");
      ("en", "Interface");
      ("zh", "界面")]);
  ("settings.ui_lang",
     [("ru", "Язык интерфейса:");
      ("en", "UI language:");
      ("zh", "界面语言：")]);
  ("settings.group.test",
     [("ru", "Тест микрофона");
      ("en", "Microphone test");
      ("zh", "麦克风测试")]);
  ("settings.test.start",
     [("ru", "▶ Начать тест (2 сек)");
      ("en", "▶ Start test (2s)");
      ("zh", "▶ 开始测试（2秒）")]);
  ("settings.test.play",
     [("ru", "🔊 Прослушать запись");
      ("en", "🔊 Play sample");
      ("zh", "🔊 播放样本")]);
  ("settings.level",
     [("ru", "Уровень:");
      ("en", "Level:");
      ("zh", "电平：")]);
  ("settings.dbfs",
     [("ru", "0.0 dBFS");
      ("en", "0.0 dBFS");
      ("zh", "0.0 dBFS")]);
  ("settings.lang.detected",
     [("ru", "Язык: —");
      ("en", "Language: —");
      ("zh", "语言：—")]);
  ("settings.apply",
     [("ru", "💾 Сохранить и применить");
      ("en", "💾 Save & apply");
      ("zh", "💾 保存并应用")]);
  ("settings.cancel",
     [("ru", "Отмена");
      ("en", "Cancel");
      ("zh", "取消")]);
  ("settings.test.err",
     [("ru", "Не удалось запустить тест:
{}");
      ("en", "Failed to start test:
{}");
      ("zh", "无法开始测试：
{}")]);
  ("settings.play.err",
     [("ru", "Не удалось воспроизвести запись:
{}");
      ("en", "Failed to play sample:
{}");
      ("zh", "无法播放样本：
{}")]);
  ("settings.play.no",
     [("ru", "Нет записанного фрагмента. Сначала выполните тест.");
      ("en", "No recorded sample. Run the test first.");
      ("zh", "没有录到片段，请先进行测试。")])
 ]%string.

(** [m.get(k)]. *)
Fixpoint get {A : Type} (k : string) (m : list (string * A)) : option A :=
  match m with
  | [] => None
  | (k', v) :: m' => if String.eqb k' k then Some v else get k m'
  end.

(** [I18N.set_lang(lang)]: the new value of [I18N._lang]. *)
Definition set_lang (lang : string) : string :=
  if PyStr.mem lang ["ru"; "en"; "zh"]%string then lang else "ru"%string.

(** [I18N.t(key)] over a table [strings] when [I18N._lang] is [cur]:
    [m = strings.get(key, {})], then [m.get(cur, m.get("en", key))]. *)
Definition t_in (strings : table) (cur key : string) : string :=
  let m := match get key strings with
           | Some m => m
           | None => []
           end in
  match get cur m with
  | Some s => s
  | None => match get "en" m with
            | Some s => s
            | None => key
            end
  end.

(** [I18N.t(key)], also [tr(key)]. *)
Definition t (cur key : string) : string := t_in STRINGS cur key.

End I18N.

(** ** More concrete inputs *)

Module MoreSamples.

(** Three devices: an output, a stereo microphone with no name, a mono
    microphone. *)
Definition three_devices : list Devices.device :=
  [Devices.mkDevice (Some "Speakers"%string) (Some 0) (Some 48000%Q) (Some 0);
   Devices.mkDevice None (Some 0) (Some 44100%Q) (Some 2);
   Devices.mkDevice (Some "USB mic"%string) (Some 1) (Some 16000%Q) (Some 1)].

(** A configuration file that holds a gain of 3 dB and nothing else. *)
Definition gain_only : ConfigManager.file :=
  ConfigManager.Holds
    (ConfigManager.VDict [("gain_db"%string, ConfigManager.VFloat 3)]).

(** A recognizer that runs and was paused. *)
Definition paused_recognizer : Recognizer.Recognizer :=
  snd (Recognizer.run Samples.mock [Recognizer.Pause]
         (Samples.running "standard" "ru")).

(** A recognizer in priority mode for [ru] whose Sticky Language is [ru]. *)
Definition sticky_ru : Recognizer.Recognizer :=
  Recognizer.set_last_lang (Some "ru"%string) (Samples.running "priority" "ru").

End MoreSamples.

(** * Properties *)

(** ** Lengths *)

Lemma len_app {A : Type} (l1 l2 : list A) : len (l1 ++ l2) = len l1 + len l2.
Proof. unfold len. rewrite length_app. lia. Qed.

Lemma len_nonneg {A : Type} (l : list A) : 0 <= len l.
Proof. unfold len. lia. Qed.

Lemma len_pos_iff {A : Type} (l : list A) : 0 < len l <-> l <> [].
Proof.
  unfold len. destruct l as [|a l]; simpl; split; intro H.
  - lia.
  - congruence.
  - discriminate.
  - lia.
Qed.

(** ** The segmenter *)

Section SegmenterClaims.

Import Float VAD.

Variable mean_abs : frame -> float.

Local Abbreviation energy := (VAD.energy mean_abs).
Local Abbreviation voice := (VAD.voice mean_abs).
Local Abbreviation absorb := (VAD.absorb mean_abs).
Local Abbreviation feed := (VAD.feed mean_abs).
Local Abbreviation feed_all := (VAD.feed_all mean_abs).
Local Abbreviation energy_is := (VAD.energy_is mean_abs).
Local Abbreviation voiced := (VAD.voiced mean_abs).
Local Abbreviation below_threshold := (VAD.below_threshold mean_abs).

Lemma voiced_voice v f : voiced v f -> voice v f = true.
Proof.
  intros (e & He & Hle). unfold VAD.voice. rewrite He.
  now apply Qle_bool_iff.
Qed.

Lemma below_threshold_voice v f : below_threshold v f -> voice v f = false.
Proof.
  intros (e & He & Hlt). unfold VAD.voice. rewrite He. cbn [ge].
  destruct (Qle_bool (th v) e) eqn:E; [|reflexivity].
  apply Qle_bool_iff in E. exfalso. now apply (Qlt_not_le _ _ Hlt).
Qed.

Lemma energy_nonempty f e : energy f = Fin e -> 0 < len f.
Proof.
  destruct f as [|s f]; [discriminate|]. intros _.
  apply len_pos_iff. discriminate.
Qed.

Lemma feed_same_config v f : same_config v (fst (feed v f)).
Proof.
  unfold VAD.feed.
  destruct (in_speech (absorb v f) && _);
    [|destruct (in_speech (absorb v f) && _);
      [destruct (min_utt (absorb v f) <=? _)|]];
    repeat split.
Qed.

Lemma feed_all_app v fs1 fs2 :
  feed_all v (fs1 ++ fs2) =
  (fst (feed_all (fst (feed_all v fs1)) fs2),
   snd (feed_all v fs1) ++ snd (feed_all (fst (feed_all v fs1)) fs2)).
Proof.
  revert v. induction fs1 as [|f fs1 IH]; intro v; simpl.
  - now destruct (feed_all v fs2).
  - destruct (feed v f) as [v1 out]. rewrite IH.
    destruct (feed_all v1 fs1) as [v2 outs]. reflexivity.
Qed.

(** *** The four ways a call of [feed] ends *)

Lemma feed_idle v f :
  in_speech v = false -> voice v f = false -> feed v f = (absorb v f, None).
Proof.
  intros Hs Hv. unfold VAD.feed, VAD.absorb. rewrite Hv, Hs. reflexivity.
Qed.

Lemma feed_continue v f :
  len (buf v ++ f) < max_utt v ->
  silence_run (absorb v f) < silence_need v ->
  feed v f = (absorb v f, None).
Proof.
  intros Hmax Hsil. unfold VAD.feed.
  replace (max_utt (absorb v f) <=? len (buf (absorb v f))) with false
    by (symmetry; apply Z.leb_gt; exact Hmax).
  replace (silence_need (absorb v f) <=? silence_run (absorb v f)) with false
    by (symmetry; apply Z.leb_gt; exact Hsil).
  now rewrite !andb_false_r.
Qed.

Lemma feed_force_cut v f :
  in_speech (absorb v f) = true ->
  max_utt v <= len (buf v ++ f) ->
  feed v f = (reset v, Some (buf v ++ f)).
Proof.
  intros Hs Hmax. unfold VAD.feed. rewrite Hs.
  replace (max_utt (absorb v f) <=? len (buf (absorb v f))) with true
    by (symmetry; apply Z.leb_le; exact Hmax).
  reflexivity.
Qed.

Lemma feed_silence_end v f :
  in_speech (absorb v f) = true ->
  len (buf v ++ f) < max_utt v ->
  silence_need v <= silence_run (absorb v f) ->
  min_utt v <= len (buf v ++ f) ->
  feed v f = (reset v, Some (buf v ++ f)).
Proof.
  intros Hs Hmax Hsil Hmin. unfold VAD.feed. rewrite Hs.
  replace (max_utt (absorb v f) <=? len (buf (absorb v f))) with false
    by (symmetry; apply Z.leb_gt; exact Hmax).
  replace (silence_need (absorb v f) <=? silence_run (absorb v f)) with true
    by (symmetry; apply Z.leb_le; exact Hsil).
  replace (min_utt (absorb v f) <=? len (buf (absorb v f))) with true
    by (symmetry; apply Z.leb_le; exact Hmin).
  reflexivity.
Qed.

(** What a returned utterance tells about the call that returned it. *)
Lemma feed_some v f u :
  snd (feed v f) = Some u ->
  u = buf v ++ f /\ in_speech (absorb v f) = true /\
  (max_utt v <= len u \/
   (silence_need v <= silence_run (absorb v f) /\ min_utt v <= len u)).
Proof.
  unfold VAD.feed.
  destruct (in_speech (absorb v f)) eqn:Hs; simpl.
  - destruct (max_utt v <=? len (buf v ++ f)) eqn:Hmax; simpl.
    + intros [= <-]. apply Z.leb_le in Hmax. auto.
    + destruct (silence_need v <=? _) eqn:Hsil; [|discriminate].
      destruct (min_utt v <=? len (buf v ++ f)) eqn:Hmin; [|discriminate].
      simpl. intros [= <-]. apply Z.leb_le in Hsil, Hmin. auto.
  - discriminate.
Qed.

Lemma feed_all_idle v fs :
  in_speech v = false ->
  Forall (below_threshold v) fs ->
  in_speech (fst (feed_all v fs)) = false /\
  Forall (fun out => out = None) (snd (feed_all v fs)).
Proof.
  revert v. induction fs as [|f fs IH]; intros v Hs Hall; simpl.
  - auto.
  - inversion Hall as [|? ? Hf Hfs]; subst.
    rewrite (feed_idle v f Hs (below_threshold_voice v f Hf)).
    assert (Hs1 : in_speech (absorb v f) = false).
    { unfold VAD.absorb. simpl.
      now rewrite (below_threshold_voice v f Hf). }
    destruct (IH (absorb v f) Hs1) as [IH1 IH2].
    { eapply Forall_impl; [|exact Hfs]. intros g (e & He & Hlt).
      exists e. split; [exact He|exact Hlt]. }
    destruct (feed_all (absorb v f) fs) as [v2 outs]. simpl in *.
    split; [exact IH1|]. constructor; [reflexivity|exact IH2].
Qed.

(** C8, as the code has it.  Started from the reset state and fed frames
    whose energy, the mean absolute amplitude as the code computes it in
    float32, is each strictly below the energy threshold, [feed] returns
    [None] on every call: no utterance is ever emitted. *)
Theorem silence_never_emits (v : EnergyVAD) (fs : list frame) :
  is_reset v ->
  Forall (below_threshold v) fs ->
  Forall (fun out => out = None) (snd (feed_all v fs)).
Proof.
  intros (_ & _ & Hs) Hall. now apply feed_all_idle.
Qed.

(** C6.  When the configured minimum and maximum utterance lengths are at
    least one sample, then from any state of the segmenter and for any
    sequence of [feed] calls every emitted utterance has a strictly positive
    number of samples, and its length has reached the minimum duration (the
    utterance a silence ended) or the maximum duration (the forced cut). *)
Theorem emitted_utterance_reached_min_or_max (v : EnergyVAD)
    (fs : list frame) :
  1 <= min_utt v -> 1 <= max_utt v ->
  Forall (fun u => 0 < len u /\ (min_utt v <= len u \/ max_utt v <= len u))
         (emitted (snd (feed_all v fs))).
Proof.
  intros Hmin Hmax. revert v Hmin Hmax.
  induction fs as [|f fs IH]; intros v Hmin Hmax; simpl.
  - constructor.
  - pose proof (feed_same_config v f) as Hc.
    pose proof (feed_some v f) as Hsome.
    destruct (feed v f) as [v1 out]. simpl in Hc, Hsome.
    destruct Hc as (_ & _ & Hc1 & Hc2 & _).
    specialize (IH v1). rewrite Hc1, Hc2 in IH.
    specialize (IH Hmin Hmax).
    destruct (feed_all v1 fs) as [v2 outs]. simpl in *.
    destruct out as [u|]; simpl; [|exact IH].
    constructor; [|exact IH].
    destruct (Hsome u eq_refl) as (_ & _ & [H|[_ H]]); lia.
Qed.

Lemma absorb_voiced v f :
  voiced v f ->
  in_speech (absorb v f) = true /\ silence_run (absorb v f) = 0.
Proof.
  intro H. unfold VAD.absorb. simpl. now rewrite (voiced_voice v f H).
Qed.

(** Voiced frames fed to a segmenter whose buffer is still short: the calls
    return [None] up to the first frame with which the buffer reaches the
    maximum, and that call returns the whole buffer. *)
Lemma force_cut_prefix fs : forall v,
  0 < silence_need v ->
  Forall (voiced v) fs ->
  len (buf v) < max_utt v ->
  max_utt v <= len (buf v) + len (List.concat fs) ->
  exists pre f post,
    fs = pre ++ f :: post /\
    feed_all v (pre ++ [f]) =
      (reset v,
       repeat None (List.length pre) ++ [Some (buf v ++ List.concat pre ++ f)]) /\
    len (buf v ++ List.concat pre) < max_utt v /\
    max_utt v <= len (buf v ++ List.concat pre ++ f).
Proof.
  induction fs as [|f fs IH]; intros v Hsil Hall Hshort Hlong.
  - simpl in Hlong. change (len (@nil float)) with 0 in Hlong. lia.
  - inversion Hall as [|? ? Hf Hfs]; subst.
    destruct (absorb_voiced v f Hf) as [Hsp Hrun].
    destruct (Z_lt_le_dec (len (buf v ++ f)) (max_utt v)) as [Hlt|Hge].
    + destruct (IH (absorb v f)) as (pre & g & post & Hfs' & Hrun' & Hlt' & Hge').
      * exact Hsil.
      * exact Hfs.
      * exact Hlt.
      * simpl in *. rewrite !len_app in *. lia.
      * assert (Hcont : feed v f = (absorb v f, None)).
        { apply feed_continue; [exact Hlt|]. rewrite Hrun. exact Hsil. }
        exists (f :: pre), g, post. split; [simpl; now rewrite Hfs'|].
        change (feed_all v ((f :: pre) ++ [g]))
          with (let '(v1, out) := feed v f in
                let '(v2, outs) := feed_all v1 (pre ++ [g]) in
                (v2, out :: outs)).
        rewrite Hcont, Hrun'.
        change (buf (absorb v f)) with (buf v ++ f) in *.
        simpl List.concat. simpl List.length. simpl repeat.
        rewrite <- !app_assoc in *. auto.
    + exists [], f, fs. simpl. rewrite app_nil_r.
      rewrite (feed_force_cut v f Hsp Hge). auto.
Qed.

Lemma len_concat_uniform (L : Z) (fs : list frame) :
  Forall (fun f => len f = L) fs -> len (List.concat fs) = len fs * L.
Proof.
  unfold frame. induction 1 as [|f fs Hf _ IH].
  - reflexivity.
  - change (List.concat (f :: fs)) with (f ++ List.concat fs).
    rewrite len_app, IH, Hf.
    replace (len (f :: fs)) with (len fs + 1).
    + ring.
    + unfold len. simpl List.length. lia.
Qed.

(** C2, as the code has it.  A segmenter in the reset state whose silence
    and maximum durations are at least one sample is fed frames whose
    energies, as the code computes them in float32, are all at or above the
    threshold and which together reach the maximum duration.  Then
    [feed] returns [None] up to the first frame [f] with which the buffer
    reaches the maximum, and on [f] it returns everything buffered, whole
    frames only: an utterance of at least the maximum length and less than
    the maximum plus the length of [f] (exactly the maximum when the frames
    have one length that divides it).  The state right after that call is
    the reset state, from which the remaining frames are fed. *)
Theorem continuous_speech_cut_at_frame_boundary (v : EnergyVAD)
    (fs : list frame) :
  is_reset v ->
  0 < silence_need v -> 0 < max_utt v ->
  Forall (voiced v) fs ->
  max_utt v <= len (List.concat fs) ->
  exists pre f post u,
    fs = pre ++ f :: post /\
    u = List.concat pre ++ f /\
    feed_all v (pre ++ [f]) =
      (reset v, repeat None (List.length pre) ++ [Some u]) /\
    snd (feed_all v fs) =
      repeat None (List.length pre) ++ Some u :: snd (feed_all (reset v) post) /\
    max_utt v <= len u < max_utt v + len f /\
    (forall L, Forall (fun g => len g = L) fs -> (L | max_utt v) ->
               len u = max_utt v).
Proof.
  intros Hr Hsil Hmax Hall Hlong.
  pose proof Hr as (Hbuf & _ & _).
  destruct (force_cut_prefix fs v Hsil Hall) as (pre & f & post & Hfs & Hrun & Hlt & Hge).
  { rewrite Hbuf. exact Hmax. }
  { rewrite Hbuf. exact Hlong. }
  rewrite Hbuf in Hrun, Hlt, Hge. simpl in Hrun, Hlt, Hge.
  exists pre, f, post, (List.concat pre ++ f).
  split; [exact Hfs|]. split; [reflexivity|]. split; [exact Hrun|].
  split.
  { rewrite Hfs.
    change (pre ++ f :: post) with (pre ++ [f] ++ post).
    rewrite app_assoc, feed_all_app, Hrun. simpl.
    now rewrite <- app_assoc. }
  split.
  { rewrite len_app in *. lia. }
  intros L HL [k Hk].
  rewrite Hfs in HL. apply Forall_app in HL. destruct HL as [Hpre Hrest].
  pose proof (Forall_inv Hrest) as Hf. simpl in Hf.
  pose proof (len_concat_uniform _ pre Hpre) as Hcp.
  rewrite len_app in *. rewrite Hcp, Hf, Hk in *.
  pose proof (len_nonneg pre) as Hp. pose proof (len_nonneg f) as Hn.
  rewrite Hf in Hn.
  unfold frame in *. set (n := len pre) in *.
  assert (HL : 0 < L) by nia.
  assert (Hk1 : n < k) by (apply (Z.mul_lt_mono_pos_r L); assumption).
  assert (Hk2 : k <= n + 1).
  { apply (Z.mul_le_mono_pos_r _ _ L); [assumption|]. lia. }
  assert (k = n + 1) as -> by lia.
  ring.
Qed.

Lemma voice_of_energy v f t q :
  (th v == t)%Q -> energy_is f q -> voice v f = Qle_bool t q.
Proof.
  intros Hth (e & He & Heq). unfold VAD.voice. rewrite He. cbn [ge].
  now rewrite Hth, Heq.
Qed.

Lemma energy_is_nonempty f q : energy_is f q -> 0 < len f.
Proof. intros (e & He & _). exact (energy_nonempty f e He). Qed.

Lemma feed_mk sr0 th0 mn mx sn b sl sp f :
  feed (mkVAD sr0 th0 mn mx sn b sl sp) f =
  let vc := voice (mkVAD sr0 th0 mn mx sn b sl sp) f in
  let run := if vc then 0 else sl + len f in
  let sp' := if vc then true else sp in
  if sp' && (mx <=? len (b ++ f)) then
    (mkVAD sr0 th0 mn mx sn [] 0 false, Some (b ++ f))
  else if sp' && (sn <=? run) then
    if mn <=? len (b ++ f)
    then (mkVAD sr0 th0 mn mx sn [] 0 false, Some (b ++ f))
    else (mkVAD sr0 th0 mn mx sn [] 0 false, None)
  else (mkVAD sr0 th0 mn mx sn (b ++ f) run sp', None).
Proof. reflexivity. Qed.

Ltac rewrite_voice :=
  match goal with
  | H : forall s, th s = _ -> voice s ?f = _ |- context [voice _ ?f] =>
      rewrite H by reflexivity
  end.

Ltac decide_leb :=
  match goal with
  | |- context [?a <=? ?b] =>
      destruct (Z.leb_spec a b); [try (exfalso; lia)|try (exfalso; lia)]
  end.

(** One call of [feed] on a segmenter written out field by field, the
    frame's voice flag and length being known. *)
Ltac vad_step :=
  rewrite feed_mk; rewrite_voice;
  cbv beta iota zeta delta [andb];
  rewrite ?app_nil_l, ?len_app;
  repeat match goal with
         | H : len ?f = _ |- context [len ?f] => rewrite H
         end;
  repeat (decide_leb; cbv beta iota zeta).


End SegmenterClaims.

(** *** Concrete frames

    The frames below are fed with the mean computed without rounding, which
    is NumPy's on the blocks of 3200 samples (the first lemma) and the mean
    of the specification's example, and with the float32 mean where rounding
    decides. *)

Section SegmenterInstances.

Import Float VAD.

Local Abbreviation voice := (VAD.voice Exact.mean_abs).
Local Abbreviation feed_all := (VAD.feed_all Exact.mean_abs).

(** On the blocks of full-scale speech, of digital silence and of faint
    sound float32 arithmetic rounds nothing: the float32 mean is the exact
    mean. *)
Lemma sample_blocks_mean_exact :
  map Float32.mean_abs
      [Samples.loud3200; Samples.quiet3200; Samples.loud3200_neg;
       Samples.faint3] =
  map Exact.mean_abs
      [Samples.loud3200; Samples.quiet3200; Samples.loud3200_neg;
       Samples.faint3].
Proof. vm_compute. reflexivity. Qed.

(** Two quiet blocks around three samples of amplitude 1/128, fed to the
    default segmenter. *)
Lemma silence_never_emits_witness :
  Forall (fun out => out = None)
    (snd (feed_all Samples.seg_default
            [Samples.quiet3200; Samples.faint3; Samples.quiet3200])).
Proof.
  apply (silence_never_emits Exact.mean_abs).
  - repeat split.
  - repeat constructor;
      (eexists; split; [vm_compute; reflexivity|vm_compute; reflexivity]).
Defined.

(** The mean absolute amplitude of each of the seven frames is strictly
    below the threshold 0.015, yet the energy the code computes for the
    fourth, in float32, is [16106128 / 2^30], above the threshold: the
    segmenter goes into speech and, on the seventh frame, emits the 19203
    samples it has buffered. *)
Lemma exact_mean_below_threshold_counterexample :
  Forall (VAD.below_threshold Exact.mean_abs Samples.seg_default)
         Samples.near_threshold_frames /\
  VAD.energy Float32.mean_abs Samples.near_threshold =
    Fin (1006633 # 67108864) /\
  VAD.voice Float32.mean_abs Samples.seg_default Samples.near_threshold
    = true /\
  map len (emitted (snd (VAD.feed_all Float32.mean_abs Samples.seg_default
                           Samples.near_threshold_frames))) = [19203].
Proof.
  split.
  - repeat constructor;
      (eexists; split; [vm_compute; reflexivity|vm_compute; reflexivity]).
  - vm_compute. repeat split.
Qed.

(** Five loud blocks and three quiet ones fed to the default segmenter. *)
Lemma emitted_utterance_reached_min_or_max_witness :
  Forall (fun u => 0 < len u /\
                   (min_utt Samples.seg_default <= len u \/
                    max_utt Samples.seg_default <= len u))
    (emitted (snd (feed_all Samples.seg_default
                     (repeat Samples.loud3200 5 ++ repeat Samples.quiet3200 3)))).
Proof.
  apply (emitted_utterance_reached_min_or_max Exact.mean_abs);
    vm_compute; discriminate.
Defined.

(** Six loud blocks of 3200 samples, 19200 samples in all, exceed the
    maximum of 14400 samples; the one utterance emitted has 16000 samples,
    not 14400. *)
Lemma continuous_speech_counterexample :
  forallb (voice Samples.seg_short_max) (repeat Samples.loud3200 6) = true /\
  max_utt Samples.seg_short_max = 14400 /\
  len (List.concat (repeat Samples.loud3200 6)) = 19200 /\
  map len (emitted (snd (feed_all Samples.seg_short_max
                           (repeat Samples.loud3200 6)))) = [16000].
Proof. vm_compute. repeat split. Qed.

(** The same six blocks: the cut falls on the end of the fifth. *)
Lemma continuous_speech_cut_at_frame_boundary_witness :
  exists pre f post u,
    repeat Samples.loud3200 6 = pre ++ f :: post /\
    u = List.concat pre ++ f /\
    feed_all Samples.seg_short_max (pre ++ [f]) =
      (reset Samples.seg_short_max,
       repeat None (List.length pre) ++ [Some u]) /\
    snd (feed_all Samples.seg_short_max (repeat Samples.loud3200 6)) =
      repeat None (List.length pre) ++
      Some u :: snd (feed_all (reset Samples.seg_short_max) post) /\
    max_utt Samples.seg_short_max <= len u
      < max_utt Samples.seg_short_max + len f /\
    (forall L, Forall (fun g => len g = L) (repeat Samples.loud3200 6) ->
               (L | max_utt Samples.seg_short_max) ->
               len u = max_utt Samples.seg_short_max).
Proof.
  apply (continuous_speech_cut_at_frame_boundary Exact.mean_abs).
  - repeat split.
  - reflexivity.
  - reflexivity.
  - repeat constructor;
      (eexists; split; [vm_compute; reflexivity|vm_compute; discriminate]).
  - vm_compute. discriminate.
Defined.



End SegmenterInstances.

(** ** The gain stage *)

Section GainClaims.

Import Float Audio.

Lemma clip_unit_in_unit_or_nan (s : float) : in_unit_or_nan (clip_unit s).
Proof.
  destruct s as [|negative|q]; [now left| |]; right; cbn.
  - destruct negative; split; discriminate.
  - split.
    + apply Q.min_glb; [apply Q.le_max_r|discriminate].
    + apply Q.le_min_r.
Qed.

Lemma clip_unit_in_unit (s : float) : s <> NaN -> in_unit (clip_unit s).
Proof.
  intro Hs. destruct (clip_unit_in_unit_or_nan s) as [H|H]; [|exact H].
  destruct s; [contradiction|discriminate|discriminate].
Qed.

Lemma clipped_block (times : float -> Q -> float) (g : Q) (x : list float) :
  Forall in_unit_or_nan (map (fun s => clip_unit (times s g)) x) /\
  ((forall s, In s x -> times s g <> NaN) ->
   Forall in_unit (map (fun s => clip_unit (times s g)) x)).
Proof.
  split.
  - apply Forall_forall. intros s Hs. apply in_map_iff in Hs.
    destruct Hs as (s0 & <- & _). apply clip_unit_in_unit_or_nan.
  - intro Hn. apply Forall_forall. intros s Hs. apply in_map_iff in Hs.
    destruct Hs as (s0 & <- & Hin). apply clip_unit_in_unit. now apply Hn.
Qed.

(** With a gain of 0 dB the block [[1.5]] comes back as it is, while
    multiplied by [10^0] and clipped it would be [[1]]: the sample returned
    is above 1.  With a gain of 7000 dB nothing is returned: the power
    [10.0 ** 350.0] overflows and OverflowError is raised. *)
Lemma apply_gain_counterexample :
  apply_gain Samples.pow10_floor Exact.times [Fin 1.5] 0 = Ok [Fin 1.5] /\
  Samples.pow10_floor (0 / 20) = Some 1%Q /\
  map (fun s => clip_unit (Exact.times s 1)) [Fin 1.5] = [Fin 1] /\
  Qle_bool 1.5 1 = false /\
  apply_gain Samples.pow10_floor Exact.times [Fin 0.5] 7000 =
    Raise OverflowError.
Proof. vm_compute. repeat split. Qed.

(** C9, as the code has it.  A gain of zero returns the block untouched.
    For any other gain the power [10.0 ** (gain_db / 20)] is computed: when
    it overflows, OverflowError is raised and nothing is returned; when it
    gives a factor [g], the block is returned with each sample multiplied by
    [g], as NumPy multiplies and rounds, and then clipped to [[-1, 1]], so
    that every sample of the result lies in [[-1, 1]] or is NaN, and lies in
    [[-1, 1]] when no product is NaN.  Whatever the gain, a block whose
    samples lie in [[-1, 1]] and give no NaN product comes back, when it
    does, with samples in [[-1, 1]]. *)
Theorem apply_gain_scales_and_clips (pow10 : Q -> option Q)
    (times : float -> Q -> float) (x : list float) (gain_db : Q) :
  ((gain_db == 0)%Q -> apply_gain pow10 times x gain_db = Ok x) /\
  (~ (gain_db == 0)%Q -> pow10 (gain_db / 20)%Q = None ->
     apply_gain pow10 times x gain_db = Raise OverflowError) /\
  (forall g, ~ (gain_db == 0)%Q -> pow10 (gain_db / 20)%Q = Some g ->
     apply_gain pow10 times x gain_db =
       Ok (map (fun s => clip_unit (times s g)) x) /\
     Forall in_unit_or_nan (map (fun s => clip_unit (times s g)) x) /\
     ((forall s, In s x -> times s g <> NaN) ->
      Forall in_unit (map (fun s => clip_unit (times s g)) x))) /\
  (forall y, apply_gain pow10 times x gain_db = Ok y ->
     Forall in_unit x ->
     (forall g s, In s x -> times s g <> NaN) ->
     Forall in_unit y).
Proof.
  unfold apply_gain.
  destruct (Qeq_bool gain_db 0) eqn:E.
  - apply Qeq_bool_eq in E. split; [|split; [|split]].
    + reflexivity.
    + intro H. contradiction.
    + intros g H. contradiction.
    + intros y [= <-] Hx _. exact Hx.
  - apply Qeq_bool_neq in E. split; [|split; [|split]].
    + intro H. contradiction.
    + intros _ ->. reflexivity.
    + intros g _ ->. split; [reflexivity|]. apply clipped_block.
    + intros y Hy _ Hn. destruct (pow10 (gain_db / 20)%Q) as [g|];
        [|discriminate].
      injection Hy as <-. apply clipped_block. intros s Hs. now apply Hn.
Qed.

(** A gain of 20 dB on the block [[1/16; -1/2]]: the factor is 10 and the
    result is [[5/8; -1]]. *)
Lemma apply_gain_scales_and_clips_witness :
  apply_gain Samples.pow10_floor Exact.times [Fin (1 # 16); Fin (-1 # 2)] 20 =
    Ok (map (fun s => clip_unit (Exact.times s 10))
            [Fin (1 # 16); Fin (-1 # 2)]) /\
  Forall in_unit_or_nan
    (map (fun s => clip_unit (Exact.times s 10))
         [Fin (1 # 16); Fin (-1 # 2)]) /\
  ((forall s, In s [Fin (1 # 16); Fin (-1 # 2)] ->
      Exact.times s 10 <> NaN) ->
   Forall in_unit
     (map (fun s => clip_unit (Exact.times s 10))
          [Fin (1 # 16); Fin (-1 # 2)])).
Proof.
  apply (proj1 (proj2 (proj2
           (apply_gain_scales_and_clips Samples.pow10_floor Exact.times
              [Fin (1 # 16); Fin (-1 # 2)] 20)))).
  - vm_compute. discriminate.
  - reflexivity.
Defined.

End GainClaims.

(** ** Python strings *)

Section StringFacts.

Import PyStr.

Lemma lstrip_starts_clean s : starts_clean (lstrip s).
Proof.
  induction s as [|c s IH]; simpl; [exact I|].
  destruct (is_space c) eqn:E; [exact IH|exact E].
Qed.

Lemma lstrip_of_clean s : starts_clean s -> lstrip s = s.
Proof. destruct s as [|c s]; simpl; [reflexivity|]. now intros ->. Qed.

Lemma rstrip_starts_clean s : starts_clean s -> starts_clean (rstrip s).
Proof.
  destruct s as [|c s]; simpl; [trivial|]. intro Hc.
  destruct (rstrip s); simpl; [rewrite Hc; exact Hc|exact Hc].
Qed.

Lemma rstrip_idempotent s : rstrip (rstrip s) = rstrip s.
Proof.
  induction s as [|c s IH]; simpl; [reflexivity|].
  destruct (rstrip s) as [|d r] eqn:E.
  - destruct (is_space c) eqn:Ec; simpl; [reflexivity|now rewrite Ec].
  - simpl in *. now rewrite IH.
Qed.

(** [s.strip().strip() == s.strip()]. *)
Lemma strip_idempotent s : strip (strip s) = strip s.
Proof.
  unfold strip.
  rewrite (lstrip_of_clean (rstrip (lstrip s))).
  - apply rstrip_idempotent.
  - apply rstrip_starts_clean, lstrip_starts_clean.
Qed.

Lemma nonempty_true_iff s : nonempty s = true <-> s <> EmptyString.
Proof. destruct s; simpl; split; congruence. Qed.

End StringFacts.

(** ** The language decision *)

Section DecisionFacts.

Import PyStr Recognizer.

Variable env : Externals.

(** The fields a call of the model leaves alone. *)
Lemma log_call_last_lang e r : last_lang (log_call e r) = last_lang r.
Proof. reflexivity. Qed.

(** [_asr] calls the model once and strips the text. *)
Lemma asr_eq y lang r :
  asr env y lang r =
  (Ok (asr_text env y lang r), log_call (Transcribe y lang) r).
Proof. reflexivity. Qed.

(** [_best_lang] calls the detector once and returns a language: the guard
    on the empty dictionary keeps [max] from raising. *)
Lemma best_lang_eq y exclude force r :
  best_lang env y exclude force r =
  (Ok (match filter_probs (detect_language env (calls r) y) exclude with
       | [] => or_default (last_lang r) "en"
       | kv :: rest =>
           let lang := max_from kv rest in
           match last_lang r with
           | Some l =>
               if negb force && differs_from_last (last_lang r) lang then
                 if Qlt_bool (dict_get (kv :: rest) lang 0) (1 # 2)
                 then l else lang
               else lang
           | None => lang
           end
       end),
   log_call (Detect y) r).
Proof.
  unfold best_lang, call_detect, bind, get, modify, ret. cbn [calls log_call].
  destruct (filter_probs (detect_language env (calls r) y) exclude)
    as [|kv rest]; [reflexivity|].
  cbn [max_key ret last_lang log_call].
  destruct (last_lang r) as [l|]; [|reflexivity].
  destruct (negb force && differs_from_last (Some l) (max_from kv rest));
    [|reflexivity].
  destruct (Qlt_bool _ _); reflexivity.
Qed.

Lemma or_default_sticky r l : sticky_is r l -> or_default (last_lang r) "en" = l.
Proof.
  intros [-> Hl]. simpl. apply nonempty_true_iff in Hl. now rewrite Hl.
Qed.

Lemma or_default_no_sticky r :
  no_sticky r -> or_default (last_lang r) "en" = "en"%string.
Proof. intros [-> | ->]; reflexivity. Qed.

Lemma differs_from_last_or_default last :
  differs_from_last last (or_default last "en") = false.
Proof.
  destruct last as [l|]; simpl; [|reflexivity].
  destruct (nonempty l) eqn:E; simpl; [|reflexivity].
  now rewrite String.eqb_refl.
Qed.

Lemma differs_from_last_same l : differs_from_last (Some l) l = false.
Proof. simpl. rewrite String.eqb_refl. apply andb_false_r. Qed.

Lemma model_calls_app t1 t2 :
  model_calls (t1 ++ t2) = model_calls t1 ++ model_calls t2.
Proof.
  induction t1 as [|e t1 IH]; [reflexivity|].
  destruct e; simpl; rewrite ?IH; reflexivity.
Qed.

Lemma standard_one_pass_eq y r lang r1 :
  best_lang env y [] false r = (Ok lang, r1) ->
  standard_one_pass env y r =
  (Ok (lang, asr_text env y lang (set_last_lang (Some lang) r1)),
   log_call (Transcribe y lang) (set_last_lang (Some lang) r1)).
Proof.
  intro H1. unfold standard_one_pass, bind. rewrite H1. reflexivity.
Qed.

(** The key [max] returns is a key of the dictionary. *)
Lemma max_from_in (rest : probs) : forall kv,
  exists q, In (max_from kv rest, q) (kv :: rest).
Proof.
  induction rest as [|kv' rest IH]; intros [k v]; simpl.
  - exists v. now left.
  - destruct (Qlt_bool v (snd kv')).
    + destruct (IH kv') as (q & Hq). exists q. now right.
    + destruct (IH (k, v)) as (q & [Hq|Hq]); exists q; auto.
Qed.

(** [d.get(k, default)] on a key of [d] is one of its values. *)
Lemma dict_get_in (d : probs) k default :
  (exists q, In (k, q) d) -> In (k, dict_get d k default) d.
Proof.
  induction d as [|[k' v] d IH]; intros (q & Hq); simpl in *; [contradiction|].
  destruct (String.eqb k' k) eqn:E.
  - apply String.eqb_eq in E. subst. now left.
  - right. apply IH. destruct Hq as [Hq|Hq].
    + inversion Hq; subst. rewrite String.eqb_refl in E. discriminate.
    + now exists q.
Qed.

Lemma Qlt_bool_iff (a b : Q) : Qlt_bool a b = true <-> (a < b)%Q.
Proof.
  unfold Qlt_bool. rewrite negb_true_iff. split; intro H.
  - apply Qnot_le_lt. intro Hle. apply Qle_bool_iff in Hle. congruence.
  - destruct (Qle_bool b a) eqn:E; [|reflexivity].
    apply Qle_bool_iff in E. exfalso. exact (Qlt_not_le _ _ H E).
Qed.

(** Standard mode when the first pass agrees with the Sticky Language, or
    none is set: one detection, one transcription. *)
Lemma standard_mode_one_detection y r lang r1 :
  best_lang env y [] false r = (Ok lang, r1) ->
  differs_from_last (last_lang r1) lang = false ->
  standard_mode env y r =
  (Ok (lang, asr_text env y lang (set_last_lang (Some lang) r1)),
   log_call (Transcribe y lang) (set_last_lang (Some lang) r1)).
Proof.
  intros H1 Hd. unfold standard_mode, bind. rewrite H1.
  cbn [get]. rewrite Hd. reflexivity.
Qed.

(** Standard mode when the first pass differs from the Sticky Language: the
    forced pass decides. *)
Lemma standard_mode_two_detections y r lang r1 lang2 r2 :
  best_lang env y [] false r = (Ok lang, r1) ->
  differs_from_last (last_lang r1) lang = true ->
  best_lang env y [] true r1 = (Ok lang2, r2) ->
  standard_mode env y r =
  (Ok (lang2, asr_text env y lang2 (set_last_lang (Some lang2) r2)),
   log_call (Transcribe y lang2) (set_last_lang (Some lang2) r2)).
Proof.
  intros H1 Hd H2. unfold standard_mode, bind. rewrite H1.
  cbn [get]. rewrite Hd, H2. reflexivity.
Qed.

(** Priority mode when the primary transcript is long enough. *)
Lemma priority_mode_accepts y r :
  2 <= slen (strip (asr_text env y (chosen_or_ru (cfg r)) r)) ->
  priority_mode env y r =
  (Ok (chosen_or_ru (cfg r), asr_text env y (chosen_or_ru (cfg r)) r),
   log_call (Transcribe y (chosen_or_ru (cfg r))) r).
Proof.
  intro H. unfold priority_mode, bind. cbn [get]. rewrite asr_eq.
  replace (slen (strip (asr_text env y (chosen_or_ru (cfg r)) r)) <? 2)
    with false by (symmetry; apply Z.ltb_ge; exact H).
  reflexivity.
Qed.

(** Priority mode when the primary transcript is too short: one detection
    without the primary language, one more transcription. *)
Lemma priority_mode_falls_back y r lang r2 :
  slen (strip (asr_text env y (chosen_or_ru (cfg r)) r)) < 2 ->
  best_lang env y [chosen_or_ru (cfg r)] false
    (log_call (Transcribe y (chosen_or_ru (cfg r))) r) = (Ok lang, r2) ->
  priority_mode env y r =
  (Ok (lang, asr_text env y lang r2), log_call (Transcribe y lang) r2).
Proof.
  intros H H2. unfold priority_mode, bind. cbn [get]. rewrite asr_eq.
  replace (slen (strip (asr_text env y (chosen_or_ru (cfg r)) r)) <? 2)
    with true by (symmetry; apply Z.ltb_lt; exact H).
  rewrite H2. reflexivity.
Qed.

End DecisionFacts.

Section DecisionClaims.

Import PyStr Recognizer Observations.

Variable env : Externals.

(** C7.  Whenever no supported language is left in the probability map
    (after the filter to the three supported languages and, in the fallback
    of priority mode, after the primary language is taken out), the language
    chosen is the Sticky Language if one is set and the default ["en"]
    otherwise, and nothing is raised.  This holds of [_best_lang] for any
    exclusion and with or without [force], of the whole standard-mode
    decision, and of the priority-mode decision when it falls back. *)
Theorem empty_map_falls_back_to_sticky (y : audio) (r : Recognizer) :
  (forall exclude force,
     filter_probs (detect_language env (calls r) y) exclude = [] ->
     exists lang,
       best_lang env y exclude force r = (Ok lang, log_call (Detect y) r) /\
       (forall l, sticky_is r l -> lang = l) /\
       (no_sticky r -> lang = "en"%string)) /\
  (filter_probs (detect_language env (calls r) y) [] = [] ->
   exists lang text r',
     standard_mode env y r = (Ok (lang, text), r') /\
     (forall l, sticky_is r l -> lang = l) /\
     (no_sticky r -> lang = "en"%string)) /\
  (slen (strip (asr_text env y (chosen_or_ru (cfg r)) r)) < 2 ->
   filter_probs (detect_language env (S (calls r)) y)
                [chosen_or_ru (cfg r)] = [] ->
   exists lang text r',
     priority_mode env y r = (Ok (lang, text), r') /\
     (forall l, sticky_is r l -> lang = l) /\
     (no_sticky r -> lang = "en"%string)).
Proof.
  assert (Hbest : forall exclude force r0,
    filter_probs (detect_language env (calls r0) y) exclude = [] ->
    best_lang env y exclude force r0 =
      (Ok (or_default (last_lang r0) "en"), log_call (Detect y) r0)).
  { intros exclude force r0 He. rewrite best_lang_eq, He. reflexivity. }
  split; [|split].
  - intros exclude force He. exists (or_default (last_lang r) "en").
    split; [now apply Hbest|]. split.
    + apply or_default_sticky.
    + apply or_default_no_sticky.
  - intro He.
    exists (or_default (last_lang r) "en").
    eexists. eexists. split.
    + apply (standard_mode_one_detection env y r _ _ (Hbest [] false r He)).
      apply differs_from_last_or_default.
    + split; [apply or_default_sticky|apply or_default_no_sticky].
  - intros Hshort He.
    exists (or_default (last_lang r) "en").
    eexists. eexists. split.
    + apply priority_mode_falls_back; [exact Hshort|].
      exact (Hbest _ _ (log_call (Transcribe y (chosen_or_ru (cfg r))) r) He).
    + split; [apply or_default_sticky|apply or_default_no_sticky].
Qed.

(** C5.  In standard mode with a Sticky Language [l] set: when a supported
    language of highest probability in the detection result differs from [l]
    and its probability is strictly below 0.50, the language chosen, and
    used for the one transcription, is [l], and [l] is still the Sticky
    Language afterwards.  The detector is asked once. *)
Theorem hysteresis_keeps_sticky (y : audio) (r : Recognizer)
    (l top : string) (p : Q) :
  sticky_is r l ->
  In (top, p) (filter_probs (detect_language env (calls r) y) []) ->
  (forall k q, In (k, q) (filter_probs (detect_language env (calls r) y) [])
               -> (q <= p)%Q) ->
  top <> l ->
  (p < 1 # 2)%Q ->
  exists text r',
    standard_mode env y r = (Ok (l, text), r') /\
    last_lang r' = Some l /\
    model_calls (trace r') = model_calls (trace r) ++ [Detect y; Transcribe y l].
Proof.
  intros [Hlast Hne] Hin Hmax _ Hp.
  assert (H1 : best_lang env y [] false r = (Ok l, log_call (Detect y) r)).
  { rewrite best_lang_eq. f_equal. f_equal.
    destruct (filter_probs (detect_language env (calls r) y) [])
      as [|kv rest] eqn:E; [contradiction|].
    cbv zeta. rewrite Hlast. cbn [negb andb].
    destruct (differs_from_last (Some l) (max_from kv rest)) eqn:Hd.
    - assert (Hlow : Qlt_bool (dict_get (kv :: rest) (max_from kv rest) 0)
                              (1 # 2) = true).
      { apply Qlt_bool_iff. eapply Qle_lt_trans; [|exact Hp].
        apply (Hmax (max_from kv rest)).
        apply dict_get_in. apply max_from_in. }
      now rewrite Hlow.
    - simpl in Hd. apply nonempty_true_iff in Hne. rewrite Hne in Hd.
      simpl in Hd. apply negb_false_iff in Hd.
      now apply String.eqb_eq in Hd. }
  eexists. eexists. split.
  - apply (standard_mode_one_detection env y r _ _ H1).
    rewrite log_call_last_lang, Hlast. apply differs_from_last_same.
  - split; [reflexivity|].
    cbn [trace log_call set_last_lang].
    rewrite <- app_assoc, model_calls_app. reflexivity.
Qed.

(** C10.  In standard mode, when the detector is a function of the audio
    alone, the forced confirmation pass changes nothing: the language chosen
    is the one the first, hysteresis-aware pass returned, which is also what
    the decision without the confirmation pass chooses.  The two decisions
    leave the same Sticky Language and the same controls, and ask for the
    same transcription; they differ by the second detection call in the
    trace, made when the first pick differs from the Sticky Language, and
    the texts are equal when the transcription is a function of the audio
    and the language. *)
Theorem confirmation_pass_is_redundant (y : audio) (r : Recognizer) :
  deterministic_detection env ->
  exists lang text1 r1 text2 r2,
    fst (best_lang env y [] false r) = Ok lang /\
    standard_mode env y r = (Ok (lang, text1), r1) /\
    standard_one_pass env y r = (Ok (lang, text2), r2) /\
    last_lang r1 = Some lang /\
    last_lang r2 = Some lang /\
    same_controls r2 r1 /\
    trace r2 = trace r ++ [Detect y; Transcribe y lang] /\
    trace r1 =
      trace r ++ [Detect y] ++
      (if differs_from_last (last_lang r) lang then [Detect y] else []) ++
      [Transcribe y lang] /\
    (deterministic_transcription env -> text1 = text2).
Proof.
  intro Hdet.
  assert (Hgoal : forall lang,
    best_lang env y [] false r = (Ok lang, log_call (Detect y) r) ->
    (differs_from_last (last_lang r) lang = false \/
     best_lang env y [] true (log_call (Detect y) r) =
       (Ok lang, log_call (Detect y) (log_call (Detect y) r))) ->
    exists lang text1 r1 text2 r2,
      fst (best_lang env y [] false r) = Ok lang /\
      standard_mode env y r = (Ok (lang, text1), r1) /\
      standard_one_pass env y r = (Ok (lang, text2), r2) /\
      last_lang r1 = Some lang /\ last_lang r2 = Some lang /\
      same_controls r2 r1 /\
      trace r2 = trace r ++ [Detect y; Transcribe y lang] /\
      trace r1 =
        trace r ++ [Detect y] ++
        (if differs_from_last (last_lang r) lang then [Detect y] else []) ++
        [Transcribe y lang] /\
      (deterministic_transcription env -> text1 = text2)).
  { intros lang H1 Hcase. exists lang.
    destruct (differs_from_last (last_lang r) lang) eqn:Hd.
    - destruct Hcase as [Hc|H2]; [discriminate|].
      do 4 eexists. split; [now rewrite H1|]. split.
      + eapply standard_mode_two_detections; [exact H1|exact Hd|exact H2].
      + split; [eapply standard_one_pass_eq; exact H1|].
        split; [reflexivity|]. split; [reflexivity|].
        split; [unfold same_controls; repeat split|].
        split; [cbn; now rewrite <- app_assoc|].
        split; [cbn; now rewrite <- !app_assoc|].
        intro Htr. unfold asr_text. cbn [calls log_call set_last_lang].
        now rewrite (Htr (S (S (calls r))) (S (calls r)) y lang).
    - do 4 eexists. split; [now rewrite H1|]. split.
      + eapply standard_mode_one_detection; [exact H1|exact Hd].
      + split; [eapply standard_one_pass_eq; exact H1|].
        split; [reflexivity|]. split; [reflexivity|].
        split; [unfold same_controls; repeat split|].
        split; [cbn; now rewrite <- app_assoc|].
        split; [cbn; now rewrite <- !app_assoc|].
        reflexivity. }
  assert (Hsecond : forall kv rest,
    filter_probs (detect_language env (calls r) y) [] = kv :: rest ->
    best_lang env y [] true (log_call (Detect y) r) =
      (Ok (max_from kv rest), log_call (Detect y) (log_call (Detect y) r))).
  { intros kv rest Ef. rewrite best_lang_eq.
    rewrite (Hdet (calls (log_call (Detect y) r)) (calls r) y), Ef.
    cbv zeta. cbn [negb andb].
    now destruct (last_lang (log_call (Detect y) r)). }
  pose proof (best_lang_eq env y [] false r) as H1.
  destruct (filter_probs (detect_language env (calls r) y) [])
    as [|kv rest] eqn:Ef.
  - apply (Hgoal _ H1). left. apply differs_from_last_or_default.
  - specialize (Hsecond kv rest eq_refl). cbv zeta in H1.
    destruct (last_lang r) as [l|] eqn:El.
    + cbn [negb andb] in H1.
      destruct (differs_from_last (Some l) (max_from kv rest)) eqn:Hd.
      * destruct (Qlt_bool (dict_get (kv :: rest) (max_from kv rest) 0) (1 # 2)).
        -- apply (Hgoal _ H1). left. apply differs_from_last_same.
        -- apply (Hgoal _ H1). right. exact Hsecond.
      * apply (Hgoal _ H1). left. exact Hd.
    + apply (Hgoal _ H1). left. reflexivity.
Qed.

(** C3, as the code has it.  In priority mode, whenever the transcription
    in the primary language returns a text of at least two characters (the
    text is stripped of surrounding white space), the decision is over: the
    model was called exactly once, for that transcription, no detection and
    no second transcription is made, and the line published carries the
    primary language. *)
Theorem priority_accepts_primary_transcript (y : audio) (r : Recognizer) :
  lang_mode (cfg r) = "priority"%string ->
  2 <= slen (asr_text env y (chosen_or_ru (cfg r)) r) ->
  let primary := chosen_or_ru (cfg r) in
  let text := asr_text env y primary r in
  decide env y r = (Ok (primary, text), log_call (Transcribe y primary) r) /\
  exists r',
    handle_utterance env y r = (Ok tt, r') /\
    model_calls (trace r') = model_calls (trace r) ++ [Transcribe y primary] /\
    calls r' = S (calls r) /\
    trace r' = trace r ++
      [Transcribe y primary;
       OnText ("[" ++ upper primary ++ "] " ++ text);
       LogWrite ("[" ++ upper primary ++ "] " ++ text);
       OnInfo (InfoLine ("[" ++ upper primary ++ "] " ++ text))]%string.
Proof.
  intros Hmode Hlen primary text.
  assert (Hstrip : strip text = text).
  { unfold text, asr_text. apply strip_idempotent. }
  assert (Hd : decide env y r =
               (Ok (primary, text), log_call (Transcribe y primary) r)).
  { unfold decide, bind. cbn [get]. rewrite Hmode. cbn [String.eqb].
    change (String.eqb "priority" "exclusive") with false.
    change (String.eqb "priority" "priority") with true.
    cbv iota. apply priority_mode_accepts.
    fold primary. fold text. rewrite Hstrip. exact Hlen. }
  split; [exact Hd|].
  assert (Hne : nonempty text = true).
  { unfold text, primary.
    destruct (asr_text env y (chosen_or_ru (cfg r)) r); [|reflexivity].
    unfold slen in Hlen. simpl in Hlen. lia. }
  eexists. split.
  - unfold handle_utterance, bind. rewrite Hd. cbn [fst snd].
    unfold publish. rewrite Hne. unfold format_line. rewrite Hstrip.
    reflexivity.
  - cbn [trace calls log_call log_event]. split; [|split].
    + rewrite <- !app_assoc. rewrite model_calls_app. reflexivity.
    + reflexivity.
    + rewrite <- !app_assoc. reflexivity.
Qed.

End DecisionClaims.

(** *** Concrete instances *)

Section DecisionInstances.

Import Float PyStr Recognizer Observations.

(** The detector hears German and French only, in the fallback of priority
    mode with primary language [ru]. *)
Lemma empty_map_falls_back_to_sticky_witness :
  exists lang,
    best_lang Samples.mock_foreign [Fin 1] ["ru"%string] false
      (Samples.running "priority" "ru") =
      (Ok lang, log_call (Detect [Fin 1]) (Samples.running "priority" "ru")) /\
    (forall l, sticky_is (Samples.running "priority" "ru") l -> lang = l) /\
    (no_sticky (Samples.running "priority" "ru") -> lang = "en"%string).
Proof.
  apply (proj1 (empty_map_falls_back_to_sticky Samples.mock_foreign [Fin 1]
                  (Samples.running "priority" "ru"))).
  reflexivity.
Defined.

(** The Sticky Language is [ru] and the detector puts [en] first with
    probability 0.45. *)
Lemma hysteresis_keeps_sticky_witness :
  exists text r',
    standard_mode Samples.mock_unsure [Fin 1]
      (set_last_lang (Some "ru"%string) (Samples.running "standard" "ru")) =
      (Ok ("ru"%string, text), r') /\
    last_lang r' = Some "ru"%string /\
    model_calls (trace r') =
      model_calls (trace (set_last_lang (Some "ru"%string)
                            (Samples.running "standard" "ru"))) ++
      [Detect [Fin 1]; Transcribe [Fin 1] "ru"].
Proof.
  apply (hysteresis_keeps_sticky Samples.mock_unsure [Fin 1]
           (set_last_lang (Some "ru"%string) (Samples.running "standard" "ru"))
           "ru" "en" 0.45%Q).
  - split; [reflexivity|discriminate].
  - simpl. auto.
  - intros k q H. simpl in H.
    destruct H as [H|[H|[H|[]]]]; inversion H; subst;
      vm_compute; discriminate.
  - discriminate.
  - reflexivity.
Defined.

(** The Sticky Language is [ru] and the detector is sure of English: the
    first pass picks [en], which differs from the Sticky Language, so the
    confirmation pass runs, and picks [en] again.  The mock detector and the
    mock model ignore the call count. *)
Lemma confirmation_pass_is_redundant_witness :
  exists text1 r1 text2 r2,
    standard_mode Samples.mock [Fin 1]
      (set_last_lang (Some "ru"%string) (Samples.running "standard" "ru")) =
      (Ok ("en"%string, text1), r1) /\
    standard_one_pass Samples.mock [Fin 1]
      (set_last_lang (Some "ru"%string) (Samples.running "standard" "ru")) =
      (Ok ("en"%string, text2), r2) /\
    model_calls (trace r1) =
      [Detect [Fin 1]; Detect [Fin 1]; Transcribe [Fin 1] "en"] /\
    model_calls (trace r2) = [Detect [Fin 1]; Transcribe [Fin 1] "en"] /\
    last_lang r1 = Some "en"%string /\
    last_lang r2 = Some "en"%string /\
    same_controls r2 r1 /\
    text1 = text2.
Proof.
  destruct (confirmation_pass_is_redundant Samples.mock [Fin 1]
              (set_last_lang (Some "ru"%string)
                 (Samples.running "standard" "ru")))
    as (lang & text1 & r1 & text2 & r2 & Hb & H1 & H2 & Hl1 & Hl2 & Hc &
        Ht2 & Ht1 & Htext).
  - intros n m y. reflexivity.
  - assert (Hlang : lang = "en"%string).
    { vm_compute in Hb. now injection Hb as <-. }
    subst lang. exists text1, r1, text2, r2.
    split; [exact H1|]. split; [exact H2|].
    split; [rewrite Ht1; reflexivity|]. split; [rewrite Ht2; reflexivity|].
    split; [exact Hl1|]. split; [exact Hl2|]. split; [exact Hc|].
    apply Htext. intros n m y l. reflexivity.
Defined.

(** In priority mode with primary language [ru] the model returns the
    non-empty text [a]; the detector is then asked, the model transcribes a
    second time, and the language chosen is [en]. *)
Lemma priority_one_letter_counterexample :
  asr_text Samples.mock [Fin 1] "ru" (Samples.running "priority" "ru")
    = "a"%string /\
  fst (decide Samples.mock [Fin 1] (Samples.running "priority" "ru"))
    = Ok ("en", "hello")%string /\
  model_calls
    (trace (snd (decide Samples.mock [Fin 1] (Samples.running "priority" "ru"))))
    = [Transcribe [Fin 1] "ru"; Detect [Fin 1]; Transcribe [Fin 1] "en"].
Proof. vm_compute. repeat split. Qed.

(** Primary language [en], transcript [hello]: one call of the model. *)
Lemma priority_accepts_primary_transcript_witness :
  decide Samples.mock [Fin 1] (Samples.running "priority" "en") =
    (Ok ("en", "hello")%string,
     log_call (Transcribe [Fin 1] "en") (Samples.running "priority" "en")) /\
  exists r',
    handle_utterance Samples.mock [Fin 1] (Samples.running "priority" "en")
      = (Ok tt, r') /\
    model_calls (trace r') =
      model_calls (trace (Samples.running "priority" "en")) ++
      [Transcribe [Fin 1] "en"] /\
    calls r' = S (calls (Samples.running "priority" "en")) /\
    trace r' = trace (Samples.running "priority" "en") ++
      [Transcribe [Fin 1] "en"; OnText "[EN] hello"; LogWrite "[EN] hello";
       OnInfo (InfoLine "[EN] hello")].
Proof.
  apply (priority_accepts_primary_transcript Samples.mock [Fin 1]
           (Samples.running "priority" "en")).
  - reflexivity.
  - vm_compute. discriminate.
Defined.

End DecisionInstances.

(** ** Pause and the utterance in progress *)

Section PauseClaims.

Import Recognizer.

(** C4 on the code.  Two loud blocks are in the segmenter when [pause()] is
    called.  The queue is then empty, so the turn of the processing thread
    ends on [queue.Empty] before it reaches the reset; the block delivered
    during the pause never enters the queue.  The buffer is intact at
    [resume()], and the utterance transcribed afterwards starts with the
    6400 samples buffered before the pause. *)
Theorem pause_keeps_partial_utterance :
  let r0 := Samples.running "standard" "ru" in
  let r1 := snd (run Samples.mock Samples.before_pause r0) in
  let r2 := snd (run Samples.mock Samples.paused r1) in
  let r3 := snd (run Samples.mock Samples.after_resume r2) in
  VAD.buf (vad r1) = Samples.loud3200 ++ Samples.loud3200 /\
  transcribed (trace r1) = [] /\
  is_paused r2 = true /\
  audio_q r2 = [] /\
  VAD.buf (vad r2) = Samples.loud3200 ++ Samples.loud3200 /\
  transcribed (trace r3) =
    [(Samples.loud3200 ++ Samples.loud3200) ++
     Samples.loud3200_neg ++
     Samples.quiet3200 ++ Samples.quiet3200 ++ Samples.quiet3200] /\
  In (OnText "[EN] hello") (trace r3).
Proof. vm_compute. repeat split. auto 20. Qed.

End PauseClaims.

(** * Further properties of the code *)

(** ** The segmenter between emissions *)

Section SegmenterInvariants.

Import Float VAD.

Variable mean_abs : frame -> float.

Local Abbreviation voice := (VAD.voice mean_abs).
Local Abbreviation absorb := (VAD.absorb mean_abs).
Local Abbreviation feed := (VAD.feed mean_abs).
Local Abbreviation feed_all := (VAD.feed_all mean_abs).
Local Abbreviation below_threshold := (VAD.below_threshold mean_abs).

Lemma feed_all_same_config v fs : same_config v (fst (feed_all v fs)).
Proof.
  revert v. induction fs as [|f fs IH]; intro v; simpl.
  - repeat split.
  - pose proof (feed_same_config mean_abs v f) as Hc.
    destruct (feed v f) as [v1 out]. specialize (IH v1).
    destruct (feed_all v1 fs) as [v2 outs]. simpl in *.
    unfold same_config in *. intuition congruence.
Qed.

Lemma feed_in_speech_bounds v f :
  in_speech (fst (feed v f)) = true ->
  len (buf (fst (feed v f))) < max_utt v /\
  silence_run (fst (feed v f)) < silence_need v.
Proof.
  unfold VAD.feed.
  destruct (in_speech (absorb v f)) eqn:Hs; cbn [andb].
  - destruct (max_utt (absorb v f) <=? len (buf (absorb v f))) eqn:Hmax;
      [discriminate|].
    destruct (silence_need (absorb v f) <=? silence_run (absorb v f)) eqn:Hsil.
    + destruct (min_utt (absorb v f) <=? len (buf (absorb v f)));
        discriminate.
    + intros _. apply Z.leb_gt in Hmax, Hsil. cbn [fst]. split; assumption.
  - cbn [fst]. congruence.
Qed.

(** X1.  Whatever the state before and whatever the frames, after at least
    one call of [feed] a segmenter that is in speech holds fewer samples
    than the maximum duration and has seen less trailing silence than the
    silence-to-end duration: speech never piles up beyond the maximum. *)
Theorem in_speech_buffer_below_max (v : EnergyVAD) (fs : list frame) :
  fs <> [] ->
  in_speech (fst (feed_all v fs)) = true ->
  len (buf (fst (feed_all v fs))) < max_utt v /\
  silence_run (fst (feed_all v fs)) < silence_need v.
Proof.
  intro Hne. destruct (exists_last Hne) as (pre & f & ->). clear Hne.
  rewrite feed_all_app. cbn [fst].
  set (w := fst (feed_all v pre)).
  destruct (feed_all_same_config v pre) as (_ & _ & _ & Hmax & Hsil).
  fold w in Hmax, Hsil.
  simpl. pose proof (feed_in_speech_bounds w f) as Hb.
  destruct (feed w f) as [w1 out]. simpl in *.
  rewrite <- Hmax, <- Hsil. exact Hb.
Qed.

Lemma feed_all_quiet_state v fs :
  in_speech v = false ->
  Forall (below_threshold v) fs ->
  buf (fst (feed_all v fs)) = buf v ++ List.concat fs /\
  silence_run (fst (feed_all v fs)) = silence_run v + len (List.concat fs) /\
  in_speech (fst (feed_all v fs)) = false.
Proof.
  revert v. induction fs as [|f fs IH]; intros v Hs Hall.
  - simpl. rewrite app_nil_r. change (len (@nil float)) with 0.
    repeat split; [lia|exact Hs].
  - inversion Hall as [|? ? Hf Hfs]; subst.
    pose proof (below_threshold_voice mean_abs v f Hf) as Hv.
    cbn [VAD.feed_all]. rewrite (feed_idle mean_abs v f Hs Hv).
    assert (Hs1 : in_speech (absorb v f) = false).
    { unfold VAD.absorb. cbn [in_speech]. now rewrite Hv. }
    destruct (IH (absorb v f) Hs1 Hfs) as (Hb & Hr & Hi).
    destruct (feed_all (absorb v f) fs) as [v2 outs]. cbn [fst] in *.
    split; [|split].
    + rewrite Hb. unfold VAD.absorb. cbn [buf]. simpl List.concat.
      now rewrite app_assoc.
    + rewrite Hr. unfold VAD.absorb. cbn [silence_run]. rewrite Hv.
      simpl List.concat. rewrite len_app. lia.
    + exact Hi.
Qed.

(** X2.  Silence is buffered too, without bound: a segmenter started from
    the reset state and fed only frames whose energy, as the code computes
    it, is below the threshold ends with every sample it was fed in its
    buffer, its silence counter at their number, and still not in speech. *)
Theorem silence_fills_buffer (v : EnergyVAD) (fs : list frame) :
  is_reset v ->
  Forall (below_threshold v) fs ->
  buf (fst (feed_all v fs)) = List.concat fs /\
  silence_run (fst (feed_all v fs)) = len (List.concat fs) /\
  in_speech (fst (feed_all v fs)) = false.
Proof.
  intros (Hb & Hr & Hs) Hall.
  destruct (feed_all_quiet_state v fs Hs Hall) as (H1 & H2 & H3).
  rewrite Hb in H1. rewrite Hr in H2. auto.
Qed.

(** X3.  [feed] only cuts the stream of samples, in order: what was in the
    buffer followed by all the frames fed is the concatenation of the
    segments cut so far followed by the final buffer, and the utterances
    returned are, in order, the segments that were kept (the others are the
    short bursts discarded as noise). *)
Theorem emitted_utterances_partition_stream (v : EnergyVAD)
    (fs : list frame) :
  exists cuts : list (bool * frame),
    buf v ++ List.concat fs =
      List.concat (map snd cuts) ++ buf (fst (feed_all v fs)) /\
    emitted (snd (feed_all v fs)) = map snd (filter fst cuts).
Proof.
  revert v. induction fs as [|f fs IH]; intro v.
  - exists []. simpl. now rewrite app_nil_r.
  - cbn [VAD.feed_all].
    assert (Hstep :
      (feed v f = (absorb v f, None)) \/
      (exists kept : bool, feed v f =
         (reset v, if kept then Some (buf v ++ f) else None))).
    { unfold VAD.feed.
      destruct (in_speech (absorb v f) &&
                (max_utt (absorb v f) <=? len (buf (absorb v f)))).
      - right. now exists true.
      - destruct (in_speech (absorb v f) &&
                  (silence_need (absorb v f) <=? silence_run (absorb v f)));
          [|now left].
        destruct (min_utt (absorb v f) <=? len (buf (absorb v f))); right;
          [now exists true|now exists false]. }
    destruct Hstep as [Hst|[kept Hst]]; rewrite Hst.
    + destruct (IH (absorb v f)) as (cuts & Hc & He).
      destruct (feed_all (absorb v f) fs) as [v2 outs]. cbn [fst snd] in *.
      exists cuts. split; [|exact He].
      rewrite <- Hc. unfold VAD.absorb. cbn [buf]. simpl List.concat.
      now rewrite app_assoc.
    + destruct (IH (reset v)) as (cuts & Hc & He).
      destruct (feed_all (reset v) fs) as [v2 outs]. cbn [fst snd] in *.
      exists ((kept, buf v ++ f) :: cuts). split.
      * simpl. rewrite <- !app_assoc. f_equal. f_equal. exact Hc.
      * destruct kept; simpl; now rewrite He.
Qed.

(** X4.  The segmenter the recognizer builds, [EnergyVAD(sr)] with the
    default durations, has for every sample rate from 3 Hz up to the rate at
    which [sr * 6000] reaches 2^53 (about 1.5e12 Hz) a silence-to-end
    duration of at least one sample that is no longer than the minimum
    duration, itself no longer than the maximum.  Up to that rate the float
    division of the constructor truncates to the exact quotient. *)
Theorem default_durations_ordered (rate : Z) :
  3 <= rate ->
  rate * default_max_utt_ms < 2 ^ 53 ->
  1 <= silence_need (init_default rate) /\
  silence_need (init_default rate) <= min_utt (init_default rate) /\
  min_utt (init_default rate) <= max_utt (init_default rate).
Proof.
  intros H _. cbn. unfold ms_to_samples, default_silence_ms,
    default_min_utt_ms, default_max_utt_ms.
  split; [|split].
  - change 1 with (Z.quot 1000 1000). apply Z.quot_le_mono; lia.
  - apply Z.quot_le_mono; lia.
  - apply Z.quot_le_mono; lia.
Qed.

End SegmenterInvariants.

(** ** One utterance through the language decision *)

Ltac controls := unfold Observations.same_controls; repeat split.

(** A public operation or the capture callback, written out. *)
Ltac run_op :=
  cbv beta iota zeta
      delta [Recognizer.start Recognizer.pause Recognizer.resume
             Recognizer.stop Recognizer.load_model_bg
             Recognizer.mic_callback Recognizer.deliver
             Observations.on_toggle
             Recognizer.bind Recognizer.get Recognizer.modify
             Recognizer.ret Recognizer.raise Recognizer.emit
             Recognizer.cfg Recognizer.sr Recognizer.frame
             Recognizer.model_loaded Recognizer.loading Recognizer.audio_q
             Recognizer.stop_evt Recognizer.vad Recognizer.is_running
             Recognizer.is_paused Recognizer.last_lang Recognizer.calls
             Recognizer.trace
             Recognizer.set_model_loaded Recognizer.set_loading
             Recognizer.set_audio_q Recognizer.set_stop_evt
             Recognizer.set_vad Recognizer.set_is_running
             Recognizer.set_is_paused Recognizer.set_last_lang
             Recognizer.log_event Recognizer.log_call].

(** Two runs of the decision that made the same calls and chose the same
    language and text. *)
Ltac same_outcome :=
  unfold Recognizer.ret, Recognizer.asr_text, Recognizer.log_call,
    Recognizer.log_event, Recognizer.set_last_lang;
  cbn [Recognizer.cfg Recognizer.sr Recognizer.frame Recognizer.model_loaded
       Recognizer.loading Recognizer.audio_q Recognizer.stop_evt
       Recognizer.vad Recognizer.is_running Recognizer.is_paused
       Recognizer.last_lang Recognizer.calls Recognizer.trace];
  eexists _, _, _, _, _;
  split; [reflexivity|]; split; [reflexivity|];
  cbn [Recognizer.cfg Recognizer.sr Recognizer.frame Recognizer.model_loaded
       Recognizer.loading Recognizer.audio_q Recognizer.stop_evt
       Recognizer.vad Recognizer.is_running Recognizer.is_paused
       Recognizer.last_lang Recognizer.calls Recognizer.trace];
  rewrite <- ?app_assoc;
  split; [reflexivity|]; split; [reflexivity|]; split; [reflexivity|];
  controls.

Section PipelineFacts.

Import PyStr Recognizer Observations.

Variable env : Externals.

Lemma mem_In k xs : mem k xs = true <-> In k xs.
Proof.
  unfold mem. rewrite existsb_exists. split.
  - intros (x & Hx & E). apply String.eqb_eq in E. now subst.
  - intro H. exists k. split; [exact H|apply String.eqb_refl].
Qed.

Lemma chosen_or_ru_allowed c : In (chosen_or_ru c) allowed.
Proof.
  unfold chosen_or_ru. destruct (mem (chosen_lang c) allowed) eqn:E.
  - now apply mem_In.
  - simpl. auto.
Qed.

Lemma filter_probs_keys p exclude k q :
  In (k, q) (filter_probs p exclude) -> In k allowed /\ ~ In k exclude.
Proof.
  unfold filter_probs. intro H.
  destruct exclude as [|e ex].
  - apply filter_In in H. destruct H as [_ H]. apply mem_In in H. auto.
  - apply filter_In in H. destruct H as [H Hex].
    apply filter_In in H. destruct H as [_ H]. apply mem_In in H.
    split; [exact H|]. intro Hin. apply mem_In in Hin.
    cbn [fst] in Hex. rewrite Hin in Hex. discriminate.
Qed.

Lemma or_default_allowed r : sticky_ok r -> In (or_default (last_lang r) "en") allowed.
Proof.
  unfold sticky_ok. destruct (last_lang r) as [l|]; simpl.
  - destruct (nonempty l); simpl; auto.
  - auto.
Qed.

(** With a supported Sticky Language, [_best_lang] returns a supported
    language. *)
Lemma best_lang_allowed y exclude force r lang r1 :
  sticky_ok r ->
  best_lang env y exclude force r = (Ok lang, r1) ->
  In lang allowed.
Proof.
  intros Hs H. rewrite best_lang_eq in H.
  destruct (filter_probs (detect_language env (calls r) y) exclude)
    as [|kv rest] eqn:Ef.
  - injection H as <- _. now apply or_default_allowed.
  - assert (Hmax : In (max_from kv rest) allowed).
    { destruct (max_from_in rest kv) as (q & Hq). rewrite <- Ef in Hq.
      now apply filter_probs_keys in Hq. }
    cbv zeta in H. unfold sticky_ok in Hs.
    destruct (last_lang r) as [l|]; [|now injection H as <- _].
    destruct (negb force && differs_from_last (Some l) (max_from kv rest));
      [|now injection H as <- _].
    destruct (Qlt_bool _ _); now injection H as <- _.
Qed.

Lemma best_lang_state y exclude force r lang r1 :
  best_lang env y exclude force r = (Ok lang, r1) ->
  r1 = log_call (Detect y) r.
Proof. rewrite best_lang_eq. now intros [= _ <-]. Qed.

Lemma best_lang_total y exclude force r :
  exists lang, best_lang env y exclude force r = (Ok lang, log_call (Detect y) r).
Proof. rewrite best_lang_eq. eauto. Qed.

Lemma asr_text_stripped y lang r : strip (asr_text env y lang r) = asr_text env y lang r.
Proof. unfold asr_text. apply strip_idempotent. Qed.

Lemma exclusive_mode_effect y r :
  exists lang text evs r',
    exclusive_mode env y r = (Ok (lang, text), r') /\
    last_lang r' = last_lang r /\
    evs = [Transcribe y (chosen_or_ru (cfg r))] /\
    decided r lang text evs r'.
Proof.
  exists (chosen_or_ru (cfg r)), (asr_text env y (chosen_or_ru (cfg r)) r),
    [Transcribe y (chosen_or_ru (cfg r))],
    (log_call (Transcribe y (chosen_or_ru (cfg r))) r).
  split; [reflexivity|]. split; [reflexivity|]. split; [reflexivity|].
  unfold decided.
  split; [controls|]. split; [reflexivity|].
  split; [cbn; lia|]. split; [reflexivity|].
  split; [discriminate|]. split; [apply asr_text_stripped|].
  intro Hs. pose proof (chosen_or_ru_allowed (cfg r)).
  split; [assumption|]. split; [exact Hs|]. simpl. auto.
Qed.

Lemma priority_mode_effect y r :
  exists lang text evs r',
    priority_mode env y r = (Ok (lang, text), r') /\
    last_lang r' = last_lang r /\
    decided r lang text evs r'.
Proof.
  set (primary := chosen_or_ru (cfg r)).
  pose proof (chosen_or_ru_allowed (cfg r)) as Hp. fold primary in Hp.
  destruct (Z_lt_le_dec (slen (strip (asr_text env y primary r))) 2)
    as [Hshort|Hlong].
  - destruct (best_lang_total y [primary] false
                (log_call (Transcribe y primary) r)) as [lang Hb].
    exists lang, (asr_text env y lang
                    (log_call (Detect y) (log_call (Transcribe y primary) r))),
      [Transcribe y primary; Detect y; Transcribe y lang],
      (log_call (Transcribe y lang)
         (log_call (Detect y) (log_call (Transcribe y primary) r))).
    split; [now apply priority_mode_falls_back|].
    split; [reflexivity|].
    unfold decided.
    split; [controls|]. split; [cbn; now rewrite <- !app_assoc|].
    split; [cbn; lia|]. split; [reflexivity|].
    split; [discriminate|]. split; [apply asr_text_stripped|].
    intro Hs.
    assert (Hl : In lang allowed).
    { eapply best_lang_allowed; [|exact Hb]. exact Hs. }
    split; [exact Hl|]. split; [exact Hs|]. simpl. auto.
  - exists primary, (asr_text env y primary r), [Transcribe y primary],
      (log_call (Transcribe y primary) r).
    split; [now apply priority_mode_accepts|].
    split; [reflexivity|].
    unfold decided.
    split; [controls|]. split; [reflexivity|].
    split; [cbn; lia|]. split; [reflexivity|].
    split; [discriminate|]. split; [apply asr_text_stripped|].
    intro Hs. split; [exact Hp|]. split; [exact Hs|]. simpl. auto.
Qed.

Lemma standard_mode_effect y r :
  exists lang text evs r',
    standard_mode env y r = (Ok (lang, text), r') /\
    last_lang r' = Some lang /\
    decided r lang text evs r'.
Proof.
  destruct (best_lang_total y [] false r) as [lang1 H1].
  destruct (differs_from_last (last_lang r) lang1) eqn:Hd.
  - destruct (best_lang_total y [] true (log_call (Detect y) r))
      as [lang2 H2].
    exists lang2,
      (asr_text env y lang2
         (set_last_lang (Some lang2)
            (log_call (Detect y) (log_call (Detect y) r)))),
      [Detect y; Detect y; Transcribe y lang2],
      (log_call (Transcribe y lang2)
         (set_last_lang (Some lang2)
            (log_call (Detect y) (log_call (Detect y) r)))).
    split.
    { eapply standard_mode_two_detections; [exact H1|exact Hd|exact H2]. }
    split; [reflexivity|].
    unfold decided.
    split; [controls|]. split; [cbn; now rewrite <- !app_assoc|].
    split; [cbn; lia|]. split; [reflexivity|].
    split; [discriminate|]. split; [apply asr_text_stripped|].
    intro Hs.
    assert (Hl : In lang2 allowed).
    { eapply best_lang_allowed; [|exact H2]. exact Hs. }
    split; [exact Hl|]. split; [exact Hl|]. simpl. auto.
  - exists lang1,
      (asr_text env y lang1
         (set_last_lang (Some lang1) (log_call (Detect y) r))),
      [Detect y; Transcribe y lang1],
      (log_call (Transcribe y lang1)
         (set_last_lang (Some lang1) (log_call (Detect y) r))).
    split.
    { eapply standard_mode_one_detection; [exact H1|exact Hd]. }
    split; [reflexivity|].
    unfold decided.
    split; [controls|]. split; [cbn; now rewrite <- !app_assoc|].
    split; [cbn; lia|]. split; [reflexivity|].
    split; [discriminate|]. split; [apply asr_text_stripped|].
    intro Hs.
    assert (Hl : In lang1 allowed).
    { eapply best_lang_allowed; [|exact H1]. exact Hs. }
    split; [exact Hl|]. split; [exact Hl|]. simpl. auto.
Qed.

Lemma decide_effect y r :
  exists lang text evs r',
    decide env y r = (Ok (lang, text), r') /\
    decided r lang text evs r'.
Proof.
  unfold decide, bind. cbn [get].
  destruct (String.eqb (lang_mode (cfg r)) "exclusive").
  - destruct (exclusive_mode_effect y r) as (l & t & e & r' & H & _ & _ & D).
    now exists l, t, e, r'.
  - destruct (String.eqb (lang_mode (cfg r)) "priority").
    + destruct (priority_mode_effect y r) as (l & t & e & r' & H & _ & D).
      now exists l, t, e, r'.
    + destruct (standard_mode_effect y r) as (l & t & e & r' & H & _ & D).
      now exists l, t, e, r'.
Qed.

(** The three records of a published line. *)
Lemma handle_utterance_effect y r :
  exists lang text evs r1 r2,
    decide env y r = (Ok (lang, text), r1) /\
    decided r lang text evs r1 /\
    handle_utterance env y r = (Ok tt, r2) /\
    ((text = EmptyString /\ r2 = r1) \/
     (text <> EmptyString /\
      r2 = log_event (OnInfo (InfoLine ("[" ++ upper lang ++ "] " ++ text)))
             (log_event (LogWrite ("[" ++ upper lang ++ "] " ++ text))
                (log_event (OnText ("[" ++ upper lang ++ "] " ++ text)) r1))))%string.
Proof.
  destruct (decide_effect y r) as (lang & text & evs & r1 & Hd & D).
  pose proof D as (_ & _ & _ & _ & _ & Hstrip & _).
  exists lang, text, evs, r1.
  unfold handle_utterance, bind. rewrite Hd. cbn [fst snd].
  unfold publish, format_line. rewrite Hstrip.
  destruct text as [|c text'].
  - exists r1. split; [reflexivity|]. split; [exact D|].
    split; [reflexivity|]. left. split; reflexivity.
  - eexists. split; [reflexivity|]. split; [exact D|].
    split; [reflexivity|]. right. split; [discriminate|reflexivity].
Qed.

(** The five ways a turn of the processing loop ends. *)
Lemma process_iteration_cases r :
  process_iteration env r = (Ok tt, r) \/
  (exists x q,
     audio_q r = x :: q /\ is_running r = true /\ is_paused r = true /\
     process_iteration env r =
       (Ok tt, set_vad (VAD.reset (vad r)) (set_audio_q q r))) \/
  (exists x q v,
     audio_q r = x :: q /\ is_running r = true /\ is_paused r = false /\
     VAD.feed (mean_abs env) (vad r) x = (v, None) /\
     process_iteration env r = (Ok tt, set_vad v (set_audio_q q r))) \/
  (exists x q v utt,
     audio_q r = x :: q /\ is_running r = true /\ is_paused r = false /\
     VAD.feed (mean_abs env) (vad r) x = (v, Some utt) /\ model_loaded r = false /\
     process_iteration env r =
       (Ok tt, log_event (OnInfo InfoModelLoading)
                 (set_vad v (set_audio_q q r)))) \/
  (exists x q v utt y,
     audio_q r = x :: q /\ is_running r = true /\ is_paused r = false /\
     VAD.feed (mean_abs env) (vad r) x = (v, Some utt) /\ model_loaded r = true /\
     process_iteration env r =
       handle_utterance env y (set_vad v (set_audio_q q r))).
Proof.
  unfold process_iteration, bind. cbn [get].
  destruct (is_running r) eqn:Hrun; cbn [andb negb]; [|now left].
  destruct (stop_evt r) eqn:Hstop; cbn [andb negb]; [now left|].
  destruct (audio_q r) as [|x q] eqn:Hq; [now left|].
  right. cbn [modify].
  destruct (is_paused r) eqn:Hp.
  - left. exists x, q. auto.
  - right. destruct (VAD.feed (mean_abs env) (vad r) x) as [v [utt|]] eqn:Hf.
    + right. cbn [modify]. destruct (model_loaded r) eqn:Hm; cbn [negb].
      * right. exists x, q, v, utt. eexists.
        repeat split; first [exact Hf|reflexivity].
      * left. exists x, q, v, utt.
        repeat split; first [exact Hf|reflexivity].
    + left. exists x, q, v. repeat split; first [exact Hf|reflexivity].
Qed.

(** No step of the recognizer raises. *)
Lemma step_total a r : exists r', step env a r = (Ok tt, r').
Proof.
  destruct a; cbn [step].
  1-6: destruct r as [c s f ml ld q se v run pa ll cl tr]; run_op.
  - destruct run; [eauto|]. destruct (negb ml && negb ld); eauto.
  - destruct (negb run); eauto.
  - destruct (negb run); [eauto|]. destruct ml; eauto.
  - destruct (negb run); eauto.
  - destruct ld; [|eauto]. destruct ok; [|eauto].
    destruct (negb pa && run); eauto.
  - eauto.
  - destruct (process_iteration_cases r)
      as [H|[(x & q & _ & _ & _ & H)|[(x & q & v & _ & _ & _ & _ & H)|
          [(x & q & v & u & _ & _ & _ & _ & _ & H)|
           (x & q & v & u & y & _ & _ & _ & _ & _ & H)]]]];
      rewrite H; eauto.
    destruct (handle_utterance_effect y (set_vad v (set_audio_q q r)))
      as (? & ? & ? & ? & r2 & _ & _ & Hh & _).
    rewrite Hh. eauto.
Qed.

Lemma run_cons a acts r :
  run env (a :: acts) r = run env acts (snd (step env a r)).
Proof.
  cbn [run]. unfold bind.
  destruct (step_total a r) as [r' H]. now rewrite H.
Qed.

Lemma run_app acts1 acts2 r :
  run env (acts1 ++ acts2) r = run env acts2 (snd (run env acts1 r)).
Proof.
  revert r. induction acts1 as [|a acts1 IH]; intro r; [reflexivity|].
  cbn [app]. now rewrite !run_cons, IH.
Qed.

(** A property every step keeps holds after every run. *)
Lemma run_invariant (P : Recognizer -> Prop) :
  (forall a r, P r -> P (snd (step env a r))) ->
  forall acts r, P r -> P (snd (run env acts r)).
Proof.
  intros Hstep acts. induction acts as [|a acts IH]; intros r HP.
  - exact HP.
  - rewrite run_cons. apply IH, Hstep, HP.
Qed.

End PipelineFacts.

(** ** Runs of the recognizer *)

Section PipelineInvariants.

Import PyStr Recognizer Observations.

Variable env : Externals.

Lemma texts_app t1 t2 : texts (t1 ++ t2) = texts t1 ++ texts t2.
Proof.
  induction t1 as [|e t1 IH]; [reflexivity|].
  destruct e; simpl; rewrite ?IH; reflexivity.
Qed.

Lemma logged_app t1 t2 : logged (t1 ++ t2) = logged t1 ++ logged t2.
Proof.
  induction t1 as [|e t1 IH]; [reflexivity|].
  destruct e; simpl; rewrite ?IH; reflexivity.
Qed.

Lemma statuses_app t1 t2 : statuses (t1 ++ t2) = statuses t1 ++ statuses t2.
Proof.
  induction t1 as [|e t1 IH]; [reflexivity|].
  destruct e; simpl; rewrite ?IH; reflexivity.
Qed.

Lemma transcribed_langs_app t1 t2 :
  transcribed_langs (t1 ++ t2) = transcribed_langs t1 ++ transcribed_langs t2.
Proof.
  induction t1 as [|e t1 IH]; [reflexivity|].
  destruct e; simpl; rewrite ?IH; reflexivity.
Qed.

Lemma transcribed_app t1 t2 :
  transcribed (t1 ++ t2) = transcribed t1 ++ transcribed t2.
Proof.
  induction t1 as [|e t1 IH]; [reflexivity|].
  destruct e; simpl; rewrite ?IH; reflexivity.
Qed.

(** Calls of the model are neither published lines nor log writes. *)
Lemma model_calls_only evs :
  model_calls evs = evs ->
  texts evs = [] /\ logged evs = [] /\ statuses evs = [].
Proof.
  induction evs as [|e evs IH]; [auto|].
  destruct e; simpl; intro H.
  1,2: injection H as H; now apply IH.
  all: exfalso;
    assert (Hl : (List.length (model_calls evs) <= List.length evs)%nat)
      by (clear; induction evs as [|e evs IH];
          [simpl; lia|destruct e; simpl; lia]);
    rewrite H in Hl; simpl in Hl; lia.
Qed.

(** Statuses and notices are neither calls of the model, nor published
    lines, nor log writes. *)
Lemma notices_only evs :
  Forall is_notice evs ->
  model_calls evs = [] /\ texts evs = [] /\ logged evs = [] /\
  transcribed evs = [] /\ transcribed_langs evs = [].
Proof.
  induction 1 as [|e evs He _ IH]; [repeat split|].
  destruct e as [| | |i| |]; simpl in He; try contradiction;
    [destruct i; try contradiction|]; simpl; exact IH.
Qed.

Lemma action_eq_turn (a : action) : a = ProcessTurn \/ a <> ProcessTurn.
Proof. destruct a; (now left) || (right; discriminate). Qed.

(** What a step other than a turn of the processing loop does: it adds
    statuses and notices to the trace and leaves the Sticky Language, the
    count of calls and the settings alone. *)
Lemma quiet_step a r :
  a <> ProcessTurn ->
  exists evs,
    trace (snd (step env a r)) = trace r ++ evs /\
    Forall is_notice evs /\
    last_lang (snd (step env a r)) = last_lang r /\
    calls (snd (step env a r)) = calls r /\
    cfg (snd (step env a r)) = cfg r.
Proof.
  intro Ha. destruct a; [| | | | | |contradiction]; cbn [step];
    destruct r as [c s f ml ld q se v run pa ll cl tr]; run_op.
  - destruct run; cbn; [exists []; rewrite app_nil_r; auto|].
    destruct (negb ml && negb ld); cbn.
    + exists [OnStatus StLoading]. repeat split. repeat constructor.
    + exists []. rewrite app_nil_r. auto.
  - destruct (negb run); cbn.
    + exists []. rewrite app_nil_r. auto.
    + exists [OnStatus StPaused; OnInfo InfoPaused].
      rewrite <- app_assoc. repeat split. repeat constructor.
  - destruct (negb run); cbn; [exists []; rewrite app_nil_r; auto|].
    destruct ml; cbn.
    + exists [OnStatus StRunning; OnInfo InfoResumed].
      rewrite <- app_assoc. repeat split. repeat constructor.
    + exists [OnStatus StLoading; OnInfo InfoResumed].
      rewrite <- app_assoc. repeat split. repeat constructor.
  - destruct (negb run); cbn; [exists []; rewrite app_nil_r; auto|].
    exists [OnStatus StStopped; OnInfo InfoStopped].
    rewrite <- app_assoc. repeat split. repeat constructor.
  - destruct ld; cbn; [|exists []; rewrite app_nil_r; auto].
    destruct ok; cbn.
    + destruct (negb pa && run); cbn.
      * exists [OnInfo InfoLoadingModel; OnStatus StRunning;
                OnInfo InfoModelReady].
        rewrite <- !app_assoc. repeat split. repeat constructor.
      * exists [OnInfo InfoLoadingModel; OnInfo InfoModelReady].
        rewrite <- !app_assoc. repeat split. repeat constructor.
    + exists [OnInfo InfoLoadingModel; OnInfo InfoModelLoadFailed].
      rewrite <- !app_assoc. repeat split. repeat constructor.
  - destruct se; cbn; [exists []; rewrite app_nil_r; auto|].
    destruct flags as [flags|]; cbn.
    + exists [OnInfo (InfoAudio flags)].
      destruct (negb run || pa); cbn; [repeat split; repeat constructor|].
      destruct (Audio.apply_gain _ _ _ _); cbn;
        repeat split; repeat constructor.
    + exists []. rewrite app_nil_r.
      destruct (negb run || pa); cbn; [auto|].
      destruct (Audio.apply_gain _ _ _ _); cbn; auto.
Qed.

Lemma tagged_line_intro lang text :
  In lang allowed -> text <> EmptyString -> strip text = text ->
  tagged_line ("[" ++ upper lang ++ "] " ++ text).
Proof.
  intros Hl Hne Hs. unfold tagged_line.
  destruct Hl as [<-|[<-|[<-|[]]]].
  - exists "[RU] "%string, text. simpl. auto.
  - exists "[EN] "%string, text. simpl. auto 6.
  - exists "[ZH] "%string, text. simpl. auto 6.
Qed.

(** What one turn of the processing loop does. *)
Lemma turn_summary r :
  exists new,
    trace (snd (process_iteration env r)) = trace r ++ new /\
    cfg (snd (process_iteration env r)) = cfg r /\
    model_loaded (snd (process_iteration env r)) = model_loaded r /\
    is_paused (snd (process_iteration env r)) = is_paused r /\
    is_running (snd (process_iteration env r)) = is_running r /\
    len (audio_q (snd (process_iteration env r))) <= len (audio_q r) /\
    (model_loaded r = false ->
       Forall is_notice new /\
       last_lang (snd (process_iteration env r)) = last_lang r) /\
    (is_paused r = true ->
       new = [] /\
       last_lang (snd (process_iteration env r)) = last_lang r /\
       (vad (snd (process_iteration env r)) = vad r \/
        vad (snd (process_iteration env r)) = VAD.reset (vad r))) /\
    texts new = logged new /\
    (sticky_ok r ->
       sticky_ok (snd (process_iteration env r)) /\
       Forall (fun l => In l allowed) (transcribed_langs new) /\
       Forall tagged_line (texts new)).
Proof.
  assert (Htail : forall (x : audio) q, len q <= len (x :: q)).
  { intros x q. unfold len. simpl. lia. }
  destruct (process_iteration_cases env r)
    as [H|[(x & q & Hq & Hrun & Hp & H)|[(x & q & v & Hq & Hrun & Hp & Hf & H)|
        [(x & q & v & u & Hq & Hrun & Hp & Hf & Hm & H)|
         (x & q & v & u & y & Hq & Hrun & Hp & Hf & Hm & H)]]]];
    rewrite H; cbn [snd].
  - exists []. rewrite app_nil_r.
    repeat split; auto; try lia; constructor.
  - exists []. rewrite app_nil_r. rewrite Hq.
    repeat split; auto; try constructor.
  - exists []. rewrite app_nil_r. rewrite Hq.
    repeat split; auto; try constructor; try congruence.
  - exists [OnInfo InfoModelLoading]. rewrite Hq.
    repeat split; auto; try (repeat constructor; fail); try congruence.
  - destruct (handle_utterance_effect env y (set_vad v (set_audio_q q r)))
      as (lang & text & evs & r1 & r2 & _ & D & Hh & Hr2).
    rewrite Hh. cbn [snd].
    destruct D as (Hc & Htr & _ & Hcalls & _ & Hstrip & Hlang).
    destruct Hc as (Hcfg & _ & _ & Hml & _ & Hqq & _ & _ & Hir & Hip).
    destruct (model_calls_only evs Hcalls) as (Ht & Hl & _).
    cbn [cfg model_loaded audio_q is_running is_paused trace
         set_vad set_audio_q] in Hcfg, Hml, Hqq, Hir, Hip, Htr.
    destruct Hr2 as [[Htxt ->]|[Htxt ->]].
    + exists evs. rewrite Hq.
      split; [exact Htr|]. split; [exact Hcfg|]. split; [exact Hml|].
      split; [exact Hip|]. split; [exact Hir|].
      split; [rewrite Hqq; apply Htail|].
      split; [intro; congruence|]. split; [intro; congruence|].
      split; [now rewrite Ht, Hl|].
      intro Hs. destruct (Hlang Hs) as (_ & Hs1 & Hall).
      split; [exact Hs1|]. split; [exact Hall|]. rewrite Ht. constructor.
    + exists (evs ++ [OnText ("[" ++ upper lang ++ "] " ++ text)%string;
                      LogWrite ("[" ++ upper lang ++ "] " ++ text)%string;
                      OnInfo (InfoLine
                                ("[" ++ upper lang ++ "] " ++ text)%string)]).
      cbn [cfg model_loaded audio_q is_running is_paused trace last_lang
           log_event].
      rewrite Hq.
      split; [rewrite Htr, <- !app_assoc; reflexivity|].
      split; [exact Hcfg|]. split; [exact Hml|].
      split; [exact Hip|]. split; [exact Hir|].
      split; [rewrite Hqq; apply Htail|].
      split; [intro; congruence|]. split; [intro; congruence|].
      split; [rewrite texts_app, logged_app, Ht, Hl; reflexivity|].
      intro Hs. destruct (Hlang Hs) as (Hin & Hs1 & Hall).
      split; [exact Hs1|]. split.
      * rewrite transcribed_langs_app. cbn. now rewrite app_nil_r.
      * rewrite texts_app, Ht. cbn. constructor; [|constructor].
        apply tagged_line_intro; [exact Hin|exact Htxt|exact Hstrip].
Qed.

End PipelineInvariants.

Section PipelineProperties.

Import PyStr Recognizer Observations.

Variable env : Externals.

(** A property kept by every step of a given kind holds after every run
    made of steps of that kind. *)
Lemma run_invariant_on (A : action -> Prop) (P : Recognizer -> Prop) :
  (forall a r, A a -> P r -> P (snd (step env a r))) ->
  forall acts r, Forall A acts -> P r -> P (snd (run env acts r)).
Proof.
  intros Hstep acts. induction acts as [|a acts IH]; intros r HA HP.
  - exact HP.
  - inversion HA as [|? ? Ha Hacts]; subst.
    rewrite run_cons. apply IH; [exact Hacts|]. now apply Hstep.
Qed.

(** What a block delivered by the stream does to the queue and to the
    trace. *)
Lemma deliver_effect indata flags r :
  audio_q (snd (deliver env indata flags r)) =
    (if stop_evt r || negb (is_running r) || is_paused r then audio_q r
     else match Audio.apply_gain (pow10 env) (times env) indata
                                 (gain_db (cfg r)) with
          | Ok x => put_nowait x (audio_q r)
          | Raise _ => audio_q r
          end) /\
  trace (snd (deliver env indata flags r)) =
    trace r ++
    (if stop_evt r then []
     else match flags with
          | Some text => [OnInfo (InfoAudio text)]
          | None => []
          end) /\
  same_controls (set_audio_q (audio_q (snd (deliver env indata flags r))) r)
                (snd (deliver env indata flags r)) /\
  last_lang (snd (deliver env indata flags r)) = last_lang r /\
  calls (snd (deliver env indata flags r)) = calls r.
Proof.
  destruct r as [c s f ml ld q se v run pa ll cl tr]. run_op.
  destruct se; cbn; [rewrite app_nil_r; repeat split|].
  destruct flags as [text|]; cbn; destruct (negb run || pa); cbn;
    rewrite ?app_nil_r; try (repeat split; fail);
    destruct (Audio.apply_gain _ _ _ _); cbn; repeat split.
Qed.

(** X5.  The queue between capture and processing never holds more than
    its 12 blocks, whatever is called and whatever the stream delivers.  A
    block that arrives at a full queue is dropped and the blocks queued are
    kept; a block that arrives at a running recognizer whose queue has room
    goes, once the gain is applied, to the end of the queue. *)
Theorem queue_never_exceeds_capacity (acts : list action) (r : Recognizer) :
  len (audio_q r) <= queue_maxsize ->
  len (audio_q (snd (run env acts r))) <= queue_maxsize /\
  (forall indata flags,
     len (audio_q r) = queue_maxsize ->
     audio_q (snd (step env (MicBlock indata flags) r)) = audio_q r) /\
  (forall indata flags x,
     len (audio_q r) < queue_maxsize ->
     is_running r = true -> is_paused r = false -> stop_evt r = false ->
     Audio.apply_gain (pow10 env) (times env) indata (gain_db (cfg r))
       = Ok x ->
     audio_q (snd (step env (MicBlock indata flags) r)) = audio_q r ++ [x]).
Proof.
  intro Hr. split; [|split].
  - revert Hr.
    apply (run_invariant env (fun r => len (audio_q r) <= queue_maxsize)).
    clear. intros a r H.
    destruct a; cbn [step].
    6: { destruct (deliver_effect indata flags r) as (Hq & _). rewrite Hq.
         destruct (stop_evt r || negb (is_running r) || is_paused r);
           [exact H|].
         destruct (Audio.apply_gain _ _ _ _) as [x|]; [|exact H].
         unfold put_nowait.
         destruct (queue_maxsize <=? len (audio_q r)) eqn:E; [exact H|].
         apply Z.leb_gt in E. rewrite len_app. change (len [x]) with 1.
         lia. }
    6: { destruct (turn_summary env r) as (new & _ & _ & _ & _ & _ & Hq & _).
         lia. }
    all: destruct r as [c s f ml ld q se v run pa ll cl tr]; run_op;
      cbn [audio_q] in H.
    + destruct run; [exact H|]. destruct (negb ml && negb ld); exact H.
    + destruct (negb run); exact H.
    + destruct (negb run); [exact H|]. destruct ml; exact H.
    + destruct (negb run); [exact H|]. cbn. unfold queue_maxsize. lia.
    + destruct ld; [|exact H]. destruct ok; [|exact H].
      destruct (negb pa && run); exact H.
  - intros indata flags Hfull. cbn [step].
    destruct (deliver_effect indata flags r) as (Hq & _). rewrite Hq.
    destruct (stop_evt r || negb (is_running r) || is_paused r);
      [reflexivity|].
    destruct (Audio.apply_gain _ _ _ _) as [x|]; [|reflexivity].
    unfold put_nowait. rewrite Hfull, Z.leb_refl. reflexivity.
  - intros indata flags x Hroom Hrun Hp Hs Hx. cbn [step].
    destruct (deliver_effect indata flags r) as (Hq & _). rewrite Hq.
    rewrite Hrun, Hp, Hs, Hx. cbn [negb orb]. unfold put_nowait.
    apply Z.leb_gt in Hroom. now rewrite Hroom.
Qed.

Lemma step_keeps_model_unloaded a r :
  a <> LoadModel true ->
  model_loaded r = false ->
  model_loaded (snd (step env a r)) = false.
Proof.
  intros Ha Hm. destruct a; cbn [step].
  6: { destruct (deliver_effect indata flags r)
         as (_ & _ & (_ & _ & _ & H & _) & _).
       cbn [model_loaded set_audio_q] in H. congruence. }
  6: { destruct (turn_summary env r) as (new & _ & _ & H & _). congruence. }
  all: destruct r as [c s f ml ld q se v run pa ll cl tr]; run_op;
    cbn [model_loaded] in Hm.
  - destruct run; [exact Hm|]. destruct (negb ml && negb ld); exact Hm.
  - destruct (negb run); exact Hm.
  - destruct (negb run); [exact Hm|]. destruct ml; exact Hm.
  - destruct (negb run); exact Hm.
  - destruct ld; [|exact Hm]. destruct ok; [congruence|exact Hm].
Qed.

(** X6.  As long as no model load succeeds, the model is never called and
    no line is published, whatever else happens: utterances cut while the
    model is absent are dropped. *)
Theorem no_model_call_before_load (acts : list action) (r : Recognizer) :
  model_loaded r = false ->
  Forall (fun a => a <> LoadModel true) acts ->
  model_loaded (snd (run env acts r)) = false /\
  model_calls (trace (snd (run env acts r))) = model_calls (trace r) /\
  texts (trace (snd (run env acts r))) = texts (trace r).
Proof.
  intros Hm Hacts.
  apply (run_invariant_on (fun a => a <> LoadModel true)
           (fun r' => model_loaded r' = false /\
                      model_calls (trace r') = model_calls (trace r) /\
                      texts (trace r') = texts (trace r)));
    [|exact Hacts|auto].
  clear Hacts. intros a r0 Ha (Hm0 & Hc0 & Ht0).
  split; [now apply step_keeps_model_unloaded|].
  assert (Hev : exists evs,
            trace (snd (step env a r0)) = trace r0 ++ evs /\
            Forall is_notice evs).
  { destruct (action_eq_turn a) as [->|Hturn].
    - cbn [step].
      destruct (turn_summary env r0)
        as (new & Htr & _ & _ & _ & _ & _ & Hno & _).
      exists new. split; [exact Htr|]. now apply Hno.
    - destruct (quiet_step env a r0 Hturn) as (evs & Htr & Hn & _).
      now exists evs. }
  destruct Hev as (evs & Htr & Hn).
  destruct (notices_only evs Hn) as (Hc & Ht & _).
  rewrite Htr, model_calls_app, texts_app, Hc, Ht, !app_nil_r. auto.
Qed.

Lemma turn_keeps_stop_evt r :
  stop_evt (snd (process_iteration env r)) = stop_evt r.
Proof.
  destruct (process_iteration_cases env r)
    as [H|[(x & q & _ & _ & _ & H)|[(x & q & v & _ & _ & _ & _ & H)|
        [(x & q & v & u & _ & _ & _ & _ & _ & H)|
         (x & q & v & u & y & _ & _ & _ & _ & _ & H)]]]];
    rewrite H; try reflexivity.
  destruct (handle_utterance_effect env y (set_vad v (set_audio_q q r)))
    as (lang & text & evs & r1 & r2 & _ & D & Hh & Hr2).
  rewrite Hh. cbn [snd].
  destruct D as ((_ & _ & _ & _ & _ & _ & Hs & _) & _).
  cbn [stop_evt set_vad set_audio_q] in Hs.
  destruct Hr2 as [[_ ->]|[_ ->]]; exact Hs.
Qed.

(** X7.  Turns of the processing loop that begin while the recognizer is
    paused, and the blocks the stream delivers meanwhile, call no model and
    publish nothing: all that is added to the trace is the notice of the
    status flags of a block that carries some, and not even that once the
    stop signal is set.  The paused flag and the Sticky Language stay as
    they are, the queue does not grow, and the segmenter is either untouched
    or reset.  A turn that had begun before [pause()] was called is not
    among these: it runs to its end, as stated of the utterance in progress
    further down. *)
Theorem paused_pipeline_is_silent (acts : list action) (r : Recognizer) :
  is_paused r = true ->
  Forall capture_or_turn acts ->
  trace (snd (run env acts r)) =
    trace r ++ (if stop_evt r then [] else audio_notices acts) /\
  is_paused (snd (run env acts r)) = true /\
  last_lang (snd (run env acts r)) = last_lang r /\
  len (audio_q (snd (run env acts r))) <= len (audio_q r) /\
  (vad (snd (run env acts r)) = vad r \/
   vad (snd (run env acts r)) = VAD.reset (vad r)).
Proof.
  intros Hp Hacts. revert r Hp.
  induction Hacts as [|a acts Ha _ IH]; intros r Hp.
  - cbn. destruct (stop_evt r); rewrite app_nil_r; repeat split; auto; lia.
  - rewrite run_cons.
    assert (Hstep :
      trace (snd (step env a r)) =
        trace r ++ (if stop_evt r then [] else audio_notices [a]) /\
      is_paused (snd (step env a r)) = true /\
      stop_evt (snd (step env a r)) = stop_evt r /\
      last_lang (snd (step env a r)) = last_lang r /\
      len (audio_q (snd (step env a r))) <= len (audio_q r) /\
      (vad (snd (step env a r)) = vad r \/
       vad (snd (step env a r)) = VAD.reset (vad r))).
    { destruct a; try contradiction; cbn [step].
      - destruct (deliver_effect indata flags r)
          as (Hq & Ht & (_ & _ & _ & _ & _ & _ & Hs & Hv & _ & Hpa) & Hl & _).
        cbn [stop_evt vad is_paused set_audio_q] in Hs, Hv, Hpa.
        rewrite Hp, orb_true_r in Hq.
        split; [rewrite Ht; now destruct flags|].
        split; [congruence|]. split; [exact Hs|]. split; [exact Hl|].
        split; [rewrite Hq; lia|]. now left.
      - destruct (turn_summary env r)
          as (new & Htr & _ & _ & Hp1 & _ & Hq1 & _ & Hpa & _).
        destruct (Hpa Hp) as (-> & Hl1 & Hv1).
        split; [rewrite Htr; cbn; now destruct (stop_evt r)|].
        split; [congruence|]. split; [apply turn_keeps_stop_evt|].
        split; [exact Hl1|]. split; [exact Hq1|]. exact Hv1. }
    destruct Hstep as (Ht & Hp1 & Hs & Hl & Hq & Hv).
    destruct (IH (snd (step env a r)) Hp1) as (Ht2 & Hp2 & Hl2 & Hq2 & Hv2).
    split.
    { rewrite Ht2, Ht, Hs, <- app_assoc. f_equal.
      destruct (stop_evt r); [reflexivity|].
      destruct a as [| | | | |indata [text|]|]; reflexivity. }
    split; [exact Hp2|]. split; [congruence|]. split; [lia|].
    destruct Hv2 as [Hv2|Hv2]; rewrite Hv2; [exact Hv|].
    right. destruct Hv as [->| ->]; reflexivity.
Qed.

(** X8.  In exclusive mode the decision on an utterance is one call of the
    model: a transcription in the chosen language, or in [ru] when the
    chosen language is not supported.  The detector is not asked and the
    Sticky Language is left as it is. *)
Theorem exclusive_mode_transcribes_chosen (y : audio) (r : Recognizer) :
  lang_mode (cfg r) = "exclusive"%string ->
  decide env y r =
    (Ok (chosen_or_ru (cfg r), asr_text env y (chosen_or_ru (cfg r)) r),
     log_call (Transcribe y (chosen_or_ru (cfg r))) r) /\
  In (chosen_or_ru (cfg r)) allowed /\
  (In (chosen_lang (cfg r)) allowed ->
   chosen_or_ru (cfg r) = chosen_lang (cfg r)).
Proof.
  intro Hmode. split; [|split].
  - unfold decide, bind. cbn [get]. rewrite Hmode. reflexivity.
  - apply chosen_or_ru_allowed.
  - intro H. unfold chosen_or_ru. apply mem_In in H. now rewrite H.
Qed.

(** What every run from a fresh recognizer keeps: a supported Sticky
    Language, transcriptions in supported languages, and published lines
    that are tagged and logged. *)
Lemma run_keeps_pipeline_invariant (acts : list action) (r : Recognizer) :
  sticky_ok r /\
  Forall (fun l => In l allowed) (transcribed_langs (trace r)) /\
  texts (trace r) = logged (trace r) /\
  Forall tagged_line (texts (trace r)) ->
  sticky_ok (snd (run env acts r)) /\
  Forall (fun l => In l allowed)
         (transcribed_langs (trace (snd (run env acts r)))) /\
  texts (trace (snd (run env acts r))) =
    logged (trace (snd (run env acts r))) /\
  Forall tagged_line (texts (trace (snd (run env acts r)))).
Proof.
  apply (run_invariant env
           (fun r => sticky_ok r /\
                     Forall (fun l => In l allowed)
                            (transcribed_langs (trace r)) /\
                     texts (trace r) = logged (trace r) /\
                     Forall tagged_line (texts (trace r)))).
  clear. intros a r (Hs & Hl & Ht & Hg).
  destruct (action_eq_turn a) as [->|Hturn].
  - cbn [step].
    destruct (turn_summary env r)
      as (new & Htr & _ & _ & _ & _ & _ & _ & _ & Htl & Hok).
    destruct (Hok Hs) as (Hs1 & Hl1 & Hg1).
    rewrite Htr, transcribed_langs_app, texts_app, logged_app.
    split; [exact Hs1|]. split; [now apply Forall_app|].
    split; [congruence|]. now apply Forall_app.
  - destruct (quiet_step env a r Hturn) as (evs & Htr & Hn & Hll & _).
    destruct (notices_only evs Hn) as (_ & Ht1 & Hl1 & _ & Hg1).
    rewrite Htr, transcribed_langs_app, texts_app, logged_app,
      Ht1, Hl1, Hg1, !app_nil_r.
    split; [|auto]. unfold sticky_ok in *. now rewrite Hll.
Qed.

(** X9.  Whatever happens to a recognizer after its construction, the model
    is only ever asked to transcribe in [ru], [en] or [zh], and the Sticky
    Language, once set, is one of the three. *)
Theorem transcription_languages_supported (c : Config)
    (acts : list action) :
  Forall (fun l => In l allowed)
         (transcribed_langs (trace (snd (run env acts (init c))))) /\
  sticky_ok (snd (run env acts (init c))).
Proof.
  destruct (run_keeps_pipeline_invariant acts (init c)) as (Hs & Hl & _).
  - cbn. repeat split; constructor.
  - auto.
Qed.

(** X10.  Whatever happens to a recognizer after its construction, the
    lines sent to [on_text] are exactly the lines written to the log, in the
    same order, and each is [[RU]], [[EN]] or [[ZH]], a space, and a
    non-empty text without surrounding white space. *)
Theorem published_lines_tagged_and_logged (c : Config)
    (acts : list action) :
  texts (trace (snd (run env acts (init c)))) =
    logged (trace (snd (run env acts (init c)))) /\
  Forall tagged_line (texts (trace (snd (run env acts (init c))))).
Proof.
  destruct (run_keeps_pipeline_invariant acts (init c)) as (_ & _ & Ht & Hg).
  - cbn. repeat split; constructor.
  - auto.
Qed.

(** X11.  [stop()] followed by [start()] on a running recognizer leaves it
    running, not paused, with the stop signal cleared, an empty queue and a
    reset segmenter; the Sticky Language and the resident model are kept.
    When the model is resident the restart reports no status after
    [stopped]: [start()] sends a status only when it starts a load. *)
Theorem stop_then_start_restarts_clean (r : Recognizer) :
  is_running r = true ->
  is_running (snd (run env [Stop; Start] r)) = true /\
  is_paused (snd (run env [Stop; Start] r)) = false /\
  stop_evt (snd (run env [Stop; Start] r)) = false /\
  audio_q (snd (run env [Stop; Start] r)) = [] /\
  VAD.is_reset (vad (snd (run env [Stop; Start] r))) /\
  last_lang (snd (run env [Stop; Start] r)) = last_lang r /\
  model_loaded (snd (run env [Stop; Start] r)) = model_loaded r /\
  (model_loaded r = true ->
   statuses (trace (snd (run env [Stop; Start] r))) =
     statuses (trace r) ++ [StStopped]).
Proof.
  intro Hrun. rewrite !run_cons. cbn [run step].
  destruct r as [c s f ml ld q se v run pa ll cl tr].
  cbn [is_running] in Hrun. subst run. run_op. cbn.
  destruct (negb ml && negb ld) eqn:E; cbn.
  - repeat split. intros ->. discriminate.
  - repeat split. intros _.
    rewrite <- app_assoc, statuses_app. reflexivity.
Qed.

Lemma decide_keeps_sticky y r :
  lang_mode (cfg r) = "exclusive"%string \/
  lang_mode (cfg r) = "priority"%string ->
  last_lang (snd (decide env y r)) = last_lang r.
Proof.
  intro Hmode. unfold decide, bind. cbn [get].
  destruct Hmode as [Hm|Hm]; rewrite Hm.
  - change (String.eqb "exclusive" "exclusive") with true. cbv iota.
    destruct (exclusive_mode_effect env y r) as (?&?&?&?& H & Hl & _).
    now rewrite H.
  - change (String.eqb "priority" "exclusive") with false.
    change (String.eqb "priority" "priority") with true. cbv iota.
    destruct (priority_mode_effect env y r) as (?&?&?&?& H & Hl & _).
    now rewrite H.
Qed.

(** X12.  The Sticky Language changes only in a turn of the processing loop
    in standard mode: in exclusive or priority mode no run changes it, and
    in any mode the public operations, the model load and the capture
    callback leave it alone. *)
Theorem sticky_language_changes_only_in_standard_turns
    (acts : list action) (r : Recognizer) :
  lang_mode (cfg r) = "exclusive"%string \/
  lang_mode (cfg r) = "priority"%string \/
  Forall (fun a => a <> ProcessTurn) acts ->
  last_lang (snd (run env acts r)) = last_lang r.
Proof.
  intros [Hm|[Hm|Hacts]].
  3: { apply (run_invariant_on (fun a => a <> ProcessTurn)
                (fun r' => last_lang r' = last_lang r));
         [|exact Hacts|reflexivity].
       intros a r0 Ha H0.
       destruct (quiet_step env a r0 Ha) as (_ & _ & _ & Hl & _).
       congruence. }
  all: assert (Hgoal :
         last_lang (snd (run env acts r)) = last_lang r /\
         lang_mode (cfg (snd (run env acts r))) = lang_mode (cfg r));
    [|tauto].
  all: apply (run_invariant env
           (fun r' => last_lang r' = last_lang r /\
                      lang_mode (cfg r') = lang_mode (cfg r))); [|auto].
  all: intros a r0 (H0 & Hc0).
  all: destruct (action_eq_turn a) as [->|Hturn];
    [|destruct (quiet_step env a r0 Hturn) as (_ & _ & _ & Hl & _ & Hc);
      split; congruence].
  all: cbn [step].
  all: destruct (turn_summary env r0) as (_ & _ & Hc & _).
  all: split; [|congruence].
  all: rewrite <- H0.
  all: destruct (process_iteration_cases env r0)
      as [H|[(x & q & _ & _ & _ & H)|[(x & q & v & _ & _ & _ & _ & H)|
          [(x & q & v & u & _ & _ & _ & _ & _ & H)|
           (x & q & v & u & y & _ & _ & _ & _ & _ & H)]]]];
      rewrite H; try reflexivity.
  all: destruct (handle_utterance_effect env y (set_vad v (set_audio_q q r0)))
      as (lang & text & evs & r1 & r2 & Hd & _ & Hh & Hr2).
  all: rewrite Hh; cbn [snd].
  all: assert (Hk : last_lang r1 = last_lang r0)
      by (pose proof (decide_keeps_sticky y (set_vad v (set_audio_q q r0)))
            as Hk; rewrite Hd in Hk; apply Hk; cbn [cfg set_vad set_audio_q];
          rewrite Hc0; auto).
  all: destruct Hr2 as [[_ ->]|[_ ->]]; exact Hk.
Qed.

(** X13.  Pressing the pause button twice on a running recognizer brings it
    back: the paused flag, the segmenter, the queue, the Sticky Language and
    every other control are as before; only statuses and notices were
    added to the trace. *)
Theorem toggle_twice_restores (r : Recognizer) :
  is_running r = true ->
  same_controls r (snd (on_toggle (snd (on_toggle r)))) /\
  last_lang (snd (on_toggle (snd (on_toggle r)))) = last_lang r /\
  is_paused (snd (on_toggle r)) = negb (is_paused r) /\
  exists evs,
    trace (snd (on_toggle (snd (on_toggle r)))) = trace r ++ evs /\
    Forall is_notice evs.
Proof.
  intro Hrun. destruct r as [c s f ml ld q se v run pa ll cl tr].
  cbn [is_running] in Hrun. subst run. run_op. cbn.
  destruct pa; cbn.
  - destruct ml; cbn; (split; [controls|]); (split; [reflexivity|]);
      (split; [reflexivity|]); eexists;
      (split; [rewrite <- !app_assoc; reflexivity|repeat constructor]).
  - destruct ml; cbn; (split; [controls|]); (split; [reflexivity|]);
      (split; [reflexivity|]); eexists;
      (split; [rewrite <- !app_assoc; reflexivity|repeat constructor]).
Qed.

(** The decision on an utterance reads the settings, the Sticky Language
    and the count of calls, and nothing else of the object: from two objects
    that agree on these it makes the same calls, chooses the same language
    and text, and leaves the same Sticky Language. *)
Lemma decide_frame y r r' :
  cfg r' = cfg r -> last_lang r' = last_lang r -> calls r' = calls r ->
  exists lang text evs r1 r1',
    decide env y r = (Ok (lang, text), r1) /\
    decide env y r' = (Ok (lang, text), r1') /\
    trace r1 = trace r ++ evs /\ trace r1' = trace r' ++ evs /\
    last_lang r1' = last_lang r1 /\ same_controls r' r1'.
Proof.
  destruct r as [c s f ml ld q se v run pa ll cl tr],
           r' as [c' s' f' ml' ld' q' se' v' run' pa' ll' cl' tr'].
  cbn [cfg last_lang calls]. intros -> -> ->.
  unfold decide, bind. cbn [get cfg].
  destruct (String.eqb (lang_mode c) "exclusive").
  - unfold exclusive_mode, bind. cbn [get cfg]. rewrite !asr_eq.
    same_outcome.
  - destruct (String.eqb (lang_mode c) "priority").
    + unfold priority_mode, bind. cbn [get cfg]. rewrite !asr_eq.
      unfold asr_text at 1 3. cbn [calls].
      destruct (slen _ <? 2).
      * rewrite !best_lang_eq. rewrite !asr_eq. same_outcome.
      * same_outcome.
    + unfold standard_mode, bind. rewrite !best_lang_eq.
      cbn [get last_lang log_call calls].
      destruct (differs_from_last ll _).
      * rewrite !best_lang_eq. unfold modify. rewrite !asr_eq. same_outcome.
      * unfold modify. cbn [ret]. rewrite !asr_eq. same_outcome.
Qed.


End PipelineProperties.

(** ** More on the language decision *)

Section DecisionProperties.

Import PyStr Recognizer Observations.

Variable env : Externals.

(** [max] returns a key of greatest value. *)
Lemma max_from_greatest (rest : probs) : forall kv,
  exists q,
    In (max_from kv rest, q) (kv :: rest) /\
    forall k' q', In (k', q') (kv :: rest) -> (q' <= q)%Q.
Proof.
  induction rest as [|kv' rest IH]; intros [k v].
  - exists v. split; [now left|].
    intros k' q' [[= <- <-]|[]]. apply Qle_refl.
  - cbn [max_from snd].
    destruct (Qlt_bool v (snd kv')) eqn:E.
    + apply Qlt_bool_iff in E.
      destruct (IH kv') as (q & Hin & Hmax). exists q.
      split; [now right|].
      intros k' q' [[= <- <-]|H]; [|now apply (Hmax k')].
      apply Qlt_le_weak. eapply Qlt_le_trans; [exact E|].
      destruct kv' as [k'' v'']. apply (Hmax k''). now left.
    + assert (Hle : (snd kv' <= v)%Q).
      { apply Qnot_lt_le. intro Hlt. apply Qlt_bool_iff in Hlt. congruence. }
      destruct (IH (k, v)) as (q & Hin & Hmax). exists q. split.
      * destruct Hin as [Hin|Hin]; [now left|now right; right].
      * intros k' q' [H|[H|H]].
        -- apply (Hmax k'). now left.
        -- subst kv'. cbn [snd] in Hle.
           eapply Qle_trans; [exact Hle|]. apply (Hmax k). now left.
        -- apply (Hmax k'). now right.
Qed.

(** X14.  When the pass is forced, or when no Sticky Language is set,
    [_best_lang] returns a supported language that was not excluded and
    whose probability is the greatest among those: no hysteresis applies. *)
Theorem unbiased_pick_is_most_probable (y : audio) (exclude : list string)
    (force : bool) (r : Recognizer) :
  filter_probs (detect_language env (calls r) y) exclude <> [] ->
  force = true \/ no_sticky r ->
  exists lang q,
    best_lang env y exclude force r = (Ok lang, log_call (Detect y) r) /\
    In (lang, q) (filter_probs (detect_language env (calls r) y) exclude) /\
    (forall k' q',
       In (k', q') (filter_probs (detect_language env (calls r) y) exclude) ->
       (q' <= q)%Q) /\
    In lang allowed /\ ~ In lang exclude.
Proof.
  intros Hne Hcase. rewrite best_lang_eq.
  destruct (filter_probs (detect_language env (calls r) y) exclude)
    as [|kv rest] eqn:Ef; [contradiction|].
  destruct (max_from_greatest rest kv) as (q & Hin & Hmax).
  exists (max_from kv rest), q.
  assert (Hkeys : In (max_from kv rest) allowed /\
                  ~ In (max_from kv rest) exclude).
  { rewrite <- Ef in Hin. now apply filter_probs_keys in Hin. }
  split; [|tauto].
  f_equal. f_equal. cbv zeta.
  destruct Hcase as [-> | [Hn|Hn]].
  - cbn [negb andb]. now destruct (last_lang r).
  - now rewrite Hn.
  - rewrite Hn. cbn. now rewrite andb_false_r.
Qed.

(** X15.  In priority mode, when the primary transcript is shorter than two
    characters, no Sticky Language is set and the detector finds a supported
    language other than the primary one, the fallback transcribes in a
    supported language different from the primary one; the model was called
    three times: primary transcription, detection, fallback transcription. *)
Theorem priority_fallback_avoids_primary (y : audio) (r : Recognizer) :
  slen (strip (asr_text env y (chosen_or_ru (cfg r)) r)) < 2 ->
  no_sticky r ->
  filter_probs (detect_language env (S (calls r)) y)
               [chosen_or_ru (cfg r)] <> [] ->
  exists lang text r',
    priority_mode env y r = (Ok (lang, text), r') /\
    lang <> chosen_or_ru (cfg r) /\
    In lang allowed /\
    trace r' = trace r ++
      [Transcribe y (chosen_or_ru (cfg r)); Detect y; Transcribe y lang].
Proof.
  intros Hshort Hno Hne.
  destruct (unbiased_pick_is_most_probable y [chosen_or_ru (cfg r)] false
              (log_call (Transcribe y (chosen_or_ru (cfg r))) r))
    as (lang & q & Hb & _ & _ & Hall & Hex).
  { exact Hne. }
  { right. exact Hno. }
  exists lang. eexists. eexists. split.
  - apply priority_mode_falls_back; [exact Hshort|exact Hb].
  - split; [|split; [exact Hall|]].
    + intros ->. apply Hex. now left.
    + cbn. now rewrite <- !app_assoc.
Qed.

(** X16.  In priority mode the hysteresis also applies to the fallback: when
    the primary transcript is shorter than two characters, a Sticky Language
    [l] is set and every supported language left after the exclusion is
    below 0.50, the fallback transcribes in [l], even when [l] is the
    primary language that has just been tried. *)
Theorem priority_fallback_returns_sticky (y : audio) (r : Recognizer)
    (l : string) :
  slen (strip (asr_text env y (chosen_or_ru (cfg r)) r)) < 2 ->
  sticky_is r l ->
  (forall k q,
     In (k, q) (filter_probs (detect_language env (S (calls r)) y)
                             [chosen_or_ru (cfg r)]) ->
     (q < 1 # 2)%Q) ->
  exists text r',
    priority_mode env y r = (Ok (l, text), r') /\
    trace r' = trace r ++
      [Transcribe y (chosen_or_ru (cfg r)); Detect y; Transcribe y l].
Proof.
  intros Hshort [Hlast Hne] Hlow.
  set (r0 := log_call (Transcribe y (chosen_or_ru (cfg r))) r).
  assert (Hb : best_lang env y [chosen_or_ru (cfg r)] false r0 =
               (Ok l, log_call (Detect y) r0)).
  { rewrite best_lang_eq. f_equal. f_equal.
    change (calls r0) with (S (calls r)).
    change (last_lang r0) with (last_lang r). rewrite Hlast.
    destruct (filter_probs (detect_language env (S (calls r)) y)
                           [chosen_or_ru (cfg r)]) as [|kv rest] eqn:Ef.
    - simpl. apply nonempty_true_iff in Hne. now rewrite Hne.
    - cbv zeta. cbn [negb andb].
      destruct (differs_from_last (Some l) (max_from kv rest)) eqn:Hd.
      + assert (Hq : Qlt_bool (dict_get (kv :: rest) (max_from kv rest) 0)
                              (1 # 2) = true).
        { apply Qlt_bool_iff. apply (Hlow (max_from kv rest)).
          apply dict_get_in. apply max_from_in. }
        now rewrite Hq.
      + simpl in Hd. apply nonempty_true_iff in Hne. rewrite Hne in Hd.
        simpl in Hd. apply negb_false_iff in Hd.
        now apply String.eqb_eq in Hd. }
  eexists. eexists. split.
  - apply priority_mode_falls_back; [exact Hshort|exact Hb].
  - cbn. now rewrite <- !app_assoc.
Qed.

End DecisionProperties.

(** ** The list of input devices *)

Section DeviceProperties.

Import Devices.

Lemma scan_spec devs : forall i e,
  In e (scan i devs) <->
  exists j d, nth_error devs j = Some d /\ has_input d = true /\
              e = make_entry (i + j) d.
Proof.
  induction devs as [|d0 devs IH]; intros i e.
  - simpl. split; [contradiction|].
    intros (j & d & H & _). destruct j; discriminate.
  - cbn [scan]. split.
    + intro H.
      assert (Hrest : In e (scan (S i) devs) ->
                exists j d, nth_error (d0 :: devs) j = Some d /\
                            has_input d = true /\ e = make_entry (i + j) d).
      { intro Hin. apply IH in Hin. destruct Hin as (j & d & Hn & Hd & He).
        exists (S j), d. rewrite Nat.add_succ_r. auto. }
      destruct (has_input d0) eqn:E; [|auto].
      destruct H as [<-|H]; [|auto].
      exists 0%nat, d0. rewrite Nat.add_0_r. auto.
    + intros (j & d & Hn & Hd & He). destruct j as [|j].
      * injection Hn as ->. rewrite Hd, Nat.add_0_r in *. now left.
      * assert (Hin : In e (scan (S i) devs)).
        { apply IH. exists j, d. rewrite Nat.add_succ_r in He. auto. }
        destruct (has_input d0); [now right|exact Hin].
Qed.

Lemma scan_sorted devs : forall i,
  StronglySorted lt (map index (scan i devs)) /\
  Forall (fun n => (i <= n)%nat) (map index (scan i devs)).
Proof.
  induction devs as [|d0 devs IH]; intro i.
  - split; constructor.
  - cbn [scan]. destruct (IH (S i)) as (Hs & Hl).
    assert (Hl' : Forall (fun n => (i <= n)%nat) (map index (scan (S i) devs))).
    { eapply Forall_impl; [|exact Hl]. intros n Hn. cbv beta in *. lia. }
    destruct (has_input d0); [|auto].
    cbn [map index make_entry]. split.
    + constructor; [exact Hs|].
      eapply Forall_impl; [|exact Hl]. intros n Hn. cbv beta in *. lia.
    + constructor; [lia|exact Hl'].
Qed.

(** X17.  [list_input_devices] returns nothing when the query of the
    devices fails.  Otherwise it returns exactly the devices that have at
    least one input channel, each under its position in the queried list,
    in increasing order of position; so no position is listed twice. *)
Theorem list_input_devices_lists_inputs (query : option (list device)) :
  (query = None -> list_input_devices query = []) /\
  (forall devs, query = Some devs ->
     (forall e, In e (list_input_devices query) <->
                exists d, nth_error devs (index e) = Some d /\
                          has_input d = true /\
                          e = make_entry (index e) d) /\
     StronglySorted lt (map index (list_input_devices query))).
Proof.
  split; [now intros ->|]. intros devs ->. cbn [list_input_devices]. split.
  - intro e. rewrite scan_spec. split.
    + intros (j & d & Hn & Hd & He). exists d. subst e. cbn. auto.
    + intros (d & Hn & Hd & He). exists (index e), d. auto.
  - apply scan_sorted.
Qed.

Lemma position_from_nth (devices : list entry) : forall k n e,
  NoDup (map index devices) ->
  nth_error devices n = Some e ->
  position_from k devices (index e) = k + Z.of_nat n.
Proof.
  induction devices as [|dv devices IH]; intros k n e Hnd Hn.
  - destruct n; discriminate.
  - cbn [position_from]. inversion Hnd as [|? ? Hnotin Hnd']; subst.
    destruct n as [|n].
    + injection Hn as ->. rewrite Nat.eqb_refl. lia.
    + cbn [nth_error] in Hn.
      destruct (Nat.eqb (index dv) (index e)) eqn:E.
      * apply Nat.eqb_eq in E. exfalso. apply Hnotin. rewrite E.
        apply in_map. eapply nth_error_In. exact Hn.
      * rewrite (IH (k + 1) n e Hnd' Hn). lia.
Qed.

Lemma sorted_lt_nodup (l : list nat) : StronglySorted lt l -> NoDup l.
Proof.
  induction 1 as [|a l _ IH Hall]; constructor; [|exact IH].
  intro Hin. rewrite Forall_forall in Hall. specialize (Hall a Hin). lia.
Qed.

(** X18.  The settings dialog finds again the device it saved: when the row
    [row] of the device list stands for the device index [d], looking [d]
    up in the same list gives [row]. *)
Theorem saved_device_is_selected_again (query : option (list device))
    (row : Z) (d : nat) :
  device_of_row (list_input_devices query) row = Some d ->
  position_of (list_input_devices query) d = row.
Proof.
  unfold device_of_row, position_of. intro H.
  destruct ((0 <=? row) && (row <? len (list_input_devices query))) eqn:E;
    [|discriminate].
  apply andb_true_iff in E. destruct E as [E0 _]. apply Z.leb_le in E0.
  destruct (nth_error (list_input_devices query) (Z.to_nat row))
    as [e|] eqn:Hn; [|discriminate].
  injection H as <-.
  rewrite (position_from_nth _ 0 (Z.to_nat row) e); [lia| |exact Hn].
  apply sorted_lt_nodup.
  destruct query as [devs|]; [apply scan_sorted|constructor].
Qed.

End DeviceProperties.

(** ** The configuration *)

Section ConfigProperties.

Import ConfigManager.

Lemma lookup_setitem_same k v d : lookup k (setitem k v d) = Some v.
Proof.
  induction d as [|[k' v'] d IH]; cbn.
  - now rewrite String.eqb_refl.
  - destruct (String.eqb k' k) eqn:E; cbn; rewrite E; [reflexivity|exact IH].
Qed.

Lemma lookup_setitem_other k k' v d :
  k' <> k -> lookup k' (setitem k v d) = lookup k' d.
Proof.
  intro Hne. induction d as [|[k0 v0] d IH]; cbn.
  - destruct (String.eqb k k') eqn:E; [|reflexivity].
    apply String.eqb_eq in E. congruence.
  - destruct (String.eqb k0 k) eqn:E; cbn.
    + apply String.eqb_eq in E. subst k0.
      destruct (String.eqb k k') eqn:E'; [|reflexivity].
      apply String.eqb_eq in E'. congruence.
    + destruct (String.eqb k0 k'); [reflexivity|exact IH].
Qed.

Lemma keys_setitem_present k v d :
  lookup k d <> None -> keys (setitem k v d) = keys d.
Proof.
  unfold keys. induction d as [|[k' v'] d IH]; cbn; intro H.
  - congruence.
  - destruct (String.eqb k' k) eqn:E; cbn; [reflexivity|].
    f_equal. apply IH. exact H.
Qed.

Lemma lookup_setdefault k0 v0 k d :
  lookup k (setdefault k0 v0 d) =
  match lookup k d with
  | Some v => Some v
  | None => if String.eqb k0 k then Some v0 else None
  end.
Proof.
  unfold setdefault. destruct (lookup k0 d) as [v'|] eqn:E0.
  - destruct (lookup k d) eqn:E; [reflexivity|].
    destruct (String.eqb k0 k) eqn:Ek; [|reflexivity].
    apply String.eqb_eq in Ek. congruence.
  - destruct (String.eqb k0 k) eqn:Ek.
    + apply String.eqb_eq in Ek. subst k0.
      rewrite lookup_setitem_same, E0. reflexivity.
    + rewrite lookup_setitem_other.
      * now destruct (lookup k d).
      * intros ->. rewrite String.eqb_refl in Ek. discriminate.
Qed.

Lemma lookup_fill defaults : forall d k,
  lookup k (fill defaults d) =
  match lookup k d with
  | Some v => Some v
  | None => lookup k defaults
  end.
Proof.
  induction defaults as [|[k0 v0] defaults IH]; intros d k; cbn [fill].
  - cbn. now destruct (lookup k d).
  - rewrite IH, lookup_setdefault. cbn [lookup].
    destruct (lookup k d); [reflexivity|].
    now destruct (String.eqb k0 k).
Qed.

Lemma fill_complete defaults : forall d,
  (forall k, In k (keys defaults) -> lookup k d <> None) ->
  fill defaults d = d.
Proof.
  induction defaults as [|[k0 v0] defaults IH]; intros d H; cbn [fill];
    [reflexivity|].
  assert (Hd : setdefault k0 v0 d = d).
  { unfold setdefault. destruct (lookup k0 d) eqn:E; [reflexivity|].
    exfalso. apply (H k0); [now left|exact E]. }
  rewrite Hd. apply IH. intros k Hk. apply H. now right.
Qed.

Lemma lookup_in_keys k (d : dict) : In k (keys d) -> lookup k d <> None.
Proof.
  unfold keys. induction d as [|[k' v'] d IH]; cbn; [contradiction|].
  intros [->|H]; [now rewrite String.eqb_refl|].
  destruct (String.eqb k' k); [discriminate|now apply IH].
Qed.

(** What the file contributes to the data: its object, if it holds one. *)
Lemma load_cases f :
  (exists d, load f = Done (fill DEFAULTS d) /\
             (f = Holds (VDict d) \/
              (d = [] /\ (f = Missing \/ f = Unreadable)))) \/
  (load f = Failed AttributeError /\
   exists v, f = Holds v /\ forall d, v <> VDict d).
Proof.
  destruct f as [| |v].
  - left. exists []. auto.
  - left. exists []. auto.
  - destruct v; try (right; split; [reflexivity|eexists; split;
                       [reflexivity|discriminate]]).
    left. exists d. auto.
Qed.

(** X19.  After [load], a key of the file's object has the value the file
    gave it, and any other key of [DEFAULTS] has its default: the eight
    settings are always present.  The file's values are never overwritten.
    A missing or unreadable file gives the defaults alone, and a file that
    holds JSON other than an object makes [load] raise. *)
Theorem load_completes_with_defaults (f : file) :
  (forall d, f = Holds (VDict d) ->
     exists data, load f = Done data /\
       forall k, lookup k data =
                 match lookup k d with
                 | Some v => Some v
                 | None => lookup k DEFAULTS
                 end) /\
  (f = Missing \/ f = Unreadable -> load f = Done DEFAULTS) /\
  (forall v, f = Holds v -> (forall d, v <> VDict d) ->
     load f = Failed AttributeError) /\
  (forall data k, load f = Done data -> In k (keys DEFAULTS) ->
     lookup k data <> None).
Proof.
  split; [|split; [|split]].
  - intros d ->. eexists. split; [reflexivity|]. intro k. apply lookup_fill.
  - intros [-> | ->]; reflexivity.
  - intros v -> Hv. destruct v; try reflexivity. exfalso. now apply (Hv d).
  - intros data k Hl Hk.
    destruct (load_cases f) as [(d & Hd & _)|[Hd _]]; [|congruence].
    assert (Hdata : data = fill DEFAULTS d) by congruence.
    rewrite Hdata, lookup_fill.
    destruct (lookup k d); [discriminate|]. now apply lookup_in_keys.
Qed.

(** X20.  A configuration that was loaded and saved is read back as it is:
    when the constructor succeeds and its write goes through, loading the
    file it left gives the same data, in the same order. *)
Theorem saved_configuration_reloads (f f' : file) (data : dict) :
  init true f = Done (data, f') ->
  load f' = Done data.
Proof.
  unfold init. destruct (load f) as [data0|e] eqn:Hl; [|discriminate].
  intros [= <- <-]. cbn [save load]. f_equal.
  apply fill_complete. intros k Hk.
  destruct (load_completes_with_defaults f) as (_ & _ & _ & H).
  now apply (H data0 k).
Qed.

(** X21.  A setter changes its own key and nothing else: the value stored
    is the value read back, every other key reads as before, and on loaded
    data, where the key exists, no key is added or moved.  In particular
    the gain set is the gain read, and setting the gain leaves the noise
    reduction, the mode, the chosen language and the device as they were. *)
Theorem setter_changes_one_key (k : string) (v : value) (d : dict) :
  lookup k (setitem k v d) = Some v /\
  (forall k', k' <> k -> lookup k' (setitem k v d) = lookup k' d) /\
  (lookup k d <> None -> keys (setitem k v d) = keys d) /\
  (forall parse repr q,
     gain_db parse (set_gain_db q d) = Done q /\
     noise_reduction (set_gain_db q d) = noise_reduction d /\
     lang_mode repr (set_gain_db q d) = lang_mode repr d /\
     chosen_lang repr (set_gain_db q d) = chosen_lang repr d /\
     device_index (set_gain_db q d) = device_index d).
Proof.
  split; [apply lookup_setitem_same|].
  split; [intros k' H; now apply lookup_setitem_other|].
  split; [apply keys_setitem_present|].
  intros parse repr q.
  unfold gain_db, noise_reduction, lang_mode, chosen_lang, device_index,
    set_gain_db.
  rewrite lookup_setitem_same.
  rewrite !lookup_setitem_other by discriminate.
  repeat split.
Qed.

End ConfigProperties.

(** ** The translations *)

Section TranslationProperties.

Import I18N.

Lemma get_in {A : Type} k (m : list (string * A)) v :
  get k m = Some v -> In (k, v) m.
Proof.
  induction m as [|[k' v'] m IH]; cbn; [discriminate|].
  destruct (String.eqb k' k) eqn:E.
  - apply String.eqb_eq in E. intros [= ->]. subst. now left.
  - intro H. right. now apply IH.
Qed.

Lemma set_lang_cases x :
  set_lang x = "ru"%string \/ set_lang x = "en"%string \/
  set_lang x = "zh"%string.
Proof.
  unfold set_lang.
  destruct (PyStr.mem x ["ru"; "en"; "zh"]%string) eqn:E; [|now left].
  apply mem_In in E. cbn in E. intuition congruence.
Qed.

(** X22.  Whatever language is asked for, the interface language is [ru],
    [en] or [zh] ([ru] when the request is none of them), and every key of
    the table is translated into it: [t] returns the text of that language,
    never the English fallback nor the key.  For a key that is not in the
    table [t] returns the key itself. *)
Theorem every_key_is_translated (x key : string) :
  (In x ["ru"; "en"; "zh"]%string -> set_lang x = x) /\
  (~ In x ["ru"; "en"; "zh"]%string -> set_lang x = "ru"%string) /\
  (forall m, get key STRINGS = Some m ->
     exists s, get (set_lang x) m = Some s /\ t (set_lang x) key = s) /\
  (get key STRINGS = None -> forall cur, t cur key = key).
Proof.
  split; [|split; [|split]].
  - intro H. unfold set_lang. apply mem_In in H. now rewrite H.
  - intro H. unfold set_lang.
    destruct (PyStr.mem x ["ru"; "en"; "zh"]%string) eqn:E; [|reflexivity].
    apply mem_In in E. contradiction.
  - intros m Hm.
    assert (Hall : forallb
              (fun km => match get "ru" (snd km), get "en" (snd km),
                               get "zh" (snd km) with
                         | Some _, Some _, Some _ => true
                         | _, _, _ => false
                         end) STRINGS = true) by (vm_compute; reflexivity).
    rewrite forallb_forall in Hall.
    specialize (Hall (key, m) (get_in _ _ _ Hm)). cbn [snd] in Hall.
    unfold t, t_in. rewrite Hm.
    destruct (get "ru" m) as [sr|] eqn:Er; [|discriminate].
    destruct (get "en" m) as [se|] eqn:Ee; [|discriminate].
    destruct (get "zh" m) as [sz|] eqn:Ez; [|discriminate].
    destruct (set_lang_cases x) as [-> |[-> | ->]].
    + exists sr. now rewrite Er.
    + exists se. now rewrite Ee.
    + exists sz. now rewrite Ez.
  - intros Hn cur. unfold t, t_in. rewrite Hn. reflexivity.
Qed.

End TranslationProperties.

(** ** The language test of the settings dialog *)

Section DiagnosticProperties.

Import Recognizer Observations Diagnostics.

Variable env : Externals.

Lemma unique_value (p : probs) k a b :
  NoDup (map fst p) -> In (k, a) p -> In (k, b) p -> a = b.
Proof.
  induction p as [|[k0 v0] p IH]; cbn; [contradiction|].
  intros Hnd Ha Hb. inversion Hnd as [|? ? Hnot Hnd']; subst.
  assert (Hkey : forall c, In (k, c) p -> In k (map fst p)).
  { intros c Hc. change k with (fst (k, c)). now apply in_map. }
  destruct Ha as [Ha|Ha]; destruct Hb as [Hb|Hb].
  - congruence.
  - exfalso. apply Hnot. replace k0 with k by congruence. now apply (Hkey b).
  - exfalso. apply Hnot. replace k0 with k by congruence. now apply (Hkey a).
  - now apply IH.
Qed.

Lemma nodup_filter_keys (f : string * Q -> bool) (p : probs) :
  NoDup (map fst p) -> NoDup (map fst (filter f p)).
Proof.
  induction p as [|kv p IH]; cbn; [constructor|].
  intro Hnd. inversion Hnd as [|? ? Hnot Hnd']; subst.
  destruct (f kv); cbn; [|now apply IH].
  constructor; [|now apply IH].
  intro Hin. apply Hnot. apply in_map_iff in Hin.
  destruct Hin as (x & Hx & Hf). apply filter_In in Hf.
  rewrite <- Hx. apply in_map. tauto.
Qed.

(** X23.  The language test returns a supported language with its
    probability, the greatest among the supported languages of the detection
    result, or [("en", 0)] when the result holds none of them.  It asks the
    resident model once, or the throw-away model when none is resident, and
    it neither reads nor changes the Sticky Language, the segmenter or any
    control of the pipeline. *)
Theorem language_test_returns_best_supported
    (resample : audio -> Z -> audio) (tiny_detect : audio -> probs)
    (a : audio) (rate : Z) (r : Recognizer) :
  let x0 := pad_or_trim env (resample a rate) in
  let x := if noise_reduction (cfg r)
           then Audio.denoise_wiener (wiener env) x0 else x0 in
  let p := if model_loaded r then detect_language env (calls r) x
           else tiny_detect x in
  let filt := filter (fun kv => PyStr.mem (fst kv) allowed) p in
  NoDup (map fst p) ->
  exists lang conf r',
    detect_language_from_audio env resample tiny_detect a rate r
      = (Ok (lang, conf), r') /\
    r' = (if model_loaded r then log_call (Detect x) r else r) /\
    In lang allowed /\
    (filt = [] -> lang = "en"%string /\ conf = 0%Q) /\
    (filt <> [] ->
       In (lang, conf) filt /\
       forall k q, In (k, q) filt -> (q <= conf)%Q).
Proof.
  intros x0 x p filt Hnd.
  unfold detect_language_from_audio, bind. cbn [get].
  fold x0. fold x.
  assert (Hcall :
    (if model_loaded r then call_detect env x else ret (tiny_detect x)) r =
    (Ok p, if model_loaded r then log_call (Detect x) r else r)).
  { unfold p. destruct (model_loaded r); reflexivity. }
  rewrite Hcall. fold filt.
  destruct filt as [|kv rest] eqn:Ef.
  - exists "en"%string, 0%Q. eexists. split; [reflexivity|].
    split; [reflexivity|]. split; [cbn; auto|].
    split; [auto|]. intro H. contradiction.
  - cbn [max_key ret].
    destruct (max_from_greatest rest kv) as (q & Hin & Hmax).
    assert (Hget : In (max_from kv rest, dict_get (kv :: rest) (max_from kv rest) 0)
                      (kv :: rest)).
    { apply dict_get_in. now exists q. }
    assert (Hq : dict_get (kv :: rest) (max_from kv rest) 0 = q).
    { eapply unique_value; [|exact Hget|exact Hin].
      rewrite <- Ef. unfold filt. now apply nodup_filter_keys. }
    exists (max_from kv rest), (dict_get (kv :: rest) (max_from kv rest) 0).
    eexists. split; [reflexivity|]. split; [reflexivity|].
    split.
    { assert (Hf : In (max_from kv rest, q) filt) by (rewrite Ef; exact Hin).
      unfold filt in Hf. apply filter_In in Hf. destruct Hf as [_ Hf].
      now apply mem_In in Hf. }
    split; [discriminate|]. intros _. split; [exact Hget|].
    rewrite Hq. exact Hmax.
Qed.

End DiagnosticProperties.

(** ** The noise reduction *)

Section DenoiseProperties.

Import Float Audio.

(** X24.  [denoise_wiener] never fails.  When the filter raises, the block
    comes back as it is.  When the filter returns, each of its samples is
    clipped to [[-1, 1]], and a sample that is NaN stays NaN: the samples of
    the result lie in [[-1, 1]] or are NaN, and all lie in [[-1, 1]] exactly
    when the filter returned no NaN. *)
Theorem denoise_wiener_clips_or_gives_back
    (wiener : list float -> option (list float)) (x : list float) :
  (wiener x = None -> denoise_wiener wiener x = x) /\
  (forall y, wiener x = Some y ->
     denoise_wiener wiener x = map clip_unit y /\
     Forall in_unit_or_nan (denoise_wiener wiener x) /\
     (Forall in_unit (denoise_wiener wiener x) <->
      Forall (fun s => s <> NaN) y)).
Proof.
  unfold denoise_wiener. destruct (wiener x) as [y|].
  - split; [discriminate|]. intros y' [= <-]. split; [reflexivity|].
    split.
    + apply Forall_forall. intros s Hs. apply in_map_iff in Hs.
      destruct Hs as (s0 & <- & _). apply clip_unit_in_unit_or_nan.
    + rewrite !Forall_forall. split.
      * intros H s Hs ->.
        assert (Hf : in_unit (clip_unit NaN))
          by (apply H; apply in_map_iff; now exists NaN).
        exact Hf.
      * intros H s Hs. apply in_map_iff in Hs.
        destruct Hs as (s0 & <- & Hin). apply clip_unit_in_unit.
        now apply H.
  - split; [reflexivity|]. discriminate.
Qed.

End DenoiseProperties.

(** ** Concrete runs *)

Section MoreInstances.

Import Float PyStr Recognizer Observations.

(** One loud block fed to the default segmenter. *)
Lemma in_speech_buffer_below_max_witness :
  len (VAD.buf (fst (VAD.feed_all Exact.mean_abs Samples.seg_default [Samples.loud3200])))
    < VAD.max_utt Samples.seg_default /\
  VAD.silence_run (fst (VAD.feed_all Exact.mean_abs Samples.seg_default [Samples.loud3200]))
    < VAD.silence_need Samples.seg_default.
Proof.
  apply in_speech_buffer_below_max; [discriminate|vm_compute; reflexivity].
Defined.

(** Two quiet blocks fed to the default segmenter. *)
Lemma silence_fills_buffer_witness :
  VAD.buf (fst (VAD.feed_all Exact.mean_abs Samples.seg_default
                  [Samples.quiet3200; Samples.quiet3200])) =
    List.concat [Samples.quiet3200; Samples.quiet3200] /\
  VAD.silence_run (fst (VAD.feed_all Exact.mean_abs Samples.seg_default
                          [Samples.quiet3200; Samples.quiet3200])) =
    len (List.concat [Samples.quiet3200; Samples.quiet3200]) /\
  VAD.in_speech (fst (VAD.feed_all Exact.mean_abs Samples.seg_default
                        [Samples.quiet3200; Samples.quiet3200])) = false.
Proof.
  apply silence_fills_buffer.
  - repeat split.
  - repeat constructor;
      (eexists; split; [vm_compute; reflexivity|vm_compute; reflexivity]).
Defined.

(** The segmenter at 16 kHz. *)
Lemma default_durations_ordered_witness :
  1 <= VAD.silence_need (VAD.init_default 16000) /\
  VAD.silence_need (VAD.init_default 16000)
    <= VAD.min_utt (VAD.init_default 16000) /\
  VAD.min_utt (VAD.init_default 16000)
    <= VAD.max_utt (VAD.init_default 16000).
Proof.
  apply default_durations_ordered; [vm_compute; discriminate|reflexivity].
Defined.

(** Fifteen blocks delivered to a running recognizer that never turns: the
    queue holds the first twelve. *)
Lemma queue_never_exceeds_capacity_witness :
  len (audio_q (snd (run Samples.mock (repeat (MicBlock [Fin 1] None) 15)
                       (Samples.running "standard" "ru"))))
    <= queue_maxsize /\
  audio_q (snd (run Samples.mock (repeat (MicBlock [Fin 1] None) 15)
                  (Samples.running "standard" "ru"))) =
    repeat [Fin 1] 12.
Proof.
  split.
  - apply queue_never_exceeds_capacity. vm_compute. discriminate.
  - vm_compute. reflexivity.
Defined.

(** A start whose model load fails, then a block and a turn. *)
Lemma no_model_call_before_load_witness :
  model_loaded
    (snd (run Samples.mock
            [Start; LoadModel false; MicBlock Samples.loud3200 None; ProcessTurn]
            (init (Samples.config "standard" "ru")))) = false /\
  model_calls
    (trace (snd (run Samples.mock
                   [Start; LoadModel false; MicBlock Samples.loud3200 None;
                    ProcessTurn]
                   (init (Samples.config "standard" "ru"))))) =
    model_calls (trace (init (Samples.config "standard" "ru"))) /\
  texts
    (trace (snd (run Samples.mock
                   [Start; LoadModel false; MicBlock Samples.loud3200 None;
                    ProcessTurn]
                   (init (Samples.config "standard" "ru"))))) =
    texts (trace (init (Samples.config "standard" "ru"))).
Proof.
  apply no_model_call_before_load.
  - reflexivity.
  - repeat constructor; discriminate.
Defined.

(** A block that carries a status flag and a turn, on a paused
    recognizer: the notice of the flag is all that is added to the trace. *)
Lemma paused_pipeline_is_silent_witness :
  trace (snd (run Samples.mock
                [MicBlock Samples.loud3200 (Some "input overflow"%string);
                 ProcessTurn]
                MoreSamples.paused_recognizer)) =
    trace MoreSamples.paused_recognizer ++
    [OnInfo (InfoAudio "input overflow")] /\
  is_paused (snd (run Samples.mock
                    [MicBlock Samples.loud3200 (Some "input overflow"%string);
                     ProcessTurn]
                    MoreSamples.paused_recognizer)) = true.
Proof.
  destruct (paused_pipeline_is_silent Samples.mock
              [MicBlock Samples.loud3200 (Some "input overflow"%string);
               ProcessTurn]
              MoreSamples.paused_recognizer)
    as (Ht & Hp & _).
  - reflexivity.
  - repeat constructor.
  - split; [exact Ht|exact Hp].
Defined.

(** Exclusive mode for [zh]. *)
Lemma exclusive_mode_transcribes_chosen_witness :
  decide Samples.mock [Fin 1] (Samples.running "exclusive" "zh") =
    (Ok (chosen_or_ru (cfg (Samples.running "exclusive" "zh")),
         asr_text Samples.mock [Fin 1]
           (chosen_or_ru (cfg (Samples.running "exclusive" "zh")))
           (Samples.running "exclusive" "zh")),
     log_call
       (Transcribe [Fin 1]
          (chosen_or_ru (cfg (Samples.running "exclusive" "zh"))))
       (Samples.running "exclusive" "zh")) /\
  In (chosen_or_ru (cfg (Samples.running "exclusive" "zh"))) allowed /\
  (In (chosen_lang (cfg (Samples.running "exclusive" "zh"))) allowed ->
   chosen_or_ru (cfg (Samples.running "exclusive" "zh")) =
     chosen_lang (cfg (Samples.running "exclusive" "zh"))).
Proof. apply exclusive_mode_transcribes_chosen. reflexivity. Defined.

(** A restart of a running recognizer whose model is resident. *)
Lemma stop_then_start_restarts_clean_witness :
  is_running (snd (run Samples.mock [Stop; Start]
                     (Samples.running "standard" "ru"))) = true /\
  statuses (trace (snd (run Samples.mock [Stop; Start]
                          (Samples.running "standard" "ru")))) =
    statuses (trace (Samples.running "standard" "ru")) ++ [StStopped].
Proof.
  destruct (stop_then_start_restarts_clean Samples.mock
              (Samples.running "standard" "ru") eq_refl)
    as (H1 & _ & _ & _ & _ & _ & _ & H8).
  split; [exact H1|]. apply H8. reflexivity.
Defined.

(** A pause and a resume in standard mode. *)
Lemma sticky_language_changes_only_in_standard_turns_witness :
  last_lang (snd (run Samples.mock [Pause; Resume; Stop; Start]
                    MoreSamples.sticky_ru)) =
    last_lang MoreSamples.sticky_ru.
Proof.
  apply sticky_language_changes_only_in_standard_turns.
  right. right. repeat constructor; discriminate.
Defined.

(** Two presses of the pause button. *)
Lemma toggle_twice_restores_witness :
  same_controls (Samples.running "standard" "ru")
    (snd (on_toggle (snd (on_toggle (Samples.running "standard" "ru"))))) /\
  last_lang (snd (on_toggle (snd (on_toggle
                                    (Samples.running "standard" "ru"))))) =
    last_lang (Samples.running "standard" "ru") /\
  is_paused (snd (on_toggle (Samples.running "standard" "ru"))) =
    negb (is_paused (Samples.running "standard" "ru")) /\
  exists evs,
    trace (snd (on_toggle (snd (on_toggle
                                  (Samples.running "standard" "ru"))))) =
      trace (Samples.running "standard" "ru") ++ evs /\
    Forall is_notice evs.
Proof. apply toggle_twice_restores. reflexivity. Defined.

(** A forced pass on the mock that is sure of English. *)
Lemma unbiased_pick_is_most_probable_witness :
  exists lang q,
    best_lang Samples.mock [Fin 1] [] true (Samples.running "standard" "ru") =
      (Ok lang, log_call (Detect [Fin 1]) (Samples.running "standard" "ru")) /\
    In (lang, q)
       (filter_probs
          (detect_language Samples.mock
             (calls (Samples.running "standard" "ru")) [Fin 1]) []) /\
    (forall k' q',
       In (k', q')
          (filter_probs
             (detect_language Samples.mock
                (calls (Samples.running "standard" "ru")) [Fin 1]) []) ->
       (q' <= q)%Q) /\
    In lang allowed /\ ~ In lang [].
Proof.
  apply unbiased_pick_is_most_probable.
  - vm_compute. discriminate.
  - left. reflexivity.
Defined.

(** Priority mode for [ru], the one-letter transcript and a detector sure
    of English. *)
Lemma priority_fallback_avoids_primary_witness :
  exists lang text r',
    priority_mode Samples.mock [Fin 1] (Samples.running "priority" "ru") =
      (Ok (lang, text), r') /\
    lang <> chosen_or_ru (cfg (Samples.running "priority" "ru")) /\
    In lang allowed /\
    trace r' = trace (Samples.running "priority" "ru") ++
      [Transcribe [Fin 1] (chosen_or_ru (cfg (Samples.running "priority" "ru")));
       Detect [Fin 1]; Transcribe [Fin 1] lang].
Proof.
  apply priority_fallback_avoids_primary.
  - reflexivity.
  - left. reflexivity.
  - vm_compute. discriminate.
Defined.

(** Priority mode for [ru] with the Sticky Language [ru] and a detector that
    hesitates: the fallback transcribes in [ru] again. *)
Lemma priority_fallback_returns_sticky_witness :
  exists text r',
    priority_mode Samples.mock_unsure [Fin 1] MoreSamples.sticky_ru =
      (Ok ("ru"%string, text), r') /\
    trace r' = trace MoreSamples.sticky_ru ++
      [Transcribe [Fin 1] (chosen_or_ru (cfg MoreSamples.sticky_ru));
       Detect [Fin 1]; Transcribe [Fin 1] "ru"].
Proof.
  apply priority_fallback_returns_sticky.
  - reflexivity.
  - split; [reflexivity|discriminate].
  - intros k q H. simpl in H.
    destruct H as [H|[H|[]]]; inversion H; subst; reflexivity.
Defined.

(** The second and third of three devices are inputs; the second row of the
    list is the device 2. *)
Lemma saved_device_is_selected_again_witness :
  Devices.position_of
    (Devices.list_input_devices (Some MoreSamples.three_devices)) 2 = 1.
Proof.
  apply (saved_device_is_selected_again (Some MoreSamples.three_devices) 1 2).
  reflexivity.
Defined.

(** A file with a gain alone, loaded, saved and loaded again. *)
Lemma saved_configuration_reloads_witness :
  ConfigManager.load
    (ConfigManager.save true
       (ConfigManager.fill ConfigManager.DEFAULTS
          [("gain_db"%string, ConfigManager.VFloat 3)])
       MoreSamples.gain_only) =
  ConfigManager.Done
    (ConfigManager.fill ConfigManager.DEFAULTS
       [("gain_db"%string, ConfigManager.VFloat 3)]).
Proof.
  apply (saved_configuration_reloads MoreSamples.gain_only). reflexivity.
Defined.

(** The language test with the resident mock model. *)
Lemma language_test_returns_best_supported_witness :
  exists lang conf r',
    Diagnostics.detect_language_from_audio Samples.mock (fun a _ => a)
      (fun _ => []) [Fin 1] 16000 (Samples.running "standard" "ru")
      = (Ok (lang, conf), r') /\
    In lang allowed.
Proof.
  destruct (language_test_returns_best_supported Samples.mock (fun a _ => a)
              (fun _ => []) [Fin 1] 16000 (Samples.running "standard" "ru"))
    as (lang & conf & r' & H & _ & Hl & _).
  - repeat constructor; simpl; intuition discriminate.
  - exists lang, conf, r'. split; assumption.
Defined.


End MoreInstances.
